(** * Interactive grid: selection engine, edit session, keyboard router
      and optimistic synchronisation, embedded from the TypeScript sources.

    Conventions of the embedding.
    - A JavaScript number that is a grid coordinate is a [Z]; a number that
      is a cell value is an IEEE-754 binary64 value, a [spec_float] of the
      standard library (precision 53, exponent bound 1024).
    - A JavaScript string is a [string]; each [ascii] stands for one code
      unit below 256.
    - A [Map] or a plain object used as a dictionary is a [gmap string _].
      A [Map] that is shared and mutated in place lives in a heap of map
      objects and is referred to by its location.
    - [x | null], [x | undefined] and optional fields are [option].
    - A hook's operation runs on the state the previous one left: a render
      separates two events, so a callback sees the current state.  A
      promise is followed to its end before the next event is handled; the
      way the persistence collaborator's call ends is a parameter of the
      operation that makes the call. *)

From Stdlib Require Import ZArith Lia Bool Ascii String List SpecFloat.
From stdpp Require Import base option list gmap strings pretty.

Local Open Scope string_scope.
Local Open Scope list_scope.
Local Open Scope Z_scope.

(** ** The JavaScript built-ins the sources rely on *)

Module Js.

(** A binary64 number. *)
Definition number := spec_float.

Definition prec : Z := 53.
Definition emax : Z := 1024.

Definition NaN : number := S754_nan.

Definition isNaN (x : number) : bool :=
  match x with S754_nan => true | _ => false end.

Definition isFinite (x : number) : bool :=
  match x with S754_zero _ | S754_finite _ _ _ => true | _ => false end.

(** The number whose value is the integer [z] (rounded when it needs more
    than 53 bits). *)
Definition of_Z (z : Z) : number := binary_normalize prec emax z 0 false.

Definition code (c : ascii) : N := N_of_ascii c.

(** WhiteSpace and LineTerminator code units below 256: TAB, LF, VT, FF,
    CR, SP and NBSP. *)
Definition is_space (c : ascii) : bool :=
  let n := code c in
  ((9 <=? n) && (n <=? 13) || (n =? 32) || (n =? 160))%N.

Definition is_digit (c : ascii) : bool :=
  let n := code c in ((48 <=? n) && (n <=? 57))%N.

Definition digit_val (c : ascii) : Z := Z.of_N (code c) - 48.

Fixpoint trimStart (s : string) : string :=
  match s with
  | String c r => if is_space c then trimStart r else s
  | EmptyString => EmptyString
  end.

Definition rev_string (s : string) : string :=
  string_of_list_ascii (rev (list_ascii_of_string s)).

Definition trimEnd (s : string) : string :=
  rev_string (trimStart (rev_string s)).

(** [String.prototype.trim]. *)
Definition trim (s : string) : string := trimEnd (trimStart s).

Definition lower_char (c : ascii) : ascii :=
  let n := code c in
  if ((65 <=? n) && (n <=? 90)
      || (192 <=? n) && (n <=? 222) && negb (n =? 215))%N
  then ascii_of_N (n + 32) else c.

(** [String.prototype.toLowerCase]. *)
Fixpoint toLowerCase (s : string) : string :=
  match s with
  | String c r => String (lower_char c) (toLowerCase r)
  | EmptyString => EmptyString
  end.

(** [String.prototype.includes]. *)
Fixpoint includes (s sub : string) : bool :=
  String.prefix sub s ||
  match s with
  | String _ r => includes r sub
  | EmptyString => false
  end.

(** *** [parseFloat] *)

(** Longest run of decimal digits at the head of [s]: the digits read so
    far, most significant first, and the rest of the input. *)
Fixpoint span_digits (s : string) : list Z * string :=
  match s with
  | String c r =>
      if is_digit c
      then let '(ds, rest) := span_digits r in (digit_val c :: ds, rest)
      else (nil, s)
  | EmptyString => (nil, EmptyString)
  end.

Definition digits_value (ds : list Z) : Z :=
  fold_left (fun acc d => 10 * acc + d) ds 0.

(** An optional sign: [true] when it is a minus. *)
Definition read_sign (s : string) : bool * string :=
  match s with
  | String "-" r => (true, r)
  | String "+" r => (false, r)
  | _ => (false, s)
  end.

(** ExponentPart: [e] or [E], an optional sign and at least one digit.
    When the input does not continue with a complete exponent part the
    literal ends before it and the exponent is 0. *)
Definition read_exponent (s : string) : Z :=
  match s with
  | String c r =>
      if Ascii.eqb c "e" || Ascii.eqb c "E" then
        let '(neg, r1) := read_sign r in
        match span_digits r1 with
        | (nil, _) => 0
        | (ds, _) => if neg then - digits_value ds else digits_value ds
        end
      else 0
  | EmptyString => 0
  end.

(** The binary64 value nearest to [m * 10 ^ e10] (ties to even), for
    [m > 0].  A negative power of ten is divided out with enough extra
    bits and a sticky bit so that the single rounding is exact. *)
Definition round_decimal (neg : bool) (m e10 : Z) : number :=
  if m =? 0 then S754_zero neg
  else if 0 <=? e10 then
    binary_normalize prec emax (if neg then - (m * 10 ^ e10) else m * 10 ^ e10)
                     0 neg
  else
    let d := 10 ^ (- e10) in
    let k := Z.max 0 (Z.log2_up d + 60 - Z.log2 m) in
    let q := (m * 2 ^ k) / d in
    let sticky := if (m * 2 ^ k) mod d =? 0 then 0 else 1 in
    let mant := 2 * q + sticky in
    binary_normalize prec emax (if neg then - mant else mant) (- (k + 1)) neg.

(** StrUnsignedDecimalLiteral at the head of [s], after the sign. *)
Definition read_unsigned (neg : bool) (s : string) : number :=
  if String.prefix "Infinity" s then S754_infinity neg
  else
    let '(ip, r1) := span_digits s in
    match r1 with
    | String "." r2 =>
        let '(fp, r3) := span_digits r2 in
        match ip, fp with
        | nil, nil => NaN
        | _, _ =>
            round_decimal neg (digits_value (ip ++ fp))
                          (read_exponent r3 - Z.of_nat (length fp))
        end
    | _ =>
        match ip with
        | nil => NaN
        | _ => round_decimal neg (digits_value ip) (read_exponent r1)
        end
    end.

(** [parseFloat]: leading white space is skipped, then the longest prefix
    that is a StrDecimalLiteral is converted; [NaN] when there is none. *)
Definition parseFloat (s : string) : number :=
  let '(neg, r) := read_sign (trimStart s) in read_unsigned neg r.

(** The string consists of white space only (or is empty). *)
Definition all_white_space (s : string) : bool :=
  forallb is_space (list_ascii_of_string s).

(** What the head of a string must look like for [parseFloat] to find a
    literal: a digit, a dot and a digit, or the word Infinity. *)
Definition starts_with_digit (s : string) : bool :=
  match s with
  | String c _ => is_digit c
  | EmptyString => false
  end.

Definition starts_literal (s : string) : bool :=
  String.prefix "Infinity" s || starts_with_digit s ||
  match s with
  | String "." r => starts_with_digit r
  | _ => false
  end.

(** The string begins, after white space and an optional sign, with a
    decimal literal or with Infinity. *)
Definition begins_with_number (s : string) : bool :=
  starts_literal (snd (read_sign (trimStart s))).

End Js.

(** ** Data model (types/common.ts) *)

Record CellPosition := mkPos { row : Z; column : Z }.

Record CellRange := mkRange { range_start : CellPosition; range_end : CellPosition }.

Inductive SelectionType := TySingle | TyRange | TyMultiple.

(** [SelectedCells] is a tag with three optional payloads, as declared. *)
Record SelectedCells := mkSelected {
  sel_type : SelectionType;
  single : option CellPosition;
  range : option CellRange;
  multiple : option (list CellPosition)
}.

Record SelectionState := mkSelection {
  selectedCells : option SelectedCells;
  isSelecting : bool;
  selectionStart : option CellPosition;
  activeCell : option CellPosition
}.

Inductive Alignment := AlignLeft | AlignCenter | AlignRight.

Record CellFormatting := mkFormatting {
  fmt_id : string;
  bold : option bool;
  italic : option bool;
  strikethrough : option bool;
  alignment : option Alignment;
  backgroundColor : option string;
  textColor : option string
}.

Inductive CellType := TText | TNumber | TCurrency | TPercentage | TProduct.

Inductive CellSection := SecValues | SecYoYGrowth | SecPercentOfTotal | SecProduct.

Record CellMetadata := mkMetadata {
  cell_type : CellType;
  section : CellSection;
  formatting : option CellFormatting
}.

#[global] Instance CellPosition_eq_dec : EqDecision CellPosition.
Proof. solve_decision. Defined.

(** [a.row === b.row && a.column === b.column] *)
Definition same_cell (a b : CellPosition) : bool :=
  (row a =? row b) && (column a =? column b).

(** The object literals the sources build. *)
Definition single_of (p : CellPosition) : SelectedCells :=
  {| sel_type := TySingle; single := Some p; range := None; multiple := None |}.

Definition range_of (r : CellRange) : SelectedCells :=
  {| sel_type := TyRange; single := None; range := Some r; multiple := None |}.

Definition multiple_of (l : list CellPosition) : SelectedCells :=
  {| sel_type := TyMultiple; single := None; range := None; multiple := Some l |}.

(** Normalised bounding box of a range: [Math.min] / [Math.max] of the
    endpoints. *)
Definition minRow (r : CellRange) : Z := Z.min (row (range_start r)) (row (range_end r)).
Definition maxRow (r : CellRange) : Z := Z.max (row (range_start r)) (row (range_end r)).
Definition minCol (r : CellRange) : Z := Z.min (column (range_start r)) (column (range_end r)).
Definition maxCol (r : CellRange) : Z := Z.max (column (range_start r)) (column (range_end r)).

Definition in_box (r : CellRange) (p : CellPosition) : Prop :=
  minRow r <= row p <= maxRow r /\ minCol r <= column p <= maxCol r.

Definition width (r : CellRange) : Z := maxCol r - minCol r + 1.
Definition height (r : CellRange) : Z := maxRow r - minRow r + 1.

(** ** Selection engine (useSelection) *)

Module Selection.

Definition initial : SelectionState :=
  {| selectedCells := None; isSelecting := false;
     selectionStart := None; activeCell := None |}.

(** [{...prev, selectedCells: sc}] *)
Definition with_selected (prev : SelectionState) (sc : option SelectedCells)
  : SelectionState :=
  {| selectedCells := sc; isSelecting := isSelecting prev;
     selectionStart := selectionStart prev; activeCell := activeCell prev |}.

(** [{...prev, activeCell: a}] *)
Definition with_active (prev : SelectionState) (a : option CellPosition)
  : SelectionState :=
  {| selectedCells := selectedCells prev; isSelecting := isSelecting prev;
     selectionStart := selectionStart prev; activeCell := a |}.

Definition selectCell (position : CellPosition) (_ : SelectionState)
  : SelectionState :=
  {| selectedCells := Some (single_of position); isSelecting := false;
     selectionStart := None; activeCell := Some position |}.

Definition selectRange (start end_ : CellPosition) (_ : SelectionState)
  : SelectionState :=
  {| selectedCells := Some (range_of (mkRange start end_));
     isSelecting := false; selectionStart := None;
     activeCell := Some start |}.

(** [Array.prototype.findIndex], counting from [i]; [-1] when absent. *)
Fixpoint findIndex_from {A} (f : A -> bool) (l : list A) (i : Z) : Z :=
  match l with
  | [] => -1
  | x :: r => if f x then i else findIndex_from f r (i + 1)
  end.

Definition findIndex {A} (f : A -> bool) (l : list A) : Z :=
  findIndex_from f l 0.

(** [l.filter((_, index) => keep(index))], counting from [i]. *)
Fixpoint filter_index_from {A} (keep : Z -> bool) (l : list A) (i : Z)
  : list A :=
  match l with
  | [] => []
  | x :: r =>
      if keep i then x :: filter_index_from keep r (i + 1)
      else filter_index_from keep r (i + 1)
  end.

Definition filter_index {A} (keep : Z -> bool) (l : list A) : list A :=
  filter_index_from keep l 0.

Definition toggleCellSelection (position : CellPosition)
           (prev : SelectionState) : SelectionState :=
  match selectedCells prev with
  | None => with_selected prev (Some (single_of position))
  | Some sc =>
      match sel_type sc, single sc, multiple sc with
      | TySingle, Some s, _ =>
          if same_cell s position
          then with_selected prev None
          else with_selected prev (Some (multiple_of [s; position]))
      | TyMultiple, _, Some l =>
          let existingIndex := findIndex (fun c => same_cell c position) l in
          if negb (existingIndex =? -1) then
            let newMultiple :=
              filter_index (fun i => negb (i =? existingIndex)) l in
            match newMultiple with
            | [c] => with_selected prev (Some (single_of c))
            | [] => with_selected prev None
            | _ => with_selected prev (Some (multiple_of newMultiple))
            end
          else with_selected prev (Some (multiple_of (l ++ [position])))
      | TyRange, _, _ => with_selected prev (Some (single_of position))
      | _, _, _ => prev
      end
  end.

Definition startSelection (position : CellPosition) (prev : SelectionState)
  : SelectionState :=
  {| selectedCells := Some (single_of position); isSelecting := true;
     selectionStart := Some position; activeCell := Some position |}.

Definition updateSelection (position : CellPosition) (prev : SelectionState)
  : SelectionState :=
  match isSelecting prev, selectionStart prev with
  | true, Some start =>
      if same_cell start position then
        {| selectedCells := Some (single_of position);
           isSelecting := isSelecting prev;
           selectionStart := selectionStart prev;
           activeCell := Some position |}
      else
        {| selectedCells := Some (range_of (mkRange start position));
           isSelecting := isSelecting prev;
           selectionStart := selectionStart prev;
           activeCell := Some start |}
  | _, _ => prev
  end.

Definition endSelection (prev : SelectionState) : SelectionState :=
  {| selectedCells := selectedCells prev; isSelecting := false;
     selectionStart := None; activeCell := activeCell prev |}.

Definition clearSelection (_ : SelectionState) : SelectionState := initial.

Definition isCellSelected (s : SelectionState) (position : CellPosition)
  : bool :=
  match selectedCells s with
  | None => false
  | Some sc =>
      match sel_type sc, single sc, range sc, multiple sc with
      | TySingle, Some p, _, _ => same_cell p position
      | TyRange, _, Some r, _ =>
          same_cell (range_start r) position || same_cell (range_end r) position
      | TyMultiple, _, _, Some l => existsb (fun c => same_cell c position) l
      | _, _, _, _ => false
      end
  end.

Definition isCellInRange (s : SelectionState) (position : CellPosition)
  : bool :=
  match selectedCells s with
  | Some sc =>
      match sel_type sc, range sc with
      | TyRange, Some r =>
          (minRow r <=? row position) && (row position <=? maxRow r)
          && (minCol r <=? column position) && (column position <=? maxCol r)
      | _, _ => false
      end
  | None => false
  end.

Definition getCurrentCell (s : SelectionState) : option CellPosition :=
  match selectedCells s with
  | Some sc =>
      match sel_type sc with
      | TySingle => single sc
      | _ => activeCell s
      end
  | None => activeCell s
  end.

Definition getActiveCell (s : SelectionState) : option CellPosition :=
  activeCell s.

Inductive Direction := Next | Previous.

(** The new active cell computed by [navigateWithinRange]. *)
Definition move (direction : Direction) (r : CellRange) (a : CellPosition)
  : CellPosition :=
  match direction with
  | Next =>
      if column a <? maxCol r then mkPos (row a) (column a + 1)
      else if row a <? maxRow r then mkPos (row a + 1) (minCol r)
      else mkPos (minRow r) (minCol r)
  | Previous =>
      if minCol r <? column a then mkPos (row a) (column a - 1)
      else if minRow r <? row a then mkPos (row a - 1) (maxCol r)
      else mkPos (maxRow r) (maxCol r)
  end.

(** Returns the boolean result and the state after the call. *)
Definition navigateWithinRange (direction : Direction) (s : SelectionState)
  : bool * SelectionState :=
  match selectedCells s, activeCell s with
  | Some sc, Some a =>
      match sel_type sc, range sc with
      | TyRange, Some r => (true, with_active s (Some (move direction r a)))
      | _, _ => (false, s)
      end
  | _, _ => (false, s)
  end.

(** One operation of the engine's interface, and its effect on the state. *)
Inductive Op :=
| OpSelectCell (p : CellPosition)
| OpSelectRange (a b : CellPosition)
| OpToggleCellSelection (p : CellPosition)
| OpStartSelection (p : CellPosition)
| OpUpdateSelection (p : CellPosition)
| OpEndSelection
| OpClearSelection
| OpNavigateWithinRange (d : Direction).

Definition step (s : SelectionState) (o : Op) : SelectionState :=
  match o with
  | OpSelectCell p => selectCell p s
  | OpSelectRange a b => selectRange a b s
  | OpToggleCellSelection p => toggleCellSelection p s
  | OpStartSelection p => startSelection p s
  | OpUpdateSelection p => updateSelection p s
  | OpEndSelection => endSelection s
  | OpClearSelection => clearSelection s
  | OpNavigateWithinRange d => snd (navigateWithinRange d s)
  end.

Definition run (ops : list Op) : SelectionState := fold_left step ops initial.



Definition active_in_range (s : SelectionState) : Prop :=
  forall sc r, selectedCells s = Some sc -> sel_type sc = TyRange ->
               range sc = Some r ->
               exists a, activeCell s = Some a /\ in_box r a.


(** Position of a cell of the box in row-major order, and back. *)
Definition index_of (r : CellRange) (p : CellPosition) : Z :=
  (row p - minRow r) * width r + (column p - minCol r).

Definition cell_at (r : CellRange) (i : Z) : CellPosition :=
  mkPos (minRow r + i / width r) (minCol r + i mod width r).




End Selection.

(** ** Completions, collaborator responses and the heap of [Map] objects *)

(** What a [throw] carries: an [Error] with its message, or anything else. *)
Inductive Thrown := ErrorObject (message : string) | ThrownValue.

(** The result of evaluating a statement or of awaiting a promise: a normal
    value, or an abrupt completion (an exception, a rejected promise). *)
Inductive Completion (A : Type) := Normal (a : A) | Abrupt (t : Thrown).
Arguments Normal {A} a.
Arguments Abrupt {A} t.

(** [APIResponse]: only the status and the message are read. *)
Record APIResponse := mkResponse { status : Z; message : option string }.

(** How one call of the persistence collaborator ends. *)
Definition Outcome := Completion APIResponse.

Definition succeeded (o : Outcome) : bool :=
  match o with
  | Normal r => status r =? 200
  | Abrupt _ => false
  end.

(** A [Partial<CellFormatting>]: [Some v] is a property that is present. *)
Record PartialFormatting := mkPartial {
  p_id : option string;
  p_bold : option bool;
  p_italic : option bool;
  p_strikethrough : option bool;
  p_alignment : option Alignment;
  p_backgroundColor : option string;
  p_textColor : option string
}.

Definition empty_partial : PartialFormatting :=
  mkPartial None None None None None None None.

(** [a ?? b] on an optional property: the later spread wins when present. *)
Definition over {A} (new old : option A) : option A :=
  match new with Some v => Some v | None => old end.

(** [{...current, ...change}] *)
Definition merge_formatting (current : CellFormatting) (change : PartialFormatting)
  : CellFormatting :=
  {| fmt_id := match p_id change with Some i => i | None => fmt_id current end;
     bold := over (p_bold change) (bold current);
     italic := over (p_italic change) (italic current);
     strikethrough := over (p_strikethrough change) (strikethrough current);
     alignment := over (p_alignment change) (alignment current);
     backgroundColor := over (p_backgroundColor change) (backgroundColor current);
     textColor := over (p_textColor change) (textColor current) |}.

(** [{...currentMetadata, formatting}] *)
Definition with_formatting (m : CellMetadata) (f : CellFormatting) : CellMetadata :=
  {| cell_type := cell_type m; section := section m; formatting := Some f |}.

Record CellUpdate := mkUpdate {
  cu_position : CellPosition;
  cu_formatting : PartialFormatting
}.

(** A [Map<string, CellMetadata>] object is named by its location in the
    heap; [new Map(m)] allocates a copy, [m.set] updates in place. *)
Definition loc := nat.
Abbreviation MetadataMap := (gmap string CellMetadata).
Abbreviation Heap := (list (gmap string CellMetadata)).

Definition heap_alloc (h : Heap) (m : MetadataMap) : Heap * loc :=
  (h ++ [m], length h).

Definition heap_get (h : Heap) (l : loc) : MetadataMap :=
  match h !! l with Some m => m | None => ∅ end.

Definition heap_map_set (h : Heap) (l : loc) (k : string) (v : CellMetadata)
  : Heap :=
  <[l := <[k := v]> (heap_get h l)]> h.

(** ** Formatting utilities (utils/formatting.ts) *)

Module Formatting.

Definition REPORT_ID : string := "report1000".

(** A grid coordinate printed by a template literal. *)
Definition coord_to_string (z : Z) : string := pretty z.

Definition generateCellKey (reportId : string) (row column : Z) : string :=
  reportId +:+ ":" +:+ coord_to_string row +:+ ":" +:+ coord_to_string column.

(** [for (let i = lo; i <= hi; i++) body], on a state [S]; [n] bounds the
    number of iterations. *)
Fixpoint for_loop {S} (n : nat) (i : Z) (body : Z -> S -> S) (s : S) : S :=
  match n with
  | O => s
  | Datatypes.S n' => for_loop n' (i + 1) body (body i s)
  end.

Definition for_range {S} (lo hi : Z) (body : Z -> S -> S) (s : S) : S :=
  for_loop (Z.to_nat (hi + 1 - lo)) lo body s.

(** [n] consecutive integers from [lo]: the values a counting loop takes. *)
Fixpoint zseq (lo : Z) (n : nat) : list Z :=
  match n with
  | O => []
  | Datatypes.S n' => lo :: zseq (lo + 1) n'
  end.

(** The cells of a box, row after row. *)
Definition box_cells (r : CellRange) : list CellPosition :=
  flat_map (fun row_ => map (mkPos row_) (zseq (minCol r) (Z.to_nat (width r))))
           (zseq (minRow r) (Z.to_nat (height r))).

Definition getSelectedCells (s : SelectionState) : list CellPosition :=
  match selectedCells s with
  | None => []
  | Some sc =>
      match sel_type sc with
      | TySingle =>
          match single sc with Some p => [p] | None => [] end
      | TyRange =>
          match range sc with
          | None => []
          | Some r =>
              for_range (minRow r) (maxRow r)
                (fun row cells =>
                   for_range (minCol r) (maxCol r)
                     (fun col cells => cells ++ [mkPos row col]) cells)
                []
          end
      | TyMultiple =>
          match multiple sc with Some l => l | None => [] end
      end
  end.

Inductive FormattingType := Bold | Italic | Strikethrough.

(** [formatting[formattingType]] *)
Definition get_attribute (t : FormattingType) (f : CellFormatting) : option bool :=
  match t with
  | Bold => bold f
  | Italic => italic f
  | Strikethrough => strikethrough f
  end.

(** [{[formattingType]: v}] *)
Definition attribute_change (t : FormattingType) (v : bool) : PartialFormatting :=
  match t with
  | Bold => mkPartial None (Some v) None None None None None
  | Italic => mkPartial None None (Some v) None None None None
  | Strikethrough => mkPartial None None None (Some v) None None None
  end.

(** [currentMetadata?.formatting?.[formattingType] || false] *)
Definition currentValue (t : FormattingType) (cellMetadata : MetadataMap)
           (cell : CellPosition) : bool :=
  let cellKey := generateCellKey REPORT_ID (row cell) (column cell) in
  match cellMetadata !! cellKey with
  | Some currentMetadata =>
      match formatting currentMetadata with
      | Some f => match get_attribute t f with Some b => b | None => false end
      | None => false
      end
  | None => false
  end.

(** What the command hands to the synchronisation layer: one batch, or one
    single-cell request per selected cell. *)
Inductive Request :=
| Batch (cellUpdates : list CellUpdate)
| Individually (calls : list CellUpdate).

Definition toggle_update (t : FormattingType) (cellMetadata : MetadataMap)
           (cell : CellPosition) : CellUpdate :=
  mkUpdate cell (attribute_change t (negb (currentValue t cellMetadata cell))).

(** [have_batch] tells whether [updateMultipleCellsFormatting] was passed. *)
Definition applyFormattingToSelection (s : SelectionState) (t : FormattingType)
           (cellMetadata : MetadataMap) (have_batch : bool) : Request :=
  let selected := getSelectedCells s in
  if have_batch
  then Batch (map (toggle_update t cellMetadata) selected)
  else Individually (map (toggle_update t cellMetadata) selected).

Definition alignment_update (a : Alignment) (cell : CellPosition) : CellUpdate :=
  mkUpdate cell (mkPartial None None None None (Some a) None None).

Definition applyAlignmentToSelection (s : SelectionState) (a : Alignment)
           (have_batch : bool) : Request :=
  let selected := getSelectedCells s in
  if have_batch
  then Batch (map (alignment_update a) selected)
  else Individually (map (alignment_update a) selected).

(** [getMetadataForCell]; [id] is the value [generateFormattingId] mints for
    this call. *)
Definition getMetadataForCell (id : string) (column section_name : string)
           (isTotal : bool) : CellMetadata :=
  let fmt (b : option bool) :=
    {| fmt_id := id; bold := b; italic := None; strikethrough := None;
       alignment := Some AlignLeft; backgroundColor := None;
       textColor := None |} in
  if String.eqb column "product" then
    mkMetadata TProduct SecProduct (Some (fmt (Some isTotal)))
  else if String.eqb section_name "Values" then
    mkMetadata TCurrency SecValues (Some (fmt (Some isTotal)))
  else if String.eqb section_name "YoY Growth" then
    mkMetadata TPercentage SecYoYGrowth (Some (fmt (Some isTotal)))
  else if String.eqb section_name "Percent of Total" then
    mkMetadata TPercentage SecPercentOfTotal (Some (fmt (Some isTotal)))
  else
    mkMetadata TText SecValues (Some (fmt None)).

(** The resolver as section 4.5 of the specification words it, to compare
    with [getMetadataForCell]: the section name is searched for key words,
    in any letter case, and a total row is always bold. *)
Definition mentions (section_name : string) (words : list string) : bool :=
  existsb (Js.includes section_name) words.

Definition resolver_as_specified (column section_name : string)
  : CellType * CellSection :=
  let name := Js.toLowerCase section_name in
  if String.eqb column "product" then (TProduct, SecProduct)
  else if mentions name ["value"; "revenue"; "amount"]
  then (TCurrency, SecValues)
  else if mentions name ["growth"; "yoy"]
  then (TPercentage, SecYoYGrowth)
  else if mentions name ["percent"; "pct"]
  then (TPercentage, SecPercentOfTotal)
  else (TText, SecValues).

(** [metadata.formatting?.bold] and [metadata.formatting?.alignment] *)
Definition bold_of (m : CellMetadata) : option bool :=
  match formatting m with Some f => bold f | None => None end.

Definition alignment_of (m : CellMetadata) : option Alignment :=
  match formatting m with Some f => alignment f | None => None end.

End Formatting.

(** ** Grid model (useReportData/utils.ts) and the state of the hooks *)

Inductive SectionKind := KProduct | KCurrency | KPercentage | KGrowth | KOther.

Record ColumnMetadata := mkColumn {
  col_id : string;
  col_name : string;
  originalKey : string;
  originalSection : string;
  col_section : string;
  col_kind : SectionKind
}.

Record SectionMetadata := mkSection {
  sec_name : string;
  sec_columns : list ColumnMetadata;
  sec_kind : SectionKind
}.

(** A raw cell value, [string | number]. *)
Inductive Value := VStr (s : string) | VNum (n : Js.number).

(** A [FlattenedRow]: column id to raw value. *)
Abbreviation FlattenedRow := (gmap string Value).

(** [AdapterOutput].  An element of [rows] that is [None] is a hole of the
    array (it reads as [undefined]). *)
Record AdapterOutput := mkData {
  rows : list (option (gmap string Value));
  sections : list SectionMetadata;
  columnOrder : list string;
  columnMapping : gmap string ColumnMetadata;
  cellMetadata : loc
}.

(** [arr[i]] for an integer [i]; a negative index names no element. *)
Definition array_get {A} (l : list (option A)) (i : Z) : option A :=
  if i <? 0 then None
  else match l !! Z.to_nat i with Some x => x | None => None end.

(** [arr[i] = x] for an integer [i]: replaces the element, or extends the
    array, leaving holes, when [i] is past its end.  A negative index is
    not an element and leaves the elements as they are. *)
Definition array_set {A} (l : list (option A)) (i : Z) (x : A)
  : list (option A) :=
  if i <? 0 then l
  else
    let n := Z.to_nat i in
    if (n <? length l)%nat then <[n := Some x]> l
    else l ++ replicate (n - length l)%nat None ++ [Some x].

(** [columnOrder[i]] *)
Definition column_at (l : list string) (i : Z) : option string :=
  if i <? 0 then None else l !! Z.to_nat i.

(** A property key: [undefined] used as a key is the string "undefined". *)
Definition prop_key (k : option string) : string :=
  match k with Some s => s | None => "undefined" end.

(** State of [useEditData]. *)
Record EditState := mkEdit {
  editingCell : option CellPosition;
  editValue : string;
  isEditValid : bool;
  editError : option string;
  isSaving : bool
}.

(** Everything the grid holds between two events: the [Map] objects, the
    [data] state of [useReportData], and the states of [useSelection] and
    [useEditData]. *)
Record World := mkWorld {
  heap : Heap;
  data : AdapterOutput;
  selection : SelectionState;
  edit : EditState
}.

Definition set_heap (h : Heap) (w : World) : World :=
  mkWorld h (data w) (selection w) (edit w).
Definition setData (d : AdapterOutput) (w : World) : World :=
  mkWorld (heap w) d (selection w) (edit w).
Definition set_selection (s : SelectionState) (w : World) : World :=
  mkWorld (heap w) (data w) s (edit w).
Definition set_edit (e : EditState) (w : World) : World :=
  mkWorld (heap w) (data w) (selection w) e.

(** The contents of the map [data.cellMetadata] refers to. *)
Definition metadata_of (w : World) : MetadataMap :=
  heap_get (heap w) (cellMetadata (data w)).

(** [{...d, cellMetadata: l}] *)
Definition with_cellMetadata (d : AdapterOutput) (l : loc) : AdapterOutput :=
  mkData (rows d) (sections d) (columnOrder d) (columnMapping d) l.

(** [{...d, rows: r}] *)
Definition with_rows (d : AdapterOutput) (r : list (option (gmap string Value)))
  : AdapterOutput :=
  mkData r (sections d) (columnOrder d) (columnMapping d) (cellMetadata d).

(** ** Synchronisation layer (useReportData) *)

Module ReportData.

Import Formatting.

(** One turn of the loop of [updateMultipleCellsFormatting] over the live
    map at [m]: the heap and the [cellUpdatesMap] built so far. *)
Definition batch_step (reportId : string) (m : loc)
           (st : Heap * gmap string CellFormatting) (u : CellUpdate)
  : Heap * gmap string CellFormatting :=
  let '(h, cellUpdatesMap) := st in
  let position := cu_position u in
  let cellKey := generateCellKey reportId (row position) (column position) in
  match heap_get h m !! cellKey with
  | Some currentMetadata =>
      match formatting currentMetadata with
      | Some f =>
          let updatedFormatting := merge_formatting f (cu_formatting u) in
          let updatedMetadata := with_formatting currentMetadata updatedFormatting in
          (heap_map_set h m cellKey updatedMetadata,
           <[cellKey := updatedFormatting]> cellUpdatesMap)
      | None => st
      end
  | None => st
  end.

(** The part of [updateMultipleCellsFormatting] that runs before the
    collaborator is awaited: the snapshot [new Map(data.cellMetadata)], the
    in-place updates of [data.cellMetadata] (which [newData] shares) and
    [setData(newData)].  Returns the state, the snapshot and the request. *)
Definition optimistic (reportId : string) (cellUpdates : list CellUpdate)
           (w : World) : World * loc * gmap string CellFormatting :=
  let originalData := data w in
  let '(h0, originalCellMetadata) := heap_alloc (heap w) (metadata_of w) in
  let newData := data w in
  let '(h1, cellUpdatesMap) :=
    fold_left (batch_step reportId (cellMetadata (data w))) cellUpdates (h0, ∅) in
  (setData newData (set_heap h1 w), originalCellMetadata, cellUpdatesMap).

(** The part after the await: roll back unless the call returned 200. *)
Definition settle (originalData : AdapterOutput) (originalCellMetadata : loc)
           (outcome : Outcome) (w : World) : World :=
  match outcome with
  | Normal response =>
      if negb (status response =? 200)
      then setData (with_cellMetadata originalData originalCellMetadata) w
      else w
  | Abrupt _ =>
      setData (with_cellMetadata originalData originalCellMetadata) w
  end.

Definition updateMultipleCellsFormatting (reportId : string)
           (cellUpdates : list CellUpdate) (outcome : Outcome) (w : World)
  : World :=
  match cellUpdates with
  | [] => w
  | _ =>
      let '(w1, originalCellMetadata, _) := optimistic reportId cellUpdates w in
      settle (data w) originalCellMetadata outcome w1
  end.

(** [updateCellFormatting] up to its await: the key and the values it will
    write, or nothing when the cell has no formatting metadata. *)
Definition single_request (reportId : string) (w : World) (u : CellUpdate)
  : option (string * CellMetadata) :=
  let position := cu_position u in
  let cellKey := generateCellKey reportId (row position) (column position) in
  match metadata_of w !! cellKey with
  | Some currentMetadata =>
      match formatting currentMetadata with
      | Some f =>
          Some (cellKey,
                with_formatting currentMetadata
                                (merge_formatting f (cu_formatting u)))
      | None => None
      end
  | None => None
  end.

(** [updateCellFormatting] after its await: the local map is written only
    on a 200 response. *)
Definition single_settle (closure_data : AdapterOutput)
           (pending : option (string * CellMetadata))
           (outcome : Outcome) (w : World) : World :=
  match pending with
  | Some (cellKey, updatedMetadata) =>
      if succeeded outcome
      then
        let newData := closure_data in
        setData newData
                (set_heap (heap_map_set (heap w) (cellMetadata newData)
                                        cellKey updatedMetadata) w)
      else w
  | None => w
  end.

Definition updateCellFormatting (reportId : string) (u : CellUpdate)
           (outcome : Outcome) (w : World) : World :=
  single_settle (data w) (single_request reportId w u) outcome w.

(** Several [updateCellFormatting] calls issued in one turn of the event
    loop: every call reads the maps as they are now, then the calls settle
    in order, the [i]-th according to [backend i]. *)
Fixpoint settle_all (closure_data : AdapterOutput)
         (pending : list (option (string * CellMetadata)))
         (backend : nat -> Outcome) (i : nat) (w : World) : World :=
  match pending with
  | [] => w
  | p :: rest =>
      settle_all closure_data rest backend (Datatypes.S i)
                 (single_settle closure_data p (backend i) w)
  end.

(** Carries out what a formatting command asked for. *)
Definition perform (reportId : string) (r : Request) (backend : nat -> Outcome)
           (w : World) : World :=
  match r with
  | Batch cellUpdates =>
      updateMultipleCellsFormatting reportId cellUpdates (backend O) w
  | Individually calls =>
      settle_all (data w) (map (single_request reportId w) calls) backend O w
  end.

(** The effect of one turn of the batch loop on the contents of the live
    map. *)
Definition apply_update (reportId : string) (m : MetadataMap) (u : CellUpdate)
  : MetadataMap :=
  let position := cu_position u in
  let cellKey := generateCellKey reportId (row position) (column position) in
  match m !! cellKey with
  | Some currentMetadata =>
      match formatting currentMetadata with
      | Some f =>
          <[cellKey := with_formatting currentMetadata
                         (merge_formatting f (cu_formatting u))]> m
      | None => m
      end
  | None => m
  end.

(** [data.cellMetadata] refers to a map that exists. *)
Definition map_allocated (w : World) : Prop :=
  (cellMetadata (data w) < length (heap w))%nat.

(** The effect on the contents of the live map of one single-cell request
    that was answered with 200. *)
Definition apply_pending (m : MetadataMap) (p : option (string * CellMetadata))
  : MetadataMap :=
  match p with
  | Some (cellKey, updatedMetadata) => <[cellKey := updatedMetadata]> m
  | None => m
  end.

(** The toggle command: with the batch writer as the router issues it
    (Ctrl/Cmd+B, Ctrl/Cmd+I, Ctrl/Cmd+Shift+S), without it as the toolbar
    does. *)
Definition toggle_command (t : FormattingType) (have_batch : bool)
           (backend : nat -> Outcome) (w : World) : World :=
  perform REPORT_ID
          (applyFormattingToSelection (selection w) t (metadata_of w) have_batch)
          backend w.

(** The attribute as stored for a cell, if the cell has formatting. *)
Definition stored_attribute (t : FormattingType) (m : MetadataMap)
           (cell : CellPosition) : option bool :=
  match m !! generateCellKey REPORT_ID (row cell) (column cell) with
  | Some cm =>
      match formatting cm with
      | Some f => get_attribute t f
      | None => None
      end
  | None => None
  end.

Definition key_of (cell : CellPosition) : string :=
  generateCellKey REPORT_ID (row cell) (column cell).

(** The entry of a key once the attribute of its cell has been flipped:
    the attribute becomes the negation of what the command read. *)
Definition flipped_entry (t : FormattingType) (m : MetadataMap) (k : string)
  : option CellMetadata :=
  match m !! k with
  | Some cm =>
      match formatting cm with
      | Some f =>
          let read := match get_attribute t f with Some b => b | None => false end in
          Some (with_formatting cm
                  (merge_formatting f (attribute_change t (negb read))))
      | None => Some cm
      end
  | None => None
  end.

(** The cell has formatting metadata: the commands can change it. *)
Definition has_formatting (m : MetadataMap) (cell : CellPosition) : Prop :=
  exists cm f,
    m !! generateCellKey REPORT_ID (row cell) (column cell) = Some cm /\
    formatting cm = Some f.

End ReportData.

(** ** Edit session (useEditData) *)

Module EditData.

(** The object [getCellMetadata] builds: the fields of a [CellMetadata]
    that it fills in, with the extra ones it adds. *)
Record EditMetadata := mkEditMetadata {
  md_type : CellType;
  md_editable : bool;
  md_section : CellSection;
  md_alignment : Alignment;
  md_required : bool
}.

Definition is_numeric (t : CellType) : bool :=
  match t with
  | TNumber | TCurrency | TPercentage => true
  | TProduct | TText => false
  end.

Definition validateValue (value : string) (metadata : EditMetadata) : bool :=
  if String.eqb (Js.trim value) "" then true
  else
    match md_type metadata with
    | TNumber | TCurrency | TPercentage => negb (Js.isNaN (Js.parseFloat value))
    | TProduct | TText => true
    end.

Definition convertValue (value : string) (metadata : EditMetadata) : Value :=
  match md_type metadata with
  | TNumber | TCurrency | TPercentage =>
      let numValue := Js.parseFloat value in
      if Js.isNaN numValue then VStr value else VNum numValue
  | TProduct | TText => VStr value
  end.

Definition mapSectionName (name : string) : CellSection :=
  if String.eqb name "Product" then SecProduct
  else if Js.includes name "Growth" || Js.includes name "YoY" then SecYoYGrowth
  else if Js.includes name "Percent" || Js.includes name "percent" then SecPercentOfTotal
  else SecValues.

Section Host.

(** [String(x)] for a number [x], as the host prints it. *)
Variable number_toString : Js.number -> string.

(** [String(v)] for an optional raw value. *)
Definition String_of (v : option Value) : string :=
  match v with
  | Some (VStr s) => s
  | Some (VNum n) => number_toString n
  | None => "undefined"
  end.

Definition getCellMetadata (position : CellPosition) (columnKey : option string)
           (d : AdapterOutput) : EditMetadata :=
  let row_ := array_get (rows d) (row position) in
  let isTotal :=
    match row_ with
    | Some r => String.eqb (Js.toLowerCase (String_of (r !! "product"))) "total"
    | None => false
    end in
  let found :=
    List.find
      (fun s => existsb (fun col =>
                           match columnKey with
                           | Some k => String.eqb (col_id col) k
                           | None => false
                           end) (sec_columns s))
      (sections d) in
  let sectionName :=
    match found with
    | Some s => if String.eqb (sec_name s) "" then "Unknown" else sec_name s
    | None => "Unknown"
    end in
  let is_product :=
    match columnKey with Some k => String.eqb k "product" | None => false end in
  {| md_type := if Js.includes sectionName "Growth" then TPercentage
                else if Js.includes sectionName "Value" then TCurrency
                else TText;
     md_editable := negb isTotal && negb is_product;
     md_section := mapSectionName sectionName;
     md_alignment := if is_product then AlignLeft else AlignRight;
     md_required := false |}.

Record CellDataView := mkCellData {
  rawValue : Value;
  metadata : EditMetadata;
  columnKey : option string;
  internalColumnId : option string
}.

Definition getCellData (d : AdapterOutput) (position : CellPosition)
  : CellDataView :=
  let row_ := array_get (rows d) (row position) in
  let internalColumnId := column_at (columnOrder d) (column position) in
  let rawValue :=
    match row_ with
    | Some r => match r !! prop_key internalColumnId with
                | Some v => v
                | None => VStr ""
                end
    | None => VStr ""
    end in
  let columnMetadata :=
    match internalColumnId with
    | Some k => columnMapping d !! k
    | None => None
    end in
  let originalKey :=
    match columnMetadata with
    | Some cm => if String.eqb (originalKey cm) "" then internalColumnId
                 else Some (originalKey cm)
    | None => internalColumnId
    end in
  {| rawValue := rawValue;
     metadata := getCellMetadata position internalColumnId d;
     columnKey := originalKey;
     internalColumnId := internalColumnId |}.

Definition startEdit (position : CellPosition) (w : World) : World :=
  let rawValue := rawValue (getCellData (data w) position) in
  set_edit {| editingCell := Some position;
              editValue := String_of (Some rawValue);
              isEditValid := true;
              editError := None;
              isSaving := isSaving (edit w) |} w.

Definition cancelEdit (w : World) : World :=
  set_edit {| editingCell := None; editValue := "";
              isEditValid := true; editError := None;
              isSaving := isSaving (edit w) |} w.

Definition updateEditValue (value : string) (w : World) : World :=
  let e := edit w in
  match editingCell e with
  | Some cell =>
      let valid := validateValue value (metadata (getCellData (data w) cell)) in
      set_edit {| editingCell := editingCell e;
                  editValue := value;
                  isEditValid := valid;
                  editError := if valid then None else editError e;
                  isSaving := isSaving e |} w
  | None =>
      set_edit {| editingCell := editingCell e; editValue := value;
                  isEditValid := isEditValid e; editError := editError e;
                  isSaving := isSaving e |} w
  end.

Definition isCellEditing (w : World) (position : CellPosition) : bool :=
  match editingCell (edit w) with
  | Some c => same_cell c position
  | None => false
  end.

(** *** [saveEdit]: a computation on the world that may complete abruptly *)

Definition M (A : Type) : Type := World -> World * Completion A.

Definition ret {A} (a : A) : M A := fun w => (w, Normal a).

Definition bind {A B} (m : M A) (k : A -> M B) : M B :=
  fun w => match m w with
           | (w', Normal a) => k a w'
           | (w', Abrupt t) => (w', Abrupt t)
           end.

Definition throw {A} (t : Thrown) : M A := fun w => (w, Abrupt t).

#[local] Notation "x <- m ;; k" := (bind m (fun x => k))
  (at level 100, m at next level, right associativity).
#[local] Notation "m ;;; k" := (bind m (fun _ => k))
  (at level 100, right associativity).

(** A state update that cannot fail. *)
Definition modify (f : World -> World) : M unit := fun w => (f w, Normal tt).

(** [await p] for a promise that ends as [o]. *)
Definition await (o : Outcome) : M APIResponse := fun w => (w, o).

(** [try body catch (err) handler finally fin] *)
Definition try_catch_finally {A} (body : M A) (handler : Thrown -> M A)
           (fin : M unit) : M A :=
  fun w =>
    let '(w1, c1) :=
      match body w with
      | (w', Abrupt t) => handler t w'
      | r => r
      end in
    match fin w1 with
    | (w2, Normal _) => (w2, c1)
    | (w2, Abrupt t) => (w2, Abrupt t)
    end.

Definition setEditingCell (c : option CellPosition) (w : World) : World :=
  let e := edit w in
  set_edit (mkEdit c (editValue e) (isEditValid e) (editError e) (isSaving e)) w.
Definition setEditValue (v : string) (w : World) : World :=
  let e := edit w in
  set_edit (mkEdit (editingCell e) v (isEditValid e) (editError e) (isSaving e)) w.
Definition setEditError (r : option string) (w : World) : World :=
  let e := edit w in
  set_edit (mkEdit (editingCell e) (editValue e) (isEditValid e) r (isSaving e)) w.
Definition setIsSaving (b : bool) (w : World) : World :=
  let e := edit w in
  set_edit (mkEdit (editingCell e) (editValue e) (isEditValid e) (editError e) b) w.

(** The rows after the optimistic write of [convertedValue]. *)
Definition optimistic_rows (d : AdapterOutput) (cell : CellPosition)
           (internalColumnId : option string) (convertedValue : Value)
  : list (option (gmap string Value)) :=
  let newRows := rows d in
  let targetRow : gmap string Value :=
    match array_get newRows (row cell) with Some r => r | None => ∅ end in
  let is_product :=
    match internalColumnId with Some k => String.eqb k "product" | None => false end in
  let targetRow :=
    if is_product then <["product" := convertedValue]> targetRow
    else <[prop_key internalColumnId := convertedValue]> targetRow in
  array_set newRows (row cell) targetRow.

(** [x || fallback] for an optional string. *)
Definition or_else (x : option string) (fallback : string) : string :=
  match x with
  | Some s => if String.eqb s "" then fallback else s
  | None => fallback
  end.

(** [saveEdit]; [outcome] is how [updateReportById] ends for the document
    built from the optimistic data. *)
Definition saveEdit (outcome : Outcome) : M unit :=
  fun w =>
    match editingCell (edit w), isEditValid (edit w) with
    | Some cell, true =>
        let d := data w in
        let cd := getCellData d cell in
        let convertedValue := convertValue (editValue (edit w)) (metadata cd) in
        let backupData := with_rows d (rows d) in
        let newData :=
          with_rows d (optimistic_rows d cell (internalColumnId cd)
                                       convertedValue) in
        try_catch_finally
          (modify (setIsSaving true) ;;;
           modify (setEditError None) ;;;
           modify (setData newData) ;;;
           response <- await outcome ;;
           if negb (status response =? 200)
           then throw (ErrorObject (or_else (message response)
                                            "Failed to update report"))
           else
             modify (setEditingCell None) ;;;
             modify (setEditValue ""))
          (fun err =>
             let errorMessage :=
               match err with
               | ErrorObject m => m
               | ThrownValue => "Failed to save cell"
               end in
             modify (setEditError (Some errorMessage)) ;;;
             modify (setData backupData))
          (modify (setIsSaving false))
          w
    | _, _ => ret tt w
    end.

(** The message [saveEdit] shows when the write did not succeed. *)
Definition failure_reason (outcome : Outcome) : string :=
  match outcome with
  | Normal response => or_else (message response) "Failed to update report"
  | Abrupt (ErrorObject m) => m
  | Abrupt ThrownValue => "Failed to save cell"
  end.


(** The declared type [getCellData] finds for [cell]. *)
Definition declared_type (d : AdapterOutput) (cell : CellPosition) : CellType :=
  md_type (metadata (getCellData d cell)).

End Host.

(** The type the grid model records for [cell] in its metadata map. *)
Definition recorded_type (w : World) (cell : CellPosition) : option CellType :=
  match metadata_of w !! Formatting.generateCellKey Formatting.REPORT_ID
                           (row cell) (column cell) with
  | Some cm => Some (cell_type cm)
  | None => None
  end.

(** "[v] parses to a finite number", in the words of the specification. *)
Definition parses_to_finite_number (v : string) : Prop :=
  Js.isFinite (Js.parseFloat v) = true.

(** [v] is blank: empty once trimmed. *)
Definition blank (v : string) : Prop := Js.trim v = "".

End EditData.

(** ** Keyboard router (useKeyboardEvents) *)

Module Keyboard.

Import Formatting.

Record KeyboardEvent := mkKey {
  key : string;
  ctrlKey : bool;
  metaKey : bool;
  shiftKey : bool
}.

Section Router.

Variable number_toString : Js.number -> string.

(** The identifier [useReportData] was created with, and whether the batch
    writer was handed to the router. *)
Variable reportId : string.
Variable have_batch : bool.

Variables totalRows totalColumns : Z.

(** How the collaborator answers the calls this event issues, in order. *)
Variable backend : nat -> Outcome.

Definition selectCell (p : CellPosition) (w : World) : World :=
  set_selection (Selection.selectCell p (selection w)) w.

(** The column move shared by Tab in both modes: one column to the left
    with Shift, to the right without, not past the first or last column. *)
Definition column_move (shift : bool) (currentCell : CellPosition) (w : World)
  : World :=
  if shift then
    if 0 <? column currentCell
    then selectCell (mkPos (row currentCell) (column currentCell - 1)) w
    else w
  else
    if column currentCell <? totalColumns - 1
    then selectCell (mkPos (row currentCell) (column currentCell + 1)) w
    else w.

(** Keys handled while an edit session is open. *)
Definition edit_mode (e : KeyboardEvent) (currentCell : CellPosition)
           (w : World) : World * bool :=
  if String.eqb (key e) "Enter" then
    if isEditValid (edit w)
    then (fst (EditData.saveEdit number_toString (backend O) w), true)
    else (w, true)
  else if String.eqb (key e) "Escape" then
    (EditData.cancelEdit w, true)
  else if String.eqb (key e) "Tab" then
    if isEditValid (edit w) then
      match EditData.saveEdit number_toString (backend O) w with
      | (w', Normal _) => (column_move (shiftKey e) currentCell w', true)
      | (w', Abrupt _) => (w', true)
      end
    else (w, true)
  else (w, false).

(** Formatting and alignment shortcuts; [None] when the event is not one. *)
Definition shortcut (e : KeyboardEvent) (w : World) : option World :=
  let k := Js.toLowerCase (key e) in
  let run r := ReportData.perform reportId r backend w in
  if (ctrlKey e || metaKey e) && (String.eqb k "b" || String.eqb k "i") then
    if String.eqb k "b"
    then Some (run (applyFormattingToSelection (selection w) Bold
                                               (metadata_of w) have_batch))
    else Some (run (applyFormattingToSelection (selection w) Italic
                                               (metadata_of w) have_batch))
  else if (ctrlKey e || metaKey e) && shiftKey e && String.eqb k "s" then
    Some (run (applyFormattingToSelection (selection w) Strikethrough
                                          (metadata_of w) have_batch))
  else if (ctrlKey e || metaKey e) && shiftKey e
          && (String.eqb k "l" || String.eqb k "e" || String.eqb k "r") then
    if String.eqb k "l"
    then Some (run (applyAlignmentToSelection (selection w) AlignLeft have_batch))
    else if String.eqb k "e"
    then Some (run (applyAlignmentToSelection (selection w) AlignCenter have_batch))
    else Some (run (applyAlignmentToSelection (selection w) AlignRight have_batch))
  else None.

(** Plain navigation keys. *)
Definition navigation (e : KeyboardEvent) (currentCell : CellPosition)
           (w : World) : World * bool :=
  if String.eqb (key e) "Escape" then
    (set_selection (Selection.clearSelection (selection w)) w, true)
  else if String.eqb (key e) "Tab" then
    let '(didNavigateWithinRange, s') :=
      Selection.navigateWithinRange
        (if shiftKey e then Selection.Previous else Selection.Next)
        (selection w) in
    if didNavigateWithinRange then (set_selection s' w, true)
    else (column_move (shiftKey e) currentCell w, true)
  else if String.eqb (key e) "Enter" || String.eqb (key e) "F2" then
    match Selection.getActiveCell (selection w) with
    | Some activeCell => (EditData.startEdit number_toString activeCell w, true)
    | None => (w, true)
    end
  else if String.eqb (key e) "ArrowLeft" then
    if 0 <? column currentCell
    then (selectCell (mkPos (row currentCell) (column currentCell - 1)) w, true)
    else (w, true)
  else if String.eqb (key e) "ArrowRight" then
    if column currentCell <? totalColumns - 1
    then (selectCell (mkPos (row currentCell) (column currentCell + 1)) w, true)
    else (w, true)
  else if String.eqb (key e) "ArrowUp" then
    if 0 <? row currentCell
    then (selectCell (mkPos (row currentCell - 1) (column currentCell)) w, true)
    else (w, true)
  else if String.eqb (key e) "ArrowDown" then
    if row currentCell <? totalRows - 1
    then (selectCell (mkPos (row currentCell + 1) (column currentCell)) w, true)
    else (w, true)
  else (w, false).

(** [handleKeyDown]: the world after the event has been handled and the
    promises it started have settled, and whether [preventDefault] was
    called. *)
Definition handleKeyDown (e : KeyboardEvent) (w : World) : World * bool :=
  match Selection.getCurrentCell (selection w) with
  | None => (w, false)
  | Some currentCell =>
      let isEditing :=
        match editingCell (edit w) with Some _ => true | None => false end in
      if isEditing then edit_mode e currentCell w
      else
        match shortcut e w with
        | Some w' => (w', true)
        | None => navigation e currentCell w
        end
  end.

End Router.

(** The router as [Grid] wires it: [useReportData(REPORT_ID)], the batch
    writer passed, and the dimensions read from the data. *)
Definition grid_handleKeyDown (number_toString : Js.number -> string)
           (backend : nat -> Outcome) (e : KeyboardEvent) (w : World)
  : World * bool :=
  handleKeyDown number_toString REPORT_ID true
                (Z.of_nat (length (rows (data w))))
                (Z.of_nat (length (columnOrder (data w))))
                backend e w.

End Keyboard.

(** ** A small report used in the examples *)

Module Sample.

Definition product_column : ColumnMetadata :=
  mkColumn "product" "Product" "product" "Values" "Product" KProduct.

Definition values_2020 : ColumnMetadata :=
  mkColumn "values_2020" "2020" "2020" "Values" "Values" KCurrency.

Definition percent_2020 : ColumnMetadata :=
  mkColumn "percent_of_2020" "2020" "2020" "Percent of Total"
           "Percent of Total" KPercentage.

Definition notes_column : ColumnMetadata :=
  mkColumn "notes_text" "Text" "text" "Notes" "Notes" KOther.

Definition report : AdapterOutput :=
  {| rows := [Some {[ "product" := VStr "Widget";
                      "values_2020" := VNum (Js.of_Z 1500);
                      "percent_of_2020" := VNum (Js.of_Z 100);
                      "notes_text" := VStr "n/a" ]};
              Some {[ "product" := VStr "Total";
                      "values_2020" := VNum (Js.of_Z 1500);
                      "percent_of_2020" := VNum (Js.of_Z 100);
                      "notes_text" := VStr "" ]}];
     sections := [mkSection "Product" [product_column] KProduct;
                  mkSection "Values" [values_2020] KCurrency;
                  mkSection "Percent of Total" [percent_2020] KPercentage;
                  mkSection "Notes" [notes_column] KOther];
     columnOrder := ["product"; "values_2020"; "percent_of_2020"; "notes_text"];
     columnMapping := {[ "product" := product_column;
                         "values_2020" := values_2020;
                         "percent_of_2020" := percent_2020;
                         "notes_text" := notes_column ]};
     cellMetadata := 0%nat |}.

Definition plain (id : string) (b i : option bool) : CellFormatting :=
  {| fmt_id := id; bold := b; italic := i; strikethrough := None;
     alignment := Some AlignLeft; backgroundColor := None; textColor := None |}.

(** Cells with formatting metadata: one bold, one not, one whose [bold]
    was never set, a percentage cell; and one cell without formatting. *)
Definition cells : MetadataMap :=
  {[ "report1000:0:2" :=
       mkMetadata TPercentage SecPercentOfTotal
                  (Some (plain "report1000:0:2" (Some false) None));
     "report1000:0:0" :=
       mkMetadata TProduct SecProduct (Some (plain "report1000:0:0" (Some true) None));
     "report1000:0:1" :=
       mkMetadata TCurrency SecValues (Some (plain "report1000:0:1" (Some false) None));
     "report1000:1:0" :=
       mkMetadata TProduct SecProduct (Some (plain "report1000:1:0" None None));
     "report1000:1:1" := mkMetadata TCurrency SecValues None ]}.

Definition idle : EditState :=
  {| editingCell := None; editValue := ""; isEditValid := true;
     editError := None; isSaving := false |}.

Definition world : World :=
  {| heap := [cells]; data := report; selection := Selection.initial;
     edit := idle |}.

(** A host printer for the numbers of the examples: whole numbers in
    decimal, the rest is not needed there. *)
Definition print_whole (x : Js.number) : string :=
  match x with
  | S754_zero _ => "0"
  | S754_infinity s => if s then "-Infinity" else "Infinity"
  | S754_nan => "NaN"
  | S754_finite s m e =>
      let v := if 0 <=? e then Zpos m * 2 ^ e else Zpos m / 2 ^ (- e) in
      pretty (if s then - v else v)
  end.

Definition ok : Outcome := Normal (mkResponse 200 (Some "Report updated successfully")).
Definition not_found : Outcome := Normal (mkResponse 404 (Some "Report with ID report1000 not found")).
Definition rejected : Outcome := Abrupt (ErrorObject "network down").

End Sample.

(** ** Shapes of the selections the engine builds *)

Module Shape.

(** The selections the operations of the engine construct: nothing, or one
    of the three object literals; a multiple selection holds at least two
    cells, each once. *)
Inductive built : option SelectedCells -> Prop :=
| built_none : built None
| built_single (p : CellPosition) : built (Some (single_of p))
| built_range (r : CellRange) : built (Some (range_of r))
| built_multiple (l : list CellPosition) :
    NoDup l -> (2 <= length l)%nat -> built (Some (multiple_of l)).

(** The two drag flags go together. *)
Definition drag_flags (s : SelectionState) : Prop :=
  isSelecting s = true <-> selectionStart s <> None.

Definition consistent (s : SelectionState) : Prop :=
  built (selectedCells s) /\ drag_flags s.

(** The selection is not a range. *)
Definition not_range (s : SelectionState) : Prop :=
  forall sc, selectedCells s = Some sc -> sel_type sc <> TyRange.

(** The state a drag from [a] is in after the pointer entered [p] last. *)
Definition dragging (a p : CellPosition) : SelectionState :=
  {| selectedCells := if same_cell a p then Some (single_of p)
                      else Some (range_of (mkRange a p));
     isSelecting := true;
     selectionStart := Some a;
     activeCell := if same_cell a p then Some p else Some a |}.

(** A whole drag: press on [a], enter the cells of [path] in turn,
    release. *)
Definition drag (a : CellPosition) (path : list CellPosition)
           (s : SelectionState) : SelectionState :=
  Selection.endSelection
    (fold_left (fun st p => Selection.updateSelection p st) path
               (Selection.startSelection a s)).

End Shape.

(** ** Mouse handlers and presentation of a cell (SpreadsheetCell.tsx) *)

Module Cell.

Record MouseEvent := mkMouse {
  m_ctrlKey : bool;
  m_metaKey : bool;
  m_shiftKey : bool
}.

Definition no_modifier : MouseEvent := mkMouse false false false.

Definition on_selection (f : SelectionState -> SelectionState) (w : World)
  : World :=
  set_selection (f (selection w)) w.

Section Handlers.

Variable number_toString : Js.number -> string.

(** The cell the handlers belong to. *)
Variable position : CellPosition.

Definition handleClick (e : MouseEvent) (w : World) : World :=
  if EditData.isCellEditing w position then w
  else if m_ctrlKey e || m_metaKey e then
    on_selection (Selection.toggleCellSelection position) w
  else
    let anchor :=
      match selectedCells (selection w) with
      | Some sc =>
          match sel_type sc with
          | TySingle => single sc
          | _ => None
          end
      | None => None
      end in
    match m_shiftKey e, anchor with
    | true, Some a => on_selection (Selection.selectRange a position) w
    | _, _ => on_selection (Selection.selectCell position) w
    end.

Definition handleDoubleClick (w : World) : World :=
  if EditData.isCellEditing w position then w
  else EditData.startEdit number_toString position w.

Definition handleMouseDown (e : MouseEvent) (w : World) : World :=
  if EditData.isCellEditing w position then w
  else if m_ctrlKey e || m_metaKey e || m_shiftKey e then w
  else on_selection (Selection.startSelection position) w.

Definition handleMouseEnter (w : World) : World :=
  if negb (EditData.isCellEditing w position) && isSelecting (selection w)
  then on_selection (Selection.updateSelection position) w
  else w.

Definition handleMouseUp (w : World) : World :=
  if negb (EditData.isCellEditing w position) && isSelecting (selection w)
  then on_selection Selection.endSelection w
  else w.

(** Press, release and click on the cell, in the order the browser
    delivers them. *)
Definition click (e : MouseEvent) (w : World) : World :=
  handleClick e (handleMouseUp (handleMouseDown e w)).

Inductive SelectionVariant :=
| VariantNone | VariantSelected | VariantInRange | VariantRangeEndpoint
| VariantActiveInRange.

Definition is_range_type (s : SelectionState) : bool :=
  match selectedCells s with
  | Some sc => match sel_type sc with TyRange => true | _ => false end
  | None => false
  end.

Definition getSelectionVariant (s : SelectionState) : SelectionVariant :=
  let isSelected := Selection.isCellSelected s position in
  let isInRange := Selection.isCellInRange s position in
  let isRangeEndpoint := is_range_type s && isSelected in
  let isActiveCell :=
    match Selection.getActiveCell s with
    | Some a => same_cell a position
    | None => false
    end in
  if isActiveCell && is_range_type s then VariantActiveInRange
  else if isSelected && negb isInRange then VariantSelected
  else if isRangeEndpoint then VariantRangeEndpoint
  else if isInRange then VariantInRange
  else VariantNone.

End Handlers.

(** A drag with the mouse: press on [a], move over the cells of [path] in
    turn, release over the last of them. *)
Definition mouse_drag (a : CellPosition) (path : list CellPosition)
           (w : World) : World :=
  handleMouseUp (List.last path a)
    (fold_left (fun w' p => handleMouseEnter p w') path
               (handleMouseDown a no_modifier w)).

End Cell.

(** ** State shown by the formatting toolbar (FormattingToolbar.tsx) *)

Module Toolbar.

Import Formatting.

Record FormattingState := mkState {
  st_bold : bool;
  st_italic : bool;
  st_strikethrough : bool;
  st_alignment : option Alignment
}.

Definition getFormattingState (s : SelectionState) (cellMetadata : MetadataMap)
  : FormattingState :=
  match getSelectedCells s with
  | [] => mkState false false false None
  | firstCell :: _ =>
      let firstCellKey :=
        generateCellKey REPORT_ID (row firstCell) (column firstCell) in
      let f :=
        match cellMetadata !! firstCellKey with
        | Some m => formatting m
        | None => None
        end in
      let flag (get : CellFormatting -> option bool) :=
        match f with
        | Some x => match get x with Some b => b | None => false end
        | None => false
        end in
      mkState (flag bold) (flag italic) (flag strikethrough)
              (match f with Some x => alignment x | None => None end)
  end.

Definition shown (t : FormattingType) (st : FormattingState) : bool :=
  match t with
  | Bold => st_bold st
  | Italic => st_italic st
  | Strikethrough => st_strikethrough st
  end.

(** [handleFormatting]: the toolbar is given no batch writer. *)
Definition handleFormatting (t : FormattingType) (backend : nat -> Outcome)
           (w : World) : World :=
  ReportData.perform REPORT_ID
    (applyFormattingToSelection (selection w) t (metadata_of w) false)
    backend w.

(** [handleAlignment] *)
Definition handleAlignment (a : Alignment) (backend : nat -> Outcome)
           (w : World) : World :=
  ReportData.perform REPORT_ID
    (applyAlignmentToSelection (selection w) a false) backend w.

End Toolbar.

(** ** Column derivation of the adapter (useReportData/utils.ts) *)

Module Adapter.

Definition inferSectionType (sectionName : string) : SectionKind :=
  let lowerName := Js.toLowerCase sectionName in
  if Js.includes lowerName "growth" || Js.includes lowerName "yoy" then KGrowth
  else if Js.includes lowerName "percent" || Js.includes lowerName "pct"
  then KPercentage
  else if Js.includes lowerName "value" || Js.includes lowerName "revenue"
          || Js.includes lowerName "amount" then KCurrency
  else if Js.includes lowerName "product" || Js.includes lowerName "item"
  then KProduct
  else KOther.

(** [s.replace(/\s+/g, "_")]: every run of white space becomes one
    underscore; [in_run] tells that the previous character was white
    space. *)
Fixpoint underscore_runs (in_run : bool) (s : string) : string :=
  match s with
  | EmptyString => EmptyString
  | String c r =>
      if Js.is_space c
      then if in_run then underscore_runs true r
           else String "_" (underscore_runs true r)
      else String c (underscore_runs false r)
  end.

(** A character of the class [[a-z0-9_]]. *)
Definition is_word_char (c : ascii) : bool :=
  let n := Js.code c in
  ((97 <=? n) && (n <=? 122) || (48 <=? n) && (n <=? 57) || (n =? 95))%N.

(** [s.replace(/[^a-z0-9_]/g, "")] *)
Fixpoint keep_word_chars (s : string) : string :=
  match s with
  | EmptyString => EmptyString
  | String c r =>
      if is_word_char c then String c (keep_word_chars r)
      else keep_word_chars r
  end.

(** Every character of the string is of that class. *)
Fixpoint word_chars (s : string) : bool :=
  match s with
  | EmptyString => true
  | String c r => is_word_char c && word_chars r
  end.

(** [s.substring(0, n)] *)
Fixpoint take_chars (n : nat) (s : string) : string :=
  match n, s with
  | Datatypes.S n', String c r => String c (take_chars n' r)
  | _, _ => EmptyString
  end.

Definition createColumnPrefix (sectionName : string) : string :=
  take_chars 10
    (keep_word_chars (underscore_runs false (Js.toLowerCase sectionName))).

Definition determineCellType (columnId : string)
           (columnMeta : option ColumnMetadata) (value : Value) : CellType :=
  let by_value :=
    match value with VNum _ => TNumber | VStr _ => TText end in
  match columnMeta with
  | Some cm =>
      match col_kind cm with
      | KProduct => TProduct
      | KCurrency => TCurrency
      | KPercentage => TPercentage
      | KGrowth => TPercentage
      | KOther => by_value
      end
  | None =>
      if String.eqb columnId "product" then TProduct else by_value
  end.

Definition determineCellSection (columnId : string)
           (columnMeta : option ColumnMetadata) : CellSection :=
  match columnMeta with
  | Some cm =>
      if String.eqb (col_section cm) "Values" then SecValues
      else if String.eqb (col_section cm) "YoY Growth" then SecYoYGrowth
      else if String.eqb (col_section cm) "Percent of Total"
      then SecPercentOfTotal
      else if String.eqb (col_section cm) "Product" then SecProduct
      else SecValues
  | None =>
      if String.eqb columnId "product" then SecProduct else SecValues
  end.

(** The column the adapter makes of a column [key] of a section that is
    not a product column. *)
Definition data_column (sectionName key name : string) : ColumnMetadata :=
  {| col_id := createColumnPrefix sectionName +:+ "_" +:+ key;
     col_name := name;
     originalKey := key;
     originalSection := sectionName;
     col_section := sectionName;
     col_kind := inferSectionType sectionName |}.

End Adapter.

(** ** Cell keys and entries of the metadata map *)

Module Keys.

Definition is_colon (c : ascii) : bool := Ascii.eqb c ":".

(** The string holds no colon. *)
Fixpoint colon_free (s : string) : bool :=
  match s with
  | EmptyString => true
  | String c r => negb (is_colon c) && colon_free r
  end.

End Keys.

Module Frame.

(** The entry of a cell once [change] has been merged into its formatting;
    an entry without formatting is not written. *)
Definition changed (change : PartialFormatting) (cm : CellMetadata)
  : CellMetadata :=
  match formatting cm with
  | Some f => with_formatting cm (merge_formatting f change)
  | None => cm
  end.

(** [{alignment}], the change the alignment command asks for. *)
Definition alignment_change (a : Alignment) : PartialFormatting :=
  mkPartial None None None None (Some a) None None.

(** Two entries for a cell of the same type and section, both with or both
    without formatting. *)
Definition same_kind (a b : CellMetadata) : Prop :=
  cell_type a = cell_type b /\ section a = section b /\
  (formatting a = None <-> formatting b = None).

(** Two maps with the same keys and entries of the same kind. *)
Definition same_cells (m m' : MetadataMap) : Prop :=
  forall k,
    match m !! k, m' !! k with
    | Some a, Some b => same_kind a b
    | None, None => True
    | _, _ => False
    end.

(** Of the calls issued in order from the [i]-th on, those the collaborator
    answers with 200. *)
Fixpoint committed {A} (backend : nat -> Outcome) (i : nat) (calls : list A)
  : list A :=
  match calls with
  | [] => []
  | c :: rest =>
      if succeeded (backend i) then c :: committed backend (Datatypes.S i) rest
      else committed backend (Datatypes.S i) rest
  end.

(** The part of the world a formatting command has no business with. *)
Definition same_grid (w w' : World) : Prop :=
  rows (data w') = rows (data w) /\
  sections (data w') = sections (data w) /\
  columnOrder (data w') = columnOrder (data w) /\
  columnMapping (data w') = columnMapping (data w) /\
  selection w' = selection w /\ edit w' = edit w.

End Frame.

(** ** Reading the rows *)

Module Rows.

(** [data.rows[i]?.[k]] *)
Definition value_at (d : AdapterOutput) (i : Z) (k : string) : option Value :=
  match array_get (rows d) i with
  | Some r => r !! k
  | None => None
  end.

(** The position lies inside a grid of the given size. *)
Definition in_grid (totalRows totalColumns : Z) (p : CellPosition) : Prop :=
  0 <= row p < totalRows /\ 0 <= column p < totalColumns.

End Rows.

(** ** The router as a function on the world *)

Module Router.

(** The world after a key event has been handled. *)
Definition route (number_toString : Js.number -> string) (reportId : string)
           (have_batch : bool) (totalRows totalColumns : Z)
           (backend : nat -> Outcome) (e : Keyboard.KeyboardEvent) (w : World)
  : World :=
  fst (Keyboard.handleKeyDown number_toString reportId have_batch totalRows
                              totalColumns backend e w).

(** A key pressed without Ctrl or Meta. *)
Definition press (k : string) (shift : bool) : Keyboard.KeyboardEvent :=
  Keyboard.mkKey k false false shift.

End Router.

(** * Properties *)

Lemma same_cell_spec a b : same_cell a b = true <-> a = b.
Proof.
  unfold same_cell. destruct a as [r1 c1], b as [r2 c2]; simpl.
  rewrite andb_true_iff, !Z.eqb_eq. split.
  - intros [-> ->]; reflexivity.
  - intros H; injection H; auto.
Qed.

Lemma same_cell_refl a : same_cell a a = true.
Proof. apply same_cell_spec; reflexivity. Qed.

(** ** [parseFloat] yields [NaN] exactly when no literal starts the input *)

Section ParseFloat.

Import Js.

Lemma iter_pos_preserves {A} (P : A -> Prop) (f : A -> A) :
  (forall x, P x -> P (f x)) -> forall p x, P x -> P (SpecFloat.iter_pos f p x).
Proof.
  intros Hf. induction p as [p IH|p IH|]; intros x Hx; simpl; auto.
Qed.

Lemma shr_1_nonneg mrs : 0 <= shr_m mrs -> 0 <= shr_m (shr_1 mrs).
Proof.
  destruct mrs as [m r s]; simpl. intros Hm.
  destruct m as [|[p|p|]|p]; simpl; lia.
Qed.

Lemma shr_nonneg mrs e n : 0 <= shr_m mrs -> 0 <= shr_m (fst (shr mrs e n)).
Proof.
  intros Hm. unfold shr. destruct n; simpl; try exact Hm.
  apply iter_pos_preserves with (P := fun x => 0 <= shr_m x);
    [apply shr_1_nonneg|exact Hm].
Qed.

Lemma shr_fexp_nonneg p e m ex l :
  0 <= m -> 0 <= shr_m (fst (shr_fexp p e m ex l)).
Proof.
  intros Hm. unfold shr_fexp. apply shr_nonneg.
  destruct l as [|[]]; simpl; exact Hm.
Qed.

Lemma round_nearest_even_nonneg m l : 0 <= m -> 0 <= round_nearest_even m l.
Proof.
  intros Hm. unfold round_nearest_even.
  destruct l as [|[]]; try destruct (Z.even m); lia.
Qed.

Lemma binary_round_aux_not_nan p e sx mx ex lx :
  0 <= mx -> binary_round_aux p e sx mx ex lx <> S754_nan.
Proof.
  intros Hm. unfold binary_round_aux.
  pose proof (shr_fexp_nonneg p e mx ex lx Hm) as H1.
  destruct (shr_fexp p e mx ex lx) as [mrs' e'] eqn:E1. simpl in H1.
  pose proof (shr_fexp_nonneg p e
                (round_nearest_even (shr_m mrs') (loc_of_shr_record mrs'))
                e' loc_Exact (round_nearest_even_nonneg _ _ H1)) as H2.
  destruct (shr_fexp p e (round_nearest_even _ _) e' loc_Exact)
    as [mrs'' e''] eqn:E2. simpl in H2.
  destruct (shr_m mrs'') eqn:E3; try discriminate.
  - now destruct (e'' <=? e - p).
  - lia.
Qed.

Lemma binary_normalize_not_nan p e m ex sz :
  binary_normalize p e m ex sz <> S754_nan.
Proof.
  unfold binary_normalize, binary_round.
  destruct m as [|m|m]; [discriminate| |];
    destruct (shl_align _ _ _) as [mz ez];
    apply binary_round_aux_not_nan; lia.
Qed.

Lemma round_decimal_not_nan neg m e10 : isNaN (round_decimal neg m e10) = false.
Proof.
  unfold round_decimal.
  destruct (m =? 0); [reflexivity|].
  destruct (0 <=? e10).
  - pose proof (binary_normalize_not_nan prec emax
                  (if neg then - (m * 10 ^ e10) else m * 10 ^ e10) 0 neg) as H.
    now destruct (binary_normalize _ _ _ _ _).
  - match goal with
    | |- isNaN (binary_normalize ?p ?e ?x ?y ?z) = false =>
        pose proof (binary_normalize_not_nan p e x y z) as H;
        now destruct (binary_normalize p e x y z)
    end.
Qed.

Lemma span_digits_head s :
  match span_digits s with
  | ([], rest) => starts_with_digit s = false /\ rest = s
  | (_ :: _, _) => starts_with_digit s = true
  end.
Proof.
  destruct s as [|c r]; simpl; [auto|].
  destruct (is_digit c); [|auto].
  now destruct (span_digits r).
Qed.

Lemma read_unsigned_isNaN neg s :
  isNaN (read_unsigned neg s) = negb (starts_literal s).
Proof.
  unfold read_unsigned, starts_literal.
  destruct (String.prefix "Infinity" s); [reflexivity|]. simpl.
  pose proof (span_digits_head s) as Hs.
  destruct (span_digits s) as [[|d ds] r1].
  - destruct Hs as [Hd ->]. rewrite Hd. simpl.
    destruct s as [|c r]; [reflexivity|].
    destruct (Ascii.eqb_spec c ".") as [->|Hc].
    + pose proof (span_digits_head r) as Hr.
      destruct (span_digits r) as [[|d' ds'] r3].
      * destruct Hr as [-> _]. reflexivity.
      * rewrite Hr. simpl. apply round_decimal_not_nan.
    + assert (match c with
              | "."%char => starts_with_digit r
              | _ => false
              end = false) as ->.
      { destruct c as [[] [] [] [] [] [] [] []]; try reflexivity.
        now elim Hc. }
      destruct c as [[] [] [] [] [] [] [] []]; try reflexivity.
      now elim Hc.
  - rewrite Hs. simpl.
    destruct r1 as [|c r2]; [apply round_decimal_not_nan|].
    destruct c as [[] [] [] [] [] [] [] []];
      try apply round_decimal_not_nan.
    destruct (span_digits r2) as [fp r3]. apply round_decimal_not_nan.
Qed.

Lemma parseFloat_isNaN s : isNaN (parseFloat s) = negb (begins_with_number s).
Proof.
  unfold parseFloat, begins_with_number.
  destruct (read_sign (trimStart s)) as [neg r]. apply read_unsigned_isNaN.
Qed.

End ParseFloat.

(** ** [trim] yields the empty string exactly on white space *)

Section Trim.

Import Js.

Lemma trimStart_empty s : trimStart s = "" <-> all_white_space s = true.
Proof.
  unfold all_white_space. induction s as [|c r IH]; simpl; [tauto|].
  destruct (is_space c); simpl; [exact IH|].
  split; discriminate.
Qed.

Lemma trimStart_head s :
  trimStart s = "" \/
  exists c r, trimStart s = String c r /\ is_space c = false.
Proof.
  induction s as [|c r IH]; simpl; [auto|].
  destruct (is_space c) eqn:E; [exact IH|]. right. eauto.
Qed.

Lemma rev_string_empty s : rev_string s = "" -> s = "".
Proof.
  unfold rev_string. intros H.
  apply (f_equal list_ascii_of_string) in H.
  rewrite list_ascii_of_string_of_list_ascii in H. simpl in H.
  apply (f_equal (@rev ascii)) in H. rewrite rev_involutive in H. simpl in H.
  destruct s; [reflexivity|discriminate].
Qed.

Lemma all_white_space_rev s :
  all_white_space (rev_string s) = all_white_space s.
Proof.
  unfold all_white_space, rev_string.
  rewrite list_ascii_of_string_of_list_ascii.
  apply eq_true_iff_eq. rewrite !forallb_forall.
  split; intros H x Hx; apply H; [now apply in_rev in Hx|now apply in_rev].
Qed.

Lemma trim_empty s : trim s = "" <-> all_white_space s = true.
Proof.
  unfold trim, trimEnd. split.
  - intros H. apply rev_string_empty in H. apply trimStart_empty in H.
    rewrite all_white_space_rev in H.
    destruct (trimStart_head s) as [E|(c & r & E & Hc)].
    + now apply trimStart_empty.
    + rewrite E in H. unfold all_white_space in H. simpl in H.
      rewrite Hc in H. discriminate.
  - intros H. apply trimStart_empty in H. rewrite H. reflexivity.
Qed.

End Trim.

(** ** Selection engine: the active cell *)

Section SelectionInvariant.

Import Selection.

Lemma start_in_box a b : in_box (mkRange a b) a.
Proof. unfold in_box, minRow, maxRow, minCol, maxCol; simpl; lia. Qed.

Lemma move_in_box d r a : in_box r a -> in_box r (move d r a).
Proof.
  unfold in_box, move, minRow, maxRow, minCol, maxCol.
  intros [Hr Hc].
  destruct d; repeat case_match; simpl; lia.
Qed.

(** A state whose selection is not a well-formed range satisfies the range
    half of the invariant for free. *)
Lemma not_range_active_in_range s :
  match selectedCells s with
  | Some sc => sel_type sc <> TyRange
  | None => True
  end -> active_in_range s.
Proof.
  intros H sc r Hsel Hty _. rewrite Hsel in H. contradiction.
Qed.

Lemma toggle_active_in_range p s :
  active_in_range s -> active_in_range (toggleCellSelection p s).
Proof.
  intros IH. unfold toggleCellSelection.
  repeat case_match; try exact IH;
    apply not_range_active_in_range; simpl; try exact I; discriminate.
Qed.

Lemma navigate_active_in_range d s :
  active_in_range s -> active_in_range (snd (navigateWithinRange d s)).
Proof.
  intros IH. unfold navigateWithinRange.
  destruct (selectedCells s) as [sc|] eqn:Hsel; [|exact IH].
  destruct (activeCell s) as [a|] eqn:Hact; [|exact IH].
  destruct (sel_type sc) eqn:Hty; try exact IH.
  destruct (range sc) as [r|] eqn:Hr; [|exact IH].
  intros sc' r' Hsel' Hty' Hr'. simpl in *.
  rewrite Hsel in Hsel'. injection Hsel' as <-.
  rewrite Hr in Hr'. injection Hr' as <-.
  destruct (IH sc r Hsel Hty Hr) as (a' & Ha' & Hbox).
  rewrite Hact in Ha'. injection Ha' as <-.
  eexists; split; [reflexivity|]. now apply move_in_box.
Qed.

Lemma step_active_in_range s o :
  active_in_range s -> active_in_range (step s o).
Proof.
  intros IH. destruct o; simpl.
  - apply not_range_active_in_range; simpl; discriminate.
  - intros sc r Hsel _ Hr. simpl in Hsel. injection Hsel as <-.
    simpl in Hr. injection Hr as <-.
    eexists; split; [reflexivity|apply start_in_box].
  - now apply toggle_active_in_range.
  - apply not_range_active_in_range; simpl; discriminate.
  - unfold updateSelection.
    destruct (isSelecting s); [|exact IH].
    destruct (selectionStart s) as [st|]; [|exact IH].
    destruct (same_cell st p).
    + apply not_range_active_in_range; simpl; discriminate.
    + intros sc r Hsel _ Hr. simpl in Hsel. injection Hsel as <-.
      simpl in Hr. injection Hr as <-.
      eexists; split; [reflexivity|apply start_in_box].
  - exact IH.
  - apply not_range_active_in_range; exact I.
  - now apply navigate_active_in_range.
Qed.



Lemma fold_active_in_range ops s :
  active_in_range s -> active_in_range (fold_left step ops s).
Proof.
  revert s. induction ops as [|o ops IH]; intros s Hs; simpl; [exact Hs|].
  apply IH. now apply step_active_in_range.
Qed.





End SelectionInvariant.

(** ** Selection engine: Tab navigation inside a range *)

Section RangeNavigation.

Import Selection.

Lemma row_major_div c q r : 0 <= r < c -> (q * c + r) / c = q.
Proof. intros H. symmetry. apply (Z.div_unique_pos _ _ _ r); lia. Qed.

Lemma row_major_mod c q r : 0 <= r < c -> (q * c + r) mod c = r.
Proof. intros H. symmetry. apply (Z.mod_unique_pos _ _ q); lia. Qed.

Lemma width_pos r : 0 < width r.
Proof. unfold width, maxCol, minCol. lia. Qed.

Lemma height_pos r : 0 < height r.
Proof. unfold height, maxRow, minRow. lia. Qed.

Lemma index_of_bounds r a :
  in_box r a -> 0 <= index_of r a < height r * width r.
Proof.
  unfold in_box, index_of, height, width. intros [Hr Hc]. nia.
Qed.

Lemma cell_at_index_of r a : in_box r a -> cell_at r (index_of r a) = a.
Proof.
  intros [Hr Hc]. unfold cell_at, index_of.
  rewrite row_major_div, row_major_mod by (unfold width; lia).
  destruct a; simpl; f_equal; lia.
Qed.

Lemma cell_at_in_box r i :
  0 <= i < height r * width r -> in_box r (cell_at r i).
Proof.
  intros Hi. pose proof (width_pos r) as Hw.
  pose proof (Z.mod_pos_bound i (width r) Hw) as Hm.
  assert (0 <= i / width r < height r) as Hd.
  { split; [apply Z.div_pos; lia|apply Z.div_lt_upper_bound; lia]. }
  unfold in_box, cell_at; simpl. unfold height, width in *. lia.
Qed.













End RangeNavigation.

(** ** Flattening a selection *)

Section Flattening.

Import Selection Formatting.

Lemma for_loop_push {A} (f : Z -> A) n i (acc : list A) :
  for_loop n i (fun k cells => cells ++ [f k]) acc = acc ++ map f (zseq i n).
Proof.
  revert i acc. induction n as [|n IH]; intros i acc; simpl.
  - now rewrite app_nil_r.
  - rewrite IH, <- app_assoc. reflexivity.
Qed.

Lemma for_loop_append {A} (f : Z -> list A) n i (acc : list A) :
  for_loop n i (fun k cells => cells ++ f k) acc = acc ++ flat_map f (zseq i n).
Proof.
  revert i acc. induction n as [|n IH]; intros i acc; simpl.
  - now rewrite app_nil_r.
  - rewrite IH, <- app_assoc. reflexivity.
Qed.

Lemma length_zseq lo n : length (zseq lo n) = n.
Proof. revert lo; induction n; intros; simpl; auto. Qed.

Lemma lookup_zseq lo n (k : nat) :
  (k < n)%nat -> zseq lo n !! k = Some (lo + Z.of_nat k).
Proof.
  revert lo k. induction n as [|n IH]; intros lo k Hk; [lia|].
  destruct k as [|k]; simpl.
  - f_equal; lia.
  - rewrite IH by lia. f_equal; lia.
Qed.

Lemma for_loop_ext {S} (f g : Z -> S -> S) n i (s : S) :
  (forall k x, f k x = g k x) -> for_loop n i f s = for_loop n i g s.
Proof.
  intros Hfg. revert i s. induction n as [|n IH]; intros i s; simpl; [reflexivity|].
  now rewrite Hfg, IH.
Qed.

Lemma getSelectedCells_range s sc r :
  selectedCells s = Some sc -> sel_type sc = TyRange -> range sc = Some r ->
  getSelectedCells s = box_cells r.
Proof.
  intros Hsel Hty Hr. unfold getSelectedCells, for_range.
  rewrite Hsel, Hty, Hr.
  rewrite (for_loop_ext _ (fun row_ cells =>
             cells ++ map (mkPos row_) (zseq (minCol r) (Z.to_nat (width r))))).
  - rewrite for_loop_append. simpl. unfold box_cells, height, width.
    now replace (maxRow r + 1 - minRow r) with (maxRow r - minRow r + 1) by lia.
  - intros k x. rewrite for_loop_push. unfold width.
    now replace (maxCol r + 1 - minCol r) with (maxCol r - minCol r + 1) by lia.
Qed.


Lemma lookup_rows {A} (f : Z -> Z -> A) clo (m : nat) rlo (n i : nat) :
  (0 < m)%nat -> (i < n * m)%nat ->
  flat_map (fun row_ => map (f row_) (zseq clo m)) (zseq rlo n) !! i
  = Some (f (rlo + Z.of_nat i / Z.of_nat m) (clo + Z.of_nat i mod Z.of_nat m)).
Proof.
  intros Hm. revert rlo i. induction n as [|n IH]; intros rlo i Hi; [lia|].
  simpl. destruct (Nat.lt_ge_cases i m) as [Hlt|Hge].
  - rewrite lookup_app_l by now rewrite length_map, length_zseq.
    rewrite list_lookup_fmap, lookup_zseq by exact Hlt. simpl.
    rewrite Z.div_small, Z.mod_small by lia. f_equal. f_equal. lia.
  - rewrite lookup_app_r by now rewrite length_map, length_zseq.
    rewrite length_map, length_zseq, IH by lia.
    replace (Z.of_nat i) with (Z.of_nat (i - m) + 1 * Z.of_nat m) by lia.
    rewrite Z.div_add, Z_mod_plus_full by lia.
    f_equal. f_equal. lia.
Qed.

Lemma length_rows {A} (f : Z -> Z -> A) clo (m : nat) rlo (n : nat) :
  length (flat_map (fun row_ => map (f row_) (zseq clo m)) (zseq rlo n))
  = (n * m)%nat.
Proof.
  revert rlo. induction n as [|n IH]; intros rlo; simpl; [reflexivity|].
  now rewrite length_app, length_map, length_zseq, IH.
Qed.

Lemma length_box_cells r :
  length (box_cells r) = Z.to_nat (height r * width r).
Proof.
  unfold box_cells. rewrite length_rows.
  pose proof (width_pos r); pose proof (height_pos r). lia.
Qed.

Lemma lookup_box_cells r i :
  0 <= i < height r * width r ->
  box_cells r !! Z.to_nat i = Some (cell_at r i).
Proof.
  intros Hi. pose proof (width_pos r); pose proof (height_pos r).
  unfold box_cells. rewrite lookup_rows by lia.
  unfold cell_at. now rewrite !Z2Nat.id by lia.
Qed.

Lemma elem_of_box_cells r p : In p (box_cells r) <-> in_box r p.
Proof.
  rewrite <- list_elem_of_In. split.
  - intros Hin. apply list_elem_of_lookup in Hin as [i Hi].
    assert (i < length (box_cells r))%nat as Hlen
        by (apply lookup_lt_is_Some; eauto).
    rewrite length_box_cells in Hlen.
    pose proof (width_pos r); pose proof (height_pos r).
    rewrite <- (Nat2Z.id i), lookup_box_cells in Hi by lia.
    injection Hi as <-. apply cell_at_in_box. lia.
  - intros Hbox. apply list_elem_of_lookup.
    exists (Z.to_nat (index_of r p)).
    rewrite lookup_box_cells by now apply index_of_bounds.
    f_equal. now apply cell_at_index_of.
Qed.



End Flattening.

(** ** Metadata resolver *)

Section MetadataResolver.

Import Formatting.

(** C3, as stated, fails: the resolver compares the section name with the
    three section names and does not search it for key words, so a section
    called "revenue" gets type text, not currency; and the default case
    sets no [bold], also for a total row. *)
Lemma resolver_does_not_search_section_name :
  ~ (forall id column section_name isTotal,
        let m := getMetadataForCell id column section_name isTotal in
        cell_type m = fst (resolver_as_specified column section_name) /\
        (isTotal = true -> bold_of m = Some true)).
Proof.
  intros H. destruct (H "fmt-1" "values_2020" "revenue" true) as [Hty _].
  vm_compute in Hty. discriminate.
Qed.

Lemma resolver_default_not_bold :
  bold_of (getMetadataForCell "fmt-1" "other_2020" "Notes" true) = None.
Proof. reflexivity. Qed.

(** C3, amended: the product column gives type product, section Product;
    otherwise a section named exactly "Values" gives type currency, section
    Values; one named "YoY Growth" gives percentage, YoY Growth; one named
    "Percent of Total" gives percentage, Percent of Total; any other name
    gives text, Values.  The alignment is always left, and in the four
    named cases a total row is bold ([bold] is the total-row flag). *)
Theorem getMetadataForCell_by_exact_section
        (id column section_name : string) (isTotal : bool) :
  let m := getMetadataForCell id column section_name isTotal in
  alignment_of m = Some AlignLeft /\
  (column = "product" ->
   cell_type m = TProduct /\ section m = SecProduct /\
   bold_of m = Some isTotal) /\
  (column <> "product" ->
   (section_name = "Values" ->
    cell_type m = TCurrency /\ section m = SecValues /\
    bold_of m = Some isTotal) /\
   (section_name = "YoY Growth" ->
    cell_type m = TPercentage /\ section m = SecYoYGrowth /\
    bold_of m = Some isTotal) /\
   (section_name = "Percent of Total" ->
    cell_type m = TPercentage /\ section m = SecPercentOfTotal /\
    bold_of m = Some isTotal) /\
   (section_name <> "Values" -> section_name <> "YoY Growth" ->
    section_name <> "Percent of Total" ->
    cell_type m = TText /\ section m = SecValues)).
Proof.
  unfold getMetadataForCell.
  destruct (String.eqb_spec column "product") as [Hc|Hc].
  { cbn. split; [reflexivity|]. split; [auto|]. intros Hn; contradiction. }
  destruct (String.eqb_spec section_name "Values") as [->|Hv].
  { cbn. repeat split; try reflexivity; try discriminate; try contradiction;
      intros; try discriminate; try contradiction; auto. }
  destruct (String.eqb_spec section_name "YoY Growth") as [->|Hy].
  { cbn. repeat split; try reflexivity; try discriminate; try contradiction;
      intros; try discriminate; try contradiction; auto. }
  destruct (String.eqb_spec section_name "Percent of Total") as [->|Hp].
  { cbn. repeat split; try reflexivity; try discriminate; try contradiction;
      intros; try discriminate; try contradiction; auto. }
  cbn. repeat split; try reflexivity; try contradiction;
    intros; try contradiction; auto.
Qed.

Lemma getMetadataForCell_by_exact_section_witness :
  let m := getMetadataForCell "fmt-1" "values_2020" "Values" true in
  cell_type m = TCurrency /\ section m = SecValues /\ bold_of m = Some true.
Proof.
  destruct (getMetadataForCell_by_exact_section
              "fmt-1" "values_2020" "Values" true) as (_ & _ & H).
  destruct H as (Hv & _); [discriminate|]. exact (Hv eq_refl).
Defined.

End MetadataResolver.

(** ** Edit session: validation *)

Section Validation.

Import EditData.

Variable number_toString : Js.number -> string.

Lemma validateValue_numeric v md :
  is_numeric (md_type md) = true ->
  validateValue v md = true <-> blank v \/ Js.begins_with_number v = true.
Proof.
  intros Hnum. unfold validateValue, blank.
  destruct (String.eqb_spec (Js.trim v) "") as [Ht|Ht].
  - split; auto.
  - assert (validateValue_body :
              negb (Js.isNaN (Js.parseFloat v)) = Js.begins_with_number v)
      by (rewrite parseFloat_isNaN; apply negb_involutive).
    destruct (md_type md); try discriminate; rewrite validateValue_body;
      (split; [auto|intros [H|H]; [contradiction|exact H]]).
Qed.

Lemma validateValue_other v md :
  is_numeric (md_type md) = false -> validateValue v md = true.
Proof.
  intros Hnum. unfold validateValue.
  destruct (String.eqb (Js.trim v) ""); [reflexivity|].
  destruct (md_type md); try discriminate; reflexivity.
Qed.

(** C4, as stated, fails: a value of white space only is valid although
    it is neither empty nor a number; "Infinity" is valid although it does
    not parse to a finite number; and the type the session validates
    against is the one [getCellData] derives from the section name, not
    the one recorded in the grid's metadata: a cell recorded as percentage
    in the section "Percent of Total" is validated as text, so "abc" is
    valid there. *)
Lemma blank_and_infinite_values_are_valid :
  let w := startEdit Sample.print_whole (mkPos 0 1) Sample.world in
  let valid v :=
    isEditValid (edit (updateEditValue Sample.print_whole v w)) = true in
  let w2 := startEdit Sample.print_whole (mkPos 0 2) Sample.world in
  (is_numeric (declared_type Sample.print_whole (data w) (mkPos 0 1)) = true /\
   ~ (valid " " <-> " " = "" \/ parses_to_finite_number " ") /\
   ~ (valid "Infinity" <->
      "Infinity" = "" \/ parses_to_finite_number "Infinity")) /\
  (recorded_type w2 (mkPos 0 2) = Some TPercentage /\
   isEditValid (edit (updateEditValue Sample.print_whole "abc" w2)) = true /\
   ~ ("abc" = "" \/ parses_to_finite_number "abc")).
Proof.
  unfold parses_to_finite_number. split.
  - split; [reflexivity|].
    split; intros [H _]; destruct (H eq_refl) as [E|E]; discriminate.
  - split; [reflexivity|]. split; [reflexivity|].
    intros [E|E]; discriminate.
Qed.

(** C4, amended.  In an open session, [updateEditValue v] stores [v]; the
    type is the one [getCellData] derives for the cell; for
    a cell of type number, currency or percentage, [isValid] is true iff [v]
    is blank (empty once white space is trimmed) or [parseFloat v] is not
    [NaN], which is: [v] is white space only or begins, after white space
    and an optional sign, with a decimal literal or with Infinity (what
    follows is ignored, and the number may be infinite); for a text or product cell [isValid] is
    true; and whenever the new value is valid, [error] is none. *)
Theorem updateEditValue_revalidates (w : World) (cell : CellPosition)
        (v : string) :
  editingCell (edit w) = Some cell ->
  let w' := updateEditValue number_toString v w in
  let t := declared_type number_toString (data w) cell in
  editValue (edit w') = v /\
  (is_numeric t = true ->
   (isEditValid (edit w') = true <->
    blank v \/ Js.isNaN (Js.parseFloat v) = false) /\
   (isEditValid (edit w') = true <->
    Js.all_white_space v = true \/ Js.begins_with_number v = true)) /\
  (is_numeric t = false -> isEditValid (edit w') = true) /\
  (isEditValid (edit w') = true -> editError (edit w') = None).
Proof.
  intros Hcell w' t. subst w' t. unfold updateEditValue, declared_type.
  rewrite Hcell. simpl.
  split; [reflexivity|]. split; [|split].
  - intros Hnum. rewrite validateValue_numeric by exact Hnum.
    rewrite parseFloat_isNaN, negb_false_iff. unfold blank.
    rewrite trim_empty. split; reflexivity.
  - intros Hnum. now apply validateValue_other.
  - intros ->. reflexivity.
Qed.

End Validation.

Lemma updateEditValue_revalidates_witness :
  let w := EditData.startEdit Sample.print_whole (mkPos 0 1) Sample.world in
  let after v := edit (EditData.updateEditValue Sample.print_whole v w) in
  isEditValid (after "abc") = false /\
  isEditValid (after "2500") = true /\
  editError (after "2500") = None.
Proof.
  intros w after.
  destruct (updateEditValue_revalidates Sample.print_whole w (mkPos 0 1)
              "abc" eq_refl) as (_ & Habc & _).
  destruct (updateEditValue_revalidates Sample.print_whole w (mkPos 0 1)
              "2500" eq_refl) as (_ & H2500 & _ & Herr).
  destruct (Habc eq_refl) as [_ Habc'].
  destruct (H2500 eq_refl) as [_ H2500'].
  assert (isEditValid (after "2500") = true) as Hvalid
      by (apply H2500'; right; reflexivity).
  split; [|split; [exact Hvalid|exact (Herr Hvalid)]].
  destruct (isEditValid (after "abc")) eqn:E; [|reflexivity].
  destruct (proj1 Habc' E) as [Hb|Hb]; discriminate.
Defined.

(** ** Edit session: saving *)

Section Saving.

Import EditData.

Variable number_toString : Js.number -> string.

Lemma array_get_set {A} (l : list (option A)) i (x : A) :
  0 <= i -> array_get (array_set l i x) i = Some x.
Proof.
  intros Hi. unfold array_get, array_set.
  destruct (Z.ltb_spec i 0) as [|_]; [lia|].
  destruct (Nat.ltb_spec (Z.to_nat i) (length l)) as [Hlt|Hge].
  - now rewrite list_lookup_insert_eq.
  - rewrite lookup_app_r by exact Hge.
    rewrite lookup_app_r by (rewrite length_replicate; lia).
    rewrite length_replicate.
    now replace (Z.to_nat i - length l - (Z.to_nat i - length l))%nat with O by lia.
Qed.

Lemma succeeded_inv o :
  succeeded o = true -> exists r, o = Normal r /\ (status r =? 200) = true.
Proof. destruct o as [r|t]; simpl; [eauto|discriminate]. Qed.

(** The state a successful save ends in. *)
Lemma saveEdit_success outcome w cell :
  editingCell (edit w) = Some cell -> isEditValid (edit w) = true ->
  succeeded outcome = true ->
  let cd := getCellData number_toString (data w) cell in
  saveEdit number_toString outcome w =
  ({| heap := heap w;
      data := with_rows (data w)
                (optimistic_rows (data w) cell (internalColumnId cd)
                   (convertValue (editValue (edit w)) (metadata cd)));
      selection := selection w;
      edit := mkEdit None "" true None false |}, Normal tt).
Proof.
  intros Hcell Hvalid Hok cd. subst cd.
  apply succeeded_inv in Hok as (r & -> & Hst).
  destruct w as [h d sel [ec ev valid err saving]]. simpl in *. subst.
  unfold saveEdit, try_catch_finally, bind, modify, await, throw. simpl.
  rewrite Hst. reflexivity.
Qed.

(** The state a failed save ends in: the rows are the ones before the
    attempt, the session stays open and shows the reason. *)
Lemma saveEdit_failure outcome w cell :
  editingCell (edit w) = Some cell -> isEditValid (edit w) = true ->
  succeeded outcome = false ->
  saveEdit number_toString outcome w =
  ({| heap := heap w;
      data := with_rows (data w) (rows (data w));
      selection := selection w;
      edit := mkEdit (Some cell) (editValue (edit w)) true
                     (Some (failure_reason outcome)) false |},
   Normal tt).
Proof.
  intros Hcell Hvalid Hfail.
  destruct w as [h d sel [ec ev valid err saving]]. simpl in *. subst.
  unfold saveEdit, try_catch_finally, bind, modify, await, throw.
  destruct outcome as [r|[m|]]; simpl in *.
  - rewrite Hfail. reflexivity.
  - reflexivity.
  - reflexivity.
Qed.

Lemma saveEdit_idle outcome w :
  editingCell (edit w) = None \/ isEditValid (edit w) = false ->
  saveEdit number_toString outcome w = (w, Normal tt).
Proof.
  intros H. unfold saveEdit.
  destruct (editingCell (edit w)); [|reflexivity].
  destruct H as [H|H]; [discriminate|]. now rewrite H.
Qed.





End Saving.


(** ** Keyboard router *)

Section RouterFacts.

Import Keyboard.

Variable number_toString : Js.number -> string.
Variable reportId : string.
Variable have_batch : bool.
Variables totalRows totalColumns : Z.


(** C9.  When [getCurrentCell] returns none, as it does when there is no
    single selection and no active cell, the router returns at once:
    whatever the key and the modifiers, and also while an edit session is
    open, the selection, the edit session, the grid data and the metadata
    maps are what they were, and [preventDefault] is not called. *)
Theorem handleKeyDown_without_current_cell :
  (forall (backend : nat -> Outcome) (e : KeyboardEvent) (w : World),
      Selection.getCurrentCell (selection w) = None ->
      handleKeyDown number_toString reportId have_batch totalRows totalColumns
                    backend e w = (w, false)) /\
  (forall s,
      (forall sc, selectedCells s = Some sc -> sel_type sc <> TySingle) ->
      activeCell s = None ->
      Selection.getCurrentCell s = None).
Proof.
  split.
  - intros backend e w Hnone. unfold handleKeyDown. now rewrite Hnone.
  - intros s Hsingle Hactive. unfold Selection.getCurrentCell.
    destruct (selectedCells s) as [sc|]; [|exact Hactive].
    specialize (Hsingle sc eq_refl).
    destruct (sel_type sc); [contradiction|exact Hactive|exact Hactive].
Qed.


End RouterFacts.

(** ** Synchronisation layer: the batched formatting commit *)

Section BatchCommit.

Import Formatting ReportData.

Lemma heap_get_alloc_new (h : Heap) (m : MetadataMap) :
  heap_get (h ++ [m]) (length h) = m.
Proof.
  unfold heap_get. rewrite lookup_app_r by lia.
  now rewrite Nat.sub_diag.
Qed.

Lemma heap_get_alloc_old (h : Heap) (m : MetadataMap) (l : loc) :
  (l < length h)%nat -> heap_get (h ++ [m]) l = heap_get h l.
Proof. intros Hl. unfold heap_get. now rewrite lookup_app_l. Qed.

Lemma length_heap_map_set (h : Heap) l k v :
  length (heap_map_set h l k v) = length h.
Proof. unfold heap_map_set. apply length_insert. Qed.

Lemma heap_get_map_set_eq (h : Heap) l k v :
  (l < length h)%nat ->
  heap_get (heap_map_set h l k v) l = <[k := v]> (heap_get h l).
Proof.
  intros Hl. unfold heap_map_set, heap_get at 1.
  now rewrite list_lookup_insert_eq.
Qed.

Lemma heap_get_map_set_ne (h : Heap) l l' k v :
  l <> l' -> heap_get (heap_map_set h l k v) l' = heap_get h l'.
Proof.
  intros Hne. unfold heap_map_set, heap_get.
  now rewrite list_lookup_insert_ne.
Qed.

(** The loop writes to the live map only, and there it does what
    [apply_update] says. *)
Lemma batch_step_spec reportId m h c u :
  (m < length h)%nat ->
  let h' := fst (batch_step reportId m (h, c) u) in
  length h' = length h /\
  heap_get h' m = apply_update reportId (heap_get h m) u /\
  (forall l, l <> m -> heap_get h' l = heap_get h l).
Proof.
  intros Hm. unfold batch_step, apply_update. simpl.
  destruct (heap_get h m !! _) as [cm|]; [|simpl; auto].
  destruct (formatting cm) as [f|]; [|simpl; auto]. simpl.
  split; [apply length_heap_map_set|]. split.
  - now apply heap_get_map_set_eq.
  - intros l Hl. apply heap_get_map_set_ne. auto.
Qed.

Lemma batch_loop_spec reportId m us h c :
  (m < length h)%nat ->
  let h' := fst (fold_left (batch_step reportId m) us (h, c)) in
  length h' = length h /\
  heap_get h' m = fold_left (apply_update reportId) us (heap_get h m) /\
  (forall l, l <> m -> heap_get h' l = heap_get h l).
Proof.
  revert h c. induction us as [|u us IH]; intros h c Hm; [simpl; auto|].
  cbn [fold_left].
  destruct (batch_step_spec reportId m h c u Hm) as (Hlen & Hlive & Hother).
  destruct (batch_step reportId m (h, c) u) as [h1 c1]. cbn [fst] in *.
  destruct (IH h1 c1) as (Hlen' & Hlive' & Hother'); [lia|].
  split; [lia|]. split.
  - now rewrite Hlive', Hlive.
  - intros l Hl. now rewrite Hother', Hother.
Qed.

(** The state before the collaborator answers: the live map carries the
    updates, the snapshot is a separate map with the former contents. *)
Lemma optimistic_spec reportId us w :
  map_allocated w ->
  let '(w1, snapshot, _) := optimistic reportId us w in
  data w1 = data w /\ selection w1 = selection w /\ edit w1 = edit w /\
  (length (heap w) < length (heap w1))%nat /\
  metadata_of w1 = fold_left (apply_update reportId) us (metadata_of w) /\
  heap_get (heap w1) snapshot = metadata_of w.
Proof.
  intros Hm. unfold optimistic, heap_alloc, map_allocated in *.
  pose proof (batch_loop_spec reportId (cellMetadata (data w)) us
                (heap w ++ [metadata_of w]) ∅) as H.
  destruct (fold_left _ us _) as [h1 c1] eqn:E. simpl in H.
  destruct H as (Hlen & Hlive & Hother); [rewrite length_app; simpl; lia|].
  simpl. rewrite length_app in Hlen. simpl in Hlen.
  repeat split; try lia.
  - unfold metadata_of at 1. simpl. rewrite Hlive.
    now rewrite heap_get_alloc_old.
  - rewrite Hother by lia. apply heap_get_alloc_new.
Qed.

Lemma updateMultipleCellsFormatting_failure reportId us outcome w :
  map_allocated w -> succeeded outcome = false ->
  let w' := updateMultipleCellsFormatting reportId us outcome w in
  metadata_of w' = metadata_of w /\
  rows (data w') = rows (data w) /\ sections (data w') = sections (data w) /\
  columnOrder (data w') = columnOrder (data w) /\
  columnMapping (data w') = columnMapping (data w) /\
  selection w' = selection w /\ edit w' = edit w.
Proof.
  intros Hm Hfail. unfold updateMultipleCellsFormatting.
  destruct us as [|u us]; [simpl; auto 10|].
  pose proof (optimistic_spec reportId (u :: us) w Hm) as H.
  destruct (optimistic reportId (u :: us) w) as [[w1 snapshot] c].
  destruct H as (Hd & Hs & He & _ & _ & Hsnap).
  assert (settle (data w) snapshot outcome w1
          = setData (with_cellMetadata (data w) snapshot) w1) as ->.
  { unfold settle. destruct outcome as [r|t]; [|reflexivity].
    simpl in Hfail. now rewrite Hfail. }
  unfold metadata_of at 1. simpl. auto 10.
Qed.

Lemma updateMultipleCellsFormatting_success reportId us outcome w :
  map_allocated w -> succeeded outcome = true ->
  let w' := updateMultipleCellsFormatting reportId us outcome w in
  metadata_of w' = fold_left (apply_update reportId) us (metadata_of w) /\
  data w' = data w /\ selection w' = selection w /\ edit w' = edit w /\
  map_allocated w'.
Proof.
  intros Hm Hok. unfold updateMultipleCellsFormatting.
  destruct us as [|u us]; [simpl; auto|].
  pose proof (optimistic_spec reportId (u :: us) w Hm) as H.
  destruct (optimistic reportId (u :: us) w) as [[w1 snapshot] c].
  destruct H as (Hd & Hs & He & Hlen & Hlive & _).
  apply succeeded_inv in Hok as (r & -> & Hst).
  unfold settle. rewrite Hst. simpl.
  repeat split; auto. unfold map_allocated in *. rewrite Hd. lia.
Qed.

(** C2.  When the collaborator's batch write throws or answers with a
    status other than 200, the operation leaves [data.cellMetadata] with
    exactly the contents it had before the batch was applied, for every
    list of updates: each cell's metadata, and so its formatting, is what
    it was, none of the optimistic updates is kept, and nothing else of
    the grid state has changed. *)
Theorem failed_batch_restores_snapshot
        (reportId : string) (cellUpdates : list CellUpdate)
        (outcome : Outcome) (w : World) :
  map_allocated w -> succeeded outcome = false ->
  let w' := updateMultipleCellsFormatting reportId cellUpdates outcome w in
  metadata_of w' = metadata_of w /\
  (forall cellKey, metadata_of w' !! cellKey = metadata_of w !! cellKey) /\
  rows (data w') = rows (data w) /\ selection w' = selection w /\
  edit w' = edit w.
Proof.
  intros Hm Hfail w'.
  destruct (updateMultipleCellsFormatting_failure reportId cellUpdates
              outcome w Hm Hfail) as (Hmeta & Hrows & _ & _ & _ & Hsel & Hed).
  fold w' in Hmeta, Hrows, Hsel, Hed.
  repeat split; auto. intros k. now rewrite Hmeta.
Qed.

End BatchCommit.

Lemma failed_batch_restores_snapshot_witness :
  let updates :=
    [mkUpdate (mkPos 0 0) (Formatting.attribute_change Formatting.Bold false);
     mkUpdate (mkPos 0 1) (Formatting.attribute_change Formatting.Bold true);
     mkUpdate (mkPos 1 0) (Formatting.attribute_change Formatting.Italic true)] in
  let attempt outcome :=
    ReportData.updateMultipleCellsFormatting Formatting.REPORT_ID updates
                                            outcome Sample.world in
  metadata_of (attempt Sample.not_found) = Sample.cells /\
  metadata_of (attempt Sample.rejected) = Sample.cells /\
  metadata_of (attempt Sample.ok) <> Sample.cells.
Proof.
  intros updates attempt.
  assert (ReportData.map_allocated Sample.world) as Hm
      by (unfold ReportData.map_allocated; simpl; lia).
  split; [|split].
  - apply (failed_batch_restores_snapshot Formatting.REPORT_ID updates
             Sample.not_found Sample.world Hm eq_refl).
  - apply (failed_batch_restores_snapshot Formatting.REPORT_ID updates
             Sample.rejected Sample.world Hm eq_refl).
  - intros H. apply (f_equal (fun m => m !! "report1000:0:1")) in H.
    vm_compute in H. discriminate.
Defined.

(** ** Toggling a formatting attribute *)

Section Toggle.

Import Formatting ReportData.

Variable t : FormattingType.

Lemma get_attribute_merge f v :
  get_attribute t (merge_formatting f (attribute_change t v)) = Some v.
Proof. destruct t; reflexivity. Qed.

Lemma merge_formatting_twice f v :
  merge_formatting (merge_formatting f (attribute_change t v))
                   (attribute_change t v)
  = merge_formatting f (attribute_change t v).
Proof. destruct t; reflexivity. Qed.

Lemma merge_formatting_overwrite f a b :
  merge_formatting (merge_formatting f (attribute_change t a))
                   (attribute_change t b)
  = merge_formatting f (attribute_change t b).
Proof. destruct t; reflexivity. Qed.

Lemma merge_formatting_same f b :
  get_attribute t f = Some b ->
  merge_formatting f (attribute_change t b) = f.
Proof. destruct t, f; simpl; intros ->; reflexivity. Qed.

(** What the command reads for a cell depends on the cell's key only. *)
Lemma currentValue_by_key (m : MetadataMap) cell :
  currentValue t m cell =
  match m !! key_of cell with
  | Some cm =>
      match formatting cm with
      | Some f => match get_attribute t f with Some b => b | None => false end
      | None => false
      end
  | None => false
  end.
Proof. reflexivity. Qed.

(** One turn of the loop for the update built for [x] from [m0], on a map
    [n] whose entry at the key of [x] is the one of [m0], flipped or not. *)
Lemma apply_toggle_update (m0 n : MetadataMap) x :
  n !! key_of x = m0 !! key_of x \/ n !! key_of x = flipped_entry t m0 (key_of x) ->
  apply_update REPORT_ID n (toggle_update t m0 x)
  = match flipped_entry t m0 (key_of x) with
    | Some e => <[key_of x := e]> n
    | None => n
    end.
Proof.
  intros Hn. unfold apply_update. cbn [cu_position toggle_update cu_formatting].
  fold (key_of x). rewrite currentValue_by_key.
  unfold flipped_entry in *.
  destruct (m0 !! key_of x) as [cm|] eqn:E0.
  2:{ destruct Hn as [-> | ->]; reflexivity. }
  destruct (formatting cm) as [f|] eqn:Ef.
  2:{ destruct Hn as [Hn | Hn]; rewrite Hn, Ef; symmetry; now apply insert_id. }
  destruct Hn as [Hn | Hn]; rewrite Hn; simpl.
  - now rewrite Ef.
  - rewrite merge_formatting_twice. reflexivity.
Qed.

(** A pass over the selected cells in which each turn writes, at the key
    of its cell, the entry of [m0] flipped: the keys of the cells end up
    flipped once, relative to [m0], however often a cell occurs; the other
    keys are untouched. *)
Lemma flipping_pass (m0 : MetadataMap)
      (turn : MetadataMap -> CellPosition -> MetadataMap) :
  (forall n x,
      n !! key_of x = m0 !! key_of x \/
      n !! key_of x = flipped_entry t m0 (key_of x) ->
      turn n x = match flipped_entry t m0 (key_of x) with
                 | Some e => <[key_of x := e]> n
                 | None => n
                 end) ->
  forall cells k,
    fold_left turn cells m0 !! k
    = if decide (k ∈ map key_of cells) then flipped_entry t m0 k else m0 !! k.
Proof.
  intros Hturn.
  induction cells as [|x cells IH] using rev_ind; intros k.
  - simpl. destruct (decide (k ∈ [])) as [Hin|]; [|reflexivity].
    now apply elem_of_nil in Hin.
  - rewrite map_app, fold_left_app. simpl.
    set (n := fold_left turn cells m0) in *.
    rewrite Hturn.
    2:{ rewrite (IH (key_of x)). destruct (decide _); auto. }
    assert (k ∈ map key_of cells ++ [key_of x]
            <-> k ∈ map key_of cells \/ k = key_of x) as Hmem.
    { rewrite elem_of_app, list_elem_of_singleton. reflexivity. }
    destruct (decide (k = key_of x)) as [->|Hne].
    + rewrite decide_True by (apply Hmem; auto).
      destruct (flipped_entry t m0 (key_of x)) as [e|] eqn:Ee.
      * apply lookup_insert_eq.
      * rewrite IH. destruct (decide _); [exact Ee|].
        unfold flipped_entry in Ee.
        destruct (m0 !! key_of x) as [cm|]; [|reflexivity].
        destruct (formatting cm); discriminate.
    + assert ((match flipped_entry t m0 (key_of x) with
               | Some e => <[key_of x := e]> n
               | None => n
               end) !! k = n !! k) as ->.
      { destruct (flipped_entry t m0 (key_of x)); [|reflexivity].
        now apply lookup_insert_ne. }
      rewrite IH.
      destruct (decide (k ∈ map key_of cells)) as [Hin|Hin].
      * rewrite decide_True by (apply Hmem; auto). reflexivity.
      * rewrite decide_False; [reflexivity|].
        intros H. apply Hmem in H as [H|H]; contradiction.
Qed.

Lemma fold_left_map {A B C} (f : A -> B -> A) (g : C -> B) (l : list C) (a : A) :
  fold_left f (map g l) a = fold_left (fun x c => f x (g c)) l a.
Proof. revert a. induction l as [|c l IH]; intros a; simpl; auto. Qed.

(** The batch loop over the updates the command built from [m0]. *)
Lemma toggle_pass (m0 : MetadataMap) (cells : list CellPosition) :
  forall k,
    fold_left (apply_update REPORT_ID) (map (toggle_update t m0) cells) m0 !! k
    = if decide (k ∈ map key_of cells) then flipped_entry t m0 k else m0 !! k.
Proof.
  rewrite fold_left_map. apply flipping_pass.
  intros n x Hn. now apply apply_toggle_update.
Qed.

(** The single-cell requests the command built from [m0], all read from
    the world [w] before any of them settles. *)
Lemma single_request_toggle w x :
  single_request REPORT_ID w (toggle_update t (metadata_of w) x)
  = match metadata_of w !! key_of x with
    | Some cm =>
        match formatting cm with
        | Some _ =>
            match flipped_entry t (metadata_of w) (key_of x) with
            | Some e => Some (key_of x, e)
            | None => None
            end
        | None => None
        end
    | None => None
    end.
Proof.
  unfold single_request. cbn [cu_position toggle_update cu_formatting].
  fold (key_of x). rewrite currentValue_by_key. unfold flipped_entry.
  destruct (metadata_of w !! key_of x) as [cm|]; [|reflexivity].
  now destruct (formatting cm).
Qed.

Lemma toggle_requests_pass w (cells : list CellPosition) :
  forall k,
    fold_left apply_pending
              (map (single_request REPORT_ID w)
                   (map (toggle_update t (metadata_of w)) cells))
              (metadata_of w) !! k
    = if decide (k ∈ map key_of cells)
      then flipped_entry t (metadata_of w) k else metadata_of w !! k.
Proof.
  rewrite map_map, fold_left_map. apply flipping_pass.
  intros n x Hn. rewrite single_request_toggle. unfold flipped_entry in *.
  destruct (metadata_of w !! key_of x) as [cm|]; [|reflexivity].
  destruct (formatting cm) as [f|] eqn:Ef; [reflexivity|]. simpl.
  destruct Hn as [Hn|Hn]; symmetry; now apply insert_id.
Qed.

Lemma settle_all_success d pending backend i w :
  (forall j, succeeded (backend j) = true) ->
  data w = d -> map_allocated w ->
  let w' := settle_all d pending backend i w in
  metadata_of w' = fold_left apply_pending pending (metadata_of w) /\
  data w' = d /\ selection w' = selection w /\ edit w' = edit w /\
  map_allocated w'.
Proof.
  intros Hok. revert i w.
  induction pending as [|p pending IH]; intros i w Hd Hm; [simpl; auto|].
  cbn [settle_all fold_left].
  assert (metadata_of (single_settle d p (backend i) w)
          = apply_pending (metadata_of w) p /\
          data (single_settle d p (backend i) w) = d /\
          selection (single_settle d p (backend i) w) = selection w /\
          edit (single_settle d p (backend i) w) = edit w /\
          map_allocated (single_settle d p (backend i) w))
    as (Hmeta & Hd' & Hs & He & Hm').
  { unfold single_settle. destruct p as [[k v]|]; [|simpl; auto].
    rewrite Hok. unfold metadata_of, map_allocated in *. simpl. subst d.
    rewrite heap_get_map_set_eq, length_heap_map_set by exact Hm. auto. }
  destruct (IH (Datatypes.S i) _ Hd' Hm') as (H1 & H2 & H3 & H4 & H5).
  rewrite H1, Hmeta, H3, H4, Hs, He. auto.
Qed.

Lemma flipped_entry_absent (m : MetadataMap) k :
  m !! k = None -> flipped_entry t m k = None.
Proof. intros H. unfold flipped_entry. now rewrite H. Qed.

Lemma flipped_entry_plain (m : MetadataMap) k cm :
  m !! k = Some cm -> formatting cm = None -> flipped_entry t m k = Some cm.
Proof. intros H Hf. unfold flipped_entry. now rewrite H, Hf. Qed.

Lemma flipped_entry_formatted (m : MetadataMap) k cm f :
  m !! k = Some cm -> formatting cm = Some f ->
  flipped_entry t m k =
  Some (with_formatting cm
          (merge_formatting f
             (attribute_change t
                (negb match get_attribute t f with
                      | Some b => b
                      | None => false
                      end)))).
Proof. intros H Hf. unfold flipped_entry. now rewrite H, Hf. Qed.

Lemma toggle_command_success have_batch backend w :
  map_allocated w -> (forall i, succeeded (backend i) = true) ->
  let w' := toggle_command t have_batch backend w in
  (forall k,
      metadata_of w' !! k =
      if decide (k ∈ map key_of (getSelectedCells (selection w)))
      then flipped_entry t (metadata_of w) k else metadata_of w !! k) /\
  selection w' = selection w /\ map_allocated w'.
Proof.
  intros Hm Hok w'. subst w'. unfold toggle_command, perform.
  destruct have_batch; cbn [applyFormattingToSelection].
  - destruct (updateMultipleCellsFormatting_success REPORT_ID
                (map (toggle_update t (metadata_of w))
                     (getSelectedCells (selection w)))
                (backend O) w Hm (Hok O)) as (Hmeta & _ & Hsel & _ & Hm').
    split; [|split; assumption].
    intros k. rewrite Hmeta. apply toggle_pass.
  - destruct (settle_all_success (data w)
                (map (single_request REPORT_ID w)
                     (map (toggle_update t (metadata_of w))
                          (getSelectedCells (selection w))))
                backend O w Hok eq_refl Hm) as (Hmeta & _ & Hsel & _ & Hm').
    split; [|split; assumption].
    intros k. rewrite Hmeta. apply toggle_requests_pass.
Qed.

Lemma key_of_selected cell cells : In cell cells -> key_of cell ∈ map key_of cells.
Proof.
  intros Hin. apply list_elem_of_In. now apply in_map.
Qed.

(** What the command reads after one flip of the key of [cell]. *)
Lemma currentValue_flipped (m m' : MetadataMap) cell :
  m' !! key_of cell = flipped_entry t m (key_of cell) ->
  currentValue t m' cell =
  match m !! key_of cell with
  | Some cm =>
      match formatting cm with
      | Some _ => negb (currentValue t m cell)
      | None => false
      end
  | None => false
  end.
Proof.
  intros Hm'. rewrite !currentValue_by_key, Hm'. unfold flipped_entry.
  destruct (m !! key_of cell) as [cm|]; [|reflexivity].
  destruct (formatting cm) as [f|] eqn:Ef; simpl; [|now rewrite Ef].
  now rewrite get_attribute_merge.
Qed.

(** C7.  The toggle command applied twice in a row, with the batch writer
    or cell by cell, all writes succeeding: for every selected cell, the value the command reads for
    the attribute (an absent attribute reads false) is after the second
    toggle what it was before the first.  Each toggle flips each cell's own
    value: after one toggle a selected cell that has formatting metadata
    reads the negation of its own former value, whatever the other cells
    held, and stores it; after two it stores its former value, and when
    the attribute was set before, the cell's whole metadata entry is
    identical to the former one. *)
Theorem toggle_twice_restores (have_batch : bool)
        (backend1 backend2 : nat -> Outcome) (w : World) :
  map_allocated w ->
  (forall i, succeeded (backend1 i) = true) ->
  (forall i, succeeded (backend2 i) = true) ->
  let w1 := toggle_command t have_batch backend1 w in
  let w2 := toggle_command t have_batch backend2 w1 in
  forall cell, In cell (getSelectedCells (selection w)) ->
    currentValue t (metadata_of w2) cell = currentValue t (metadata_of w) cell /\
    (has_formatting (metadata_of w) cell ->
     currentValue t (metadata_of w1) cell
     = negb (currentValue t (metadata_of w) cell) /\
     stored_attribute t (metadata_of w1) cell
     = Some (negb (currentValue t (metadata_of w) cell)) /\
     stored_attribute t (metadata_of w2) cell
     = Some (currentValue t (metadata_of w) cell)) /\
    (forall b, stored_attribute t (metadata_of w) cell = Some b ->
               metadata_of w2 !! key_of cell = metadata_of w !! key_of cell).
Proof.
  intros Hm Hok1 Hok2 w1 w2 cell Hin.
  destruct (toggle_command_success have_batch backend1 w Hm Hok1)
    as (H1 & Hsel1 & Hm1).
  fold w1 in H1, Hsel1, Hm1.
  destruct (toggle_command_success have_batch backend2 w1 Hm1 Hok2)
    as (H2 & _ & _).
  fold w2 in H2. rewrite Hsel1 in H2.
  specialize (H1 (key_of cell)). specialize (H2 (key_of cell)).
  rewrite decide_True in H1, H2 by now apply key_of_selected.
  unfold stored_attribute, has_formatting. fold (key_of cell).
  rewrite !currentValue_by_key.
  destruct (metadata_of w !! key_of cell) as [cm|] eqn:E0.
  2:{ rewrite (flipped_entry_absent _ _ E0) in H1.
      rewrite (flipped_entry_absent _ _ H1) in H2. rewrite H2.
      split; [reflexivity|]. split; [|discriminate].
      intros (cm & f & Hcm & _). discriminate. }
  destruct (formatting cm) as [f|] eqn:Ef.
  2:{ rewrite (flipped_entry_plain _ _ _ E0 Ef) in H1.
      rewrite (flipped_entry_plain _ _ _ H1 Ef) in H2. rewrite H2, Ef.
      split; [reflexivity|]. split; [|discriminate].
      intros (cm' & f' & Hcm & Hf). congruence. }
  rewrite (flipped_entry_formatted _ _ _ _ E0 Ef) in H1.
  rewrite (flipped_entry_formatted _ _ _ _ H1 eq_refl) in H2.
  rewrite H1, H2. cbn [formatting with_formatting].
  rewrite !get_attribute_merge, negb_involutive.
  split; [reflexivity|]. split; [intros _; repeat split; reflexivity|].
  intros b Hb. rewrite Hb, merge_formatting_overwrite.
  rewrite (merge_formatting_same f b Hb).
  f_equal. destruct cm; simpl in *. now rewrite Ef.
Qed.

End Toggle.

Lemma toggle_twice_restores_witness :
  let t := Formatting.Bold in
  let s := Selection.selectRange (mkPos 0 0) (mkPos 1 1) Selection.initial in
  let w := set_selection s Sample.world in
  let w1 := ReportData.toggle_command t true (fun _ => Sample.ok) w in
  let w2 := ReportData.toggle_command t true (fun _ => Sample.ok) w1 in
  let reads x cell := Formatting.currentValue t (metadata_of x) cell in
  (reads w (mkPos 0 0), reads w (mkPos 0 1), reads w (mkPos 1 0))
  = (true, false, false) /\
  (reads w1 (mkPos 0 0), reads w1 (mkPos 0 1), reads w1 (mkPos 1 0))
  = (false, true, true) /\
  reads w2 (mkPos 0 0) = reads w (mkPos 0 0) /\
  reads w2 (mkPos 0 1) = reads w (mkPos 0 1) /\
  reads w2 (mkPos 1 0) = reads w (mkPos 1 0) /\
  ReportData.stored_attribute t (metadata_of w) (mkPos 1 0) = None /\
  ReportData.stored_attribute t (metadata_of w2) (mkPos 1 0) = Some false.
Proof.
  intros t s w w1 w2 reads.
  assert (ReportData.map_allocated w) as Hm
      by (unfold ReportData.map_allocated; simpl; lia).
  pose proof (toggle_twice_restores t true (fun _ => Sample.ok)
                (fun _ => Sample.ok) w Hm (fun _ => eq_refl) (fun _ => eq_refl))
    as H.
  cbv zeta in H. fold w1 in H. fold w2 in H.
  split; [reflexivity|]. split; [reflexivity|].
  split; [apply (H (mkPos 0 0)); vm_compute; auto|].
  split; [apply (H (mkPos 0 1)); vm_compute; auto|].
  split; [apply (H (mkPos 1 0)); vm_compute; auto 6|].
  split; [reflexivity|].
  destruct (H (mkPos 1 0)) as (_ & Hfmt); [vm_compute; auto 6|].
  apply Hfmt. eexists _, _. split; reflexivity.
Defined.
(** ** The router on the sample report *)

(** Ctrl+B on the router is the toggle command for bold. *)
Lemma ctrl_b_is_toggle_bold number_toString totalRows totalColumns backend w :
  Keyboard.shortcut Formatting.REPORT_ID true backend
                    (Keyboard.mkKey "b" true false false) w
  = Some (ReportData.toggle_command Formatting.Bold true backend w) /\
  forall currentCell,
    Selection.getCurrentCell (selection w) = Some currentCell ->
    editingCell (edit w) = None ->
    Keyboard.handleKeyDown number_toString Formatting.REPORT_ID true
                           totalRows totalColumns backend
                           (Keyboard.mkKey "b" true false false) w
    = (ReportData.toggle_command Formatting.Bold true backend w, true).
Proof.
  split; [reflexivity|]. intros currentCell Hcur Hedit.
  unfold Keyboard.handleKeyDown. now rewrite Hcur, Hedit.
Qed.

Lemma handleKeyDown_without_current_cell_witness :
  let s := Selection.run [Selection.OpToggleCellSelection (mkPos 0 0);
                          Selection.OpToggleCellSelection (mkPos 0 1)] in
  let w := set_edit (mkEdit (Some (mkPos 0 1)) "2500" true None false)
                    (set_selection s Sample.world) in
  Selection.getCurrentCell (selection w) = None /\
  Keyboard.grid_handleKeyDown Sample.print_whole (fun _ => Sample.ok)
                              (Keyboard.mkKey "Enter" false false false) w
  = (w, false) /\
  Keyboard.grid_handleKeyDown Sample.print_whole (fun _ => Sample.ok)
                              (Keyboard.mkKey "b" true false false) w
  = (w, false).
Proof.
  intros s w. split; [reflexivity|].
  split; unfold Keyboard.grid_handleKeyDown;
    apply handleKeyDown_without_current_cell; reflexivity.
Defined.


(** * Further properties of the code *)

(** ** Selection engine: shape of the selection *)

Section SelectionShape.

Import Selection Formatting Shape.

Lemma same_cell_false a b : same_cell a b = false <-> a <> b.
Proof.
  rewrite <- same_cell_spec. destruct (same_cell a b); split; intros H;
    try discriminate; try reflexivity; try (intros E; discriminate E).
  now destruct H.
Qed.

Lemma existsb_same_cell l p :
  existsb (fun c => same_cell c p) l = true <-> In p l.
Proof.
  rewrite existsb_exists. split.
  - intros [x [Hin Hx]]. apply same_cell_spec in Hx. now subst.
  - intros Hin. exists p. split; [exact Hin | apply same_cell_refl].
Qed.

Lemma filter_index_from_all {A} keep (l : list A) i :
  (forall j, i <= j < i + Z.of_nat (length l) -> keep j = true) ->
  filter_index_from keep l i = l.
Proof.
  revert i. induction l as [|x l IH]; intros i H; simpl; [reflexivity|].
  rewrite H by (simpl length; lia). f_equal. apply IH.
  intros j Hj. apply H. simpl length. lia.
Qed.

(** [findIndex] followed by the filter on the index removes the first
    element that satisfies the test. *)
Lemma findIndex_filter {A} (f : A -> bool) (l : list A) i :
  0 <= i ->
  (findIndex_from f l i = -1 /\ forall x, In x l -> f x = false) \/
  (exists l1 x l2, l = l1 ++ x :: l2 /\ f x = true /\
     (forall y, In y l1 -> f y = false) /\
     findIndex_from f l i = i + Z.of_nat (length l1) /\
     filter_index_from (fun j => negb (j =? findIndex_from f l i)) l i
     = l1 ++ l2).
Proof.
  revert i. induction l as [|x l IH]; intros i Hi.
  - left. split; [reflexivity | intros x []].
  - simpl. destruct (f x) eqn:Hx.
    + right. exists [], x, l. simpl. rewrite Z.eqb_refl. simpl.
      repeat split; try easy; try lia.
      apply filter_index_from_all. intros j Hj.
      apply negb_true_iff, Z.eqb_neq. lia.
    + destruct (IH (i + 1)) as [[Hn Hall] | (l1 & y & l2 & -> & Hy & Hl1 & Hk & Hf)];
        [lia | |].
      * left. split; [exact Hn|]. intros z [<- | Hz]; auto.
      * right. exists (x :: l1), y, l2. simpl.
        repeat split; try easy.
        -- intros z [<- | Hz]; auto.
        -- rewrite Hk. lia.
        -- replace (i =? _) with false
             by (symmetry; apply Z.eqb_neq; rewrite Hk; lia).
           simpl. f_equal. exact Hf.
Qed.

Lemma NoDup_remove_middle (l1 l2 : list CellPosition) p :
  NoDup (l1 ++ p :: l2) ->
  NoDup (l1 ++ l2) /\ forall q, In q (l1 ++ l2) <-> In q (l1 ++ p :: l2) /\ q <> p.
Proof.
  intros H. apply NoDup_ListNoDup in H. apply List.NoDup_remove in H as [Hnd Hnot].
  split; [now apply NoDup_ListNoDup|].
  intros q. rewrite !in_app_iff. simpl. rewrite in_app_iff in Hnot.
  split.
  - intros Hq. split; [tauto|]. intros ->. tauto.
  - intros [[H1 | [<- | H2]] Hne]; tauto.
Qed.

(** What [toggleCellSelection] makes of a multiple selection. *)
Lemma toggle_multiple prev sc l p :
  selectedCells prev = Some sc -> sel_type sc = TyMultiple ->
  multiple sc = Some l ->
  (~ In p l /\
   toggleCellSelection p prev = with_selected prev (Some (multiple_of (l ++ [p]))))
  \/
  (exists l1 l2, l = l1 ++ p :: l2 /\ ~ In p l1 /\
     toggleCellSelection p prev =
       with_selected prev
         match l1 ++ l2 with
         | [] => None
         | [c] => Some (single_of c)
         | l' => Some (multiple_of l')
         end).
Proof.
  intros Hsel Hty Hl. unfold toggleCellSelection. rewrite Hsel, Hty, Hl.
  unfold findIndex, filter_index.
  destruct (findIndex_filter (fun c => same_cell c p) l 0) as
    [[Hn Hall] | (l1 & x & l2 & -> & Hx & Hl1 & Hk & Hf)]; [lia | |].
  - left. rewrite Hn. simpl. split; [|reflexivity].
    intros Hin. apply Hall in Hin. rewrite same_cell_refl in Hin. discriminate.
  - right. apply same_cell_spec in Hx. subst x. exists l1, l2.
    split; [reflexivity|]. split.
    + intros Hin. apply Hl1 in Hin. rewrite same_cell_refl in Hin. discriminate.
    + rewrite Hf. replace (_ =? -1) with false
        by (symmetry; apply Z.eqb_neq; rewrite Hk; lia).
      simpl. destruct (l1 ++ l2) as [|c [|c' l']]; reflexivity.
Qed.

Lemma built_toggle p s :
  built (selectedCells s) -> built (selectedCells (toggleCellSelection p s)).
Proof.
  intros H. inversion H as [Hs | q Hs | r Hs | l Hnd Hlen Hs]; symmetry in Hs.
  - unfold toggleCellSelection. rewrite Hs. constructor.
  - unfold toggleCellSelection. rewrite Hs. simpl.
    destruct (same_cell q p) eqn:E; simpl; constructor.
    + apply same_cell_false in E. apply NoDup_ListNoDup.
      repeat constructor; simpl; [intros [F | []]; congruence | tauto].
    + simpl. lia.
  - unfold toggleCellSelection. rewrite Hs. simpl. constructor.
  - destruct (toggle_multiple s (multiple_of l) l p Hs eq_refl eq_refl)
      as [[Hnot ->] | (l1 & l2 & -> & Hl1 & ->)]; simpl.
    + constructor.
      * apply NoDup_app. split; [exact Hnd|]. split.
        -- intros x Hx Hp. apply list_elem_of_singleton in Hp. subst.
           apply Hnot. now apply list_elem_of_In.
        -- apply NoDup_singleton.
      * rewrite length_app. simpl. lia.
    + apply NoDup_remove_middle in Hnd as [Hnd _].
      destruct (l1 ++ l2) as [|c [|c' l']] eqn:E; constructor.
      * exact Hnd.
      * simpl. lia.
Qed.

Lemma consistent_step s o : consistent s -> consistent (step s o).
Proof.
  intros [Hb Hf]. unfold consistent, drag_flags in *.
  destruct o; simpl.
  - split; [constructor | split; [discriminate | intros H; now destruct H]].
  - split; [constructor | split; [discriminate | intros H; now destruct H]].
  - split; [now apply built_toggle|].
    unfold toggleCellSelection.
    destruct (selectedCells s) as [sc|]; [|exact Hf].
    destruct (sel_type sc), (single sc), (multiple sc); simpl; try exact Hf;
      repeat match goal with
             | |- context [if ?b then _ else _] => destruct b
             | |- context [match ?l with [] => _ | _ => _ end] => destruct l
             end; simpl; exact Hf.
  - split; [constructor | split; [discriminate | reflexivity]].
  - unfold updateSelection.
    destruct (isSelecting s) eqn:Hsel;
      [|split; [exact Hb | rewrite Hsel; exact Hf]].
    destruct (selectionStart s) as [st|] eqn:Hst;
      [|split; [exact Hb | rewrite Hsel, Hst; exact Hf]].
    destruct (same_cell st p); simpl; (split; [constructor|]);
      rewrite ?Hsel, ?Hst; (split; [intros _; discriminate | reflexivity]).
  - split; [exact Hb | split; [discriminate | intros H; now destruct H]].
  - split; [constructor | split; [discriminate | intros H; now destruct H]].
  - unfold navigateWithinRange.
    destruct (selectedCells s) as [sc|] eqn:Hs;
      [|simpl; rewrite ?Hs; split; assumption].
    destruct (activeCell s); [|simpl; rewrite ?Hs; split; assumption].
    destruct (sel_type sc), (range sc); simpl; rewrite ?Hs; split; assumption.
Qed.

(** X1.  Whatever operations are run from the initial state, the selection
    is absent or one of the three shapes with exactly the payload of its
    tag, a multiple selection holds at least two cells and no cell twice,
    and [isSelecting] is true exactly when [selectionStart] is set. *)
Theorem reachable_selection_is_consistent ops : consistent (run ops).
Proof.
  unfold run.
  assert (consistent initial) as H0.
  { split; [constructor | split; [discriminate | intros H; now destruct H]]. }
  revert H0. generalize initial. induction ops as [|o ops IH]; intros s Hs.
  - exact Hs.
  - simpl. apply IH. now apply consistent_step.
Qed.

Lemma not_range_toggle p s :
  built (selectedCells s) -> not_range s -> not_range (toggleCellSelection p s).
Proof.
  intros Hb _ sc Hsc Hty.
  pose proof (built_toggle p s Hb) as Hb'.
  assert (exists r, selectedCells (toggleCellSelection p s) = Some (range_of r))
    as [r Hr].
  { inversion Hb' as [E | q E | r E | l ? ? E]; rewrite <- E in Hsc;
      inversion Hsc; subst; try discriminate. now exists r. }
  clear Hsc Hty sc Hb'. revert Hr.
  inversion Hb as [Hs | q Hs | r' Hs | l Hnd Hlen Hs]; symmetry in Hs.
  - unfold toggleCellSelection. rewrite Hs. discriminate.
  - unfold toggleCellSelection. rewrite Hs. simpl.
    destruct (same_cell q p); discriminate.
  - unfold toggleCellSelection. rewrite Hs. discriminate.
  - destruct (toggle_multiple s (multiple_of l) l p Hs eq_refl eq_refl)
      as [[Hnot ->] | (l1 & l2 & -> & Hl1 & ->)]; simpl; [discriminate|].
    destruct (l1 ++ l2) as [|c [|c' l']]; discriminate.
Qed.

Lemma toggle_membership p s q :
  built (selectedCells s) -> not_range s ->
  isCellSelected (toggleCellSelection p s) q =
  if same_cell p q then negb (isCellSelected s p) else isCellSelected s q.
Proof.
  intros Hb Hnr.
  inversion Hb as [Hs | c Hs | r Hs | l Hnd Hlen Hs]; symmetry in Hs.
  - unfold toggleCellSelection, isCellSelected. rewrite Hs. simpl.
    destruct (same_cell p q); reflexivity.
  - unfold toggleCellSelection, isCellSelected at 2 3. rewrite Hs. simpl.
    destruct (same_cell c p) eqn:E.
    + apply same_cell_spec in E. subst c. unfold isCellSelected. simpl.
      destruct (same_cell p q); reflexivity.
    + unfold isCellSelected. simpl. rewrite orb_false_r.
      destruct (same_cell p q) eqn:E'; [apply orb_true_r | apply orb_false_r].
  - exfalso. now apply (Hnr (range_of r)).
  - destruct (toggle_multiple s (multiple_of l) l p Hs eq_refl eq_refl)
      as [[Hnot ->] | (l1 & l2 & -> & Hl1 & ->)].
    + unfold isCellSelected. rewrite Hs. simpl. rewrite existsb_app. simpl.
      rewrite orb_false_r.
      assert (existsb (fun c => same_cell c p) l = false) as ->.
      { apply not_true_is_false. rewrite existsb_same_cell. exact Hnot. }
      simpl. destruct (same_cell p q) eqn:E.
      * apply orb_true_r.
      * apply orb_false_r.
    + apply NoDup_remove_middle in Hnd as [Hnd Hmem].
      assert (isCellSelected s p = true) as Hp.
      { unfold isCellSelected. rewrite Hs. simpl. apply existsb_same_cell.
        apply in_app_iff. right. now left. }
      rewrite Hp. simpl.
      assert (isCellSelected s q = existsb (fun c => same_cell c q) (l1 ++ p :: l2))
        as Hq by (unfold isCellSelected; now rewrite Hs).
      rewrite Hq.
      assert (isCellSelected
                (with_selected s
                   match l1 ++ l2 with
                   | [] => None
                   | [c] => Some (single_of c)
                   | l' => Some (multiple_of l')
                   end) q = existsb (fun c => same_cell c q) (l1 ++ l2)) as ->.
      { unfold isCellSelected. destruct (l1 ++ l2) as [|c [|c' l']]; simpl;
          try reflexivity. now rewrite orb_false_r. }
      apply eq_true_iff_eq. rewrite existsb_same_cell, Hmem.
      destruct (same_cell p q) eqn:E.
      * apply same_cell_spec in E. subst q. split; [tauto | discriminate].
      * apply same_cell_false in E. rewrite existsb_same_cell.
        split; [tauto|]. intros H; split; [exact H | congruence].
Qed.

(** X2.  On a selection that is not a range, Ctrl+click on [p] flips
    whether [p] is selected and leaves every other cell as it was; a
    second Ctrl+click on [p] gives back the original set of selected
    cells. *)
Theorem toggleCellSelection_flips_membership p s :
  built (selectedCells s) -> not_range s ->
  (forall q, isCellSelected (toggleCellSelection p s) q =
             if same_cell p q then negb (isCellSelected s p)
             else isCellSelected s q) /\
  (forall q, isCellSelected (toggleCellSelection p (toggleCellSelection p s)) q
             = isCellSelected s q).
Proof.
  intros Hb Hnr. split.
  - intros q. now apply toggle_membership.
  - intros q.
    rewrite toggle_membership
      by (try apply built_toggle; try apply not_range_toggle; assumption).
    rewrite (toggle_membership p s p), same_cell_refl by assumption.
    destruct (same_cell p q) eqn:E.
    + apply same_cell_spec in E. subst q. apply negb_involutive.
    + now rewrite toggle_membership, E.
Qed.

Lemma toggleCellSelection_flips_membership_witness :
  let s := toggleCellSelection (mkPos 2 2)
             (toggleCellSelection (mkPos 0 1) (selectCell (mkPos 0 0) initial)) in
  isCellSelected (toggleCellSelection (mkPos 0 1) s) (mkPos 0 1) = false /\
  isCellSelected (toggleCellSelection (mkPos 0 1) s) (mkPos 2 2) = true.
Proof.
  intros s.
  assert (built (selectedCells s)) as Hb.
  { apply (built_multiple [mkPos 0 0; mkPos 0 1; mkPos 2 2]).
    - apply NoDup_ListNoDup. repeat constructor; simpl; intuition discriminate.
    - simpl. lia. }
  assert (not_range s) as Hnr.
  { intros sc Hsc. injection Hsc as <-. discriminate. }
  destruct (toggleCellSelection_flips_membership (mkPos 0 1) s Hb Hnr) as [H _].
  split; [exact (H (mkPos 0 1)) | exact (H (mkPos 2 2))].
Defined.

End SelectionShape.

(** ** Selection engine: dragging *)

Section Dragging.

Import Selection Formatting Shape.

Lemma last_cons {A} (x : A) l d : List.last (x :: l) d = List.last l x.
Proof.
  revert x d. induction l as [|y l IH]; intros x d; [reflexivity|].
  change (List.last (x :: y :: l) d) with (List.last (y :: l) d).
  now rewrite (IH y d), (IH y x).
Qed.

Lemma updateSelection_dragging a c p :
  updateSelection p (dragging a c) = dragging a p.
Proof.
  unfold updateSelection, dragging. simpl.
  destruct (same_cell a p); reflexivity.
Qed.

Lemma startSelection_dragging a s : startSelection a s = dragging a a.
Proof. unfold startSelection, dragging. now rewrite same_cell_refl. Qed.

Lemma dragging_fold a path c :
  fold_left (fun st p => updateSelection p st) path (dragging a c)
  = dragging a (List.last path c).
Proof.
  revert c. induction path as [|p path IH]; intros c; [reflexivity|].
  cbn [fold_left]. rewrite updateSelection_dragging, IH, last_cons.
  reflexivity.
Qed.

Lemma updateSelection_idle_fold path s :
  isSelecting s = false ->
  fold_left (fun st p => updateSelection p st) path s = s.
Proof.
  intros H. induction path as [|p path IH]; [reflexivity|].
  cbn [fold_left]. unfold updateSelection at 2. rewrite H. exact IH.
Qed.

Lemma box_cells_sym a b : box_cells (mkRange a b) = box_cells (mkRange b a).
Proof.
  unfold box_cells, width, height, minRow, maxRow, minCol, maxCol. simpl.
  rewrite (Z.min_comm (row a)), (Z.max_comm (row a)),
          (Z.min_comm (column a)), (Z.max_comm (column a)).
  reflexivity.
Qed.

Lemma getSelectedCells_dragging a p :
  getSelectedCells (endSelection (dragging a p)) =
  if same_cell a p then [p] else box_cells (mkRange a p).
Proof.
  destruct (same_cell a p) eqn:E.
  - unfold getSelectedCells, dragging. simpl. now rewrite E.
  - apply getSelectedCells_range with (sc := range_of (mkRange a p));
      try reflexivity.
    unfold dragging. simpl. now rewrite E.
Qed.

(** X3.  A drag has no memory of the cells it crossed: after a press on
    [a] and any moves, the selection is the single cell [a] when the
    pointer is on [a] and otherwise the range from [a] to the cell the
    pointer is on, with [a] active; moves after the release change
    nothing; and dragging from [a] to [b] selects the same cells, in the
    same order, as dragging from [b] to [a]. *)
Theorem drag_depends_on_endpoints_only a path s :
  fold_left (fun st p => updateSelection p st) path (startSelection a s)
    = dragging a (List.last path a) /\
  (forall later,
     fold_left (fun st p => updateSelection p st) later (drag a path s)
     = endSelection (dragging a (List.last path a))) /\
  (forall b path',
     getSelectedCells (drag a (path ++ [b]) s)
     = getSelectedCells (drag b (path' ++ [a]) s)).
Proof.
  split; [|split].
  - rewrite startSelection_dragging. apply dragging_fold.
  - intros later. unfold drag.
    rewrite startSelection_dragging, dragging_fold.
    now apply updateSelection_idle_fold.
  - intros b path'. unfold drag.
    rewrite !startSelection_dragging, !dragging_fold, !List.last_last,
            !getSelectedCells_dragging.
    destruct (same_cell a b) eqn:E.
    + apply same_cell_spec in E. subst b. now rewrite same_cell_refl.
    + assert (same_cell b a = false) as ->.
      { apply same_cell_false. apply same_cell_false in E. congruence. }
      apply box_cells_sym.
Qed.

End Dragging.

(** ** How a cell is shown *)

Section Presentation.

Import Selection Formatting Shape Cell.

Lemma isCellInRange_range s sc r p :
  selectedCells s = Some sc -> sel_type sc = TyRange -> range sc = Some r ->
  isCellInRange s p = true <-> in_box r p.
Proof.
  intros Hs Hty Hr. unfold isCellInRange, in_box. rewrite Hs, Hty, Hr.
  rewrite !andb_true_iff, !Z.leb_le. tauto.
Qed.

(** X4.  [isCellInRange] holds of a cell exactly when the selection is a
    range and [getSelectedCells] lists the cell. *)
Theorem isCellInRange_iff_listed s p :
  isCellInRange s p = true <->
  is_range_type s = true /\ In p (getSelectedCells s).
Proof.
  unfold is_range_type.
  destruct (selectedCells s) as [sc|] eqn:Hs.
  - destruct (sel_type sc) eqn:Hty.
    + unfold isCellInRange. rewrite Hs, Hty. split; [|intros [H _]]; discriminate.
    + destruct (range sc) as [r|] eqn:Hr.
      * rewrite (isCellInRange_range s sc r) by assumption.
        rewrite (getSelectedCells_range s sc r) by assumption.
        rewrite elem_of_box_cells. tauto.
      * unfold isCellInRange, getSelectedCells. rewrite Hs, Hty, Hr.
        split; [discriminate | intros [_ []]].
    + unfold isCellInRange. rewrite Hs, Hty. split; [|intros [H _]]; discriminate.
  - unfold isCellInRange. rewrite Hs. split; [|intros [H _]]; discriminate.
Qed.

(** X5.  In every state the engine can reach, a cell is drawn with a
    selection variant other than [none] exactly when [getSelectedCells]
    lists it: what is highlighted is what a formatting command changes. *)
Theorem highlighted_iff_listed ops p :
  getSelectionVariant p (run ops) <> VariantNone <->
  In p (getSelectedCells (run ops)).
Proof.
  assert (consistent (run ops)) as [Hb _].
  { unfold run.
    assert (consistent initial) as H0.
    { split; [constructor | split; [discriminate | intros H; now destruct H]]. }
    revert H0. generalize initial. induction ops as [|o ops IH]; intros s Hs;
      [exact Hs | simpl; apply IH; now apply consistent_step]. }
  assert (active_in_range (run ops)) as Ha.
  { apply fold_active_in_range. intros sc r H. discriminate H. }
  revert Hb Ha. generalize (run ops). intros s Hb Ha.
  unfold getSelectionVariant, is_range_type, getActiveCell.
  inversion Hb as [Hs | q Hs | r Hs | l Hnd Hlen Hs]; symmetry in Hs.
  - unfold isCellSelected, isCellInRange, getSelectedCells. rewrite Hs. simpl.
    rewrite andb_false_r. split; [intros H; now destruct H | intros []].
  - unfold isCellSelected, isCellInRange, getSelectedCells. rewrite Hs. simpl.
    rewrite !andb_false_r, andb_true_r.
    destruct (same_cell q p) eqn:E.
    + apply same_cell_spec in E. subst. split; [now left | discriminate].
    + apply same_cell_false in E.
      split; [intros H; now destruct H | intros [H | []]; congruence].
  - destruct (Ha (range_of r) r Hs eq_refl eq_refl) as [a [Hact Hin]].
    rewrite (getSelectedCells_range s (range_of r) r Hs eq_refl eq_refl).
    rewrite elem_of_box_cells.
    pose proof (isCellInRange_range s (range_of r) r p Hs eq_refl eq_refl) as Hbox.
    rewrite Hact. unfold isCellSelected. rewrite Hs. simpl.
    rewrite andb_true_r.
    destruct (same_cell a p) eqn:Ea.
    { apply same_cell_spec in Ea. subst a. split; [auto | discriminate]. }
    destruct (isCellInRange s p) eqn:Ei.
    + rewrite andb_false_r.
      split; [intros _; now apply Hbox|].
      intros _. destruct (_ || _); discriminate.
    + rewrite andb_true_r.
      destruct (same_cell (range_start r) p) eqn:E1.
      { apply same_cell_spec in E1. subst p. simpl.
        split; [|discriminate]. intros _.
        unfold in_box, minRow, maxRow, minCol, maxCol. lia. }
      destruct (same_cell (range_end r) p) eqn:E2.
      { apply same_cell_spec in E2. subst p. simpl.
        split; [|discriminate]. intros _.
        unfold in_box, minRow, maxRow, minCol, maxCol. lia. }
      simpl. split; [intros H; now destruct H|].
      intros H. apply Hbox in H. discriminate.
  - unfold isCellSelected, isCellInRange, getSelectedCells. rewrite Hs. simpl.
    rewrite !andb_false_r, andb_true_r.
    destruct (existsb (fun c => same_cell c p) l) eqn:E.
    + apply existsb_same_cell in E. split; [auto | discriminate].
    + split; [intros H; now destruct H|].
      intros H. apply existsb_same_cell in H. congruence.
Qed.

End Presentation.

(** ** Mouse handlers of a cell *)

Section Mouse.

Import Selection Formatting Shape Cell.

Lemma isCellEditing_on_selection f w p :
  EditData.isCellEditing (on_selection f w) p = EditData.isCellEditing w p.
Proof. reflexivity. Qed.

(** X6.  When the cell is not being edited and no drag is in progress, the
    press and the release that come before a click do not change what the
    click does: the three events together act as [handleClick] alone, and
    without a modifier key they leave exactly the selection [selectCell]
    builds; on a cell that is being edited they do nothing. *)
Theorem click_is_handleClick p e w :
  (EditData.isCellEditing w p = true -> click p e w = w) /\
  (EditData.isCellEditing w p = false ->
   isSelecting (selection w) = false ->
   click p e w = handleClick p e w /\
   (e = no_modifier ->
    click p e w = set_selection (selectCell p (selection w)) w)).
Proof.
  split.
  - intros He. unfold click, handleMouseDown, handleMouseUp, handleClick.
    rewrite He. simpl. rewrite He. simpl. now rewrite He.
  - intros He Hsel. unfold click, handleMouseDown. rewrite He.
    destruct e as [c m sh]. cbn [m_ctrlKey m_metaKey m_shiftKey].
    assert (forall e', e' = no_modifier ->
              handleClick p e'
                (handleMouseUp p (on_selection (startSelection p) w))
              = set_selection (selectCell p (selection w)) w) as Hplain.
    { intros e' ->. unfold handleMouseUp.
      rewrite isCellEditing_on_selection, He. simpl.
      unfold handleClick. rewrite !isCellEditing_on_selection, He.
      reflexivity. }
    destruct (c || m || sh) eqn:Emod.
    + unfold handleMouseUp. rewrite He, Hsel. simpl.
      split; [reflexivity|]. intros E. injection E as -> -> ->. discriminate.
    + apply orb_false_iff in Emod as [Emod ->].
      apply orb_false_iff in Emod as [-> ->].
      split; [|apply Hplain].
      rewrite (Hplain (mkMouse false false false) eq_refl).
      unfold handleClick. rewrite He. reflexivity.
Qed.

Lemma click_is_handleClick_witness :
  click (mkPos 1 1) no_modifier Sample.world
  = set_selection (selectCell (mkPos 1 1) (selection Sample.world)) Sample.world.
Proof.
  apply (click_is_handleClick (mkPos 1 1) no_modifier Sample.world);
    reflexivity.
Defined.

Lemma mouse_enter_fold path w :
  editingCell (edit w) = None ->
  fold_left (fun w' p => handleMouseEnter p w') path w
  = set_selection
      (fold_left (fun st p =>
                    if isSelecting st then updateSelection p st else st)
                 path (selection w)) w.
Proof.
  revert w. induction path as [|p path IH]; intros w He.
  - destruct w; reflexivity.
  - cbn [fold_left]. rewrite IH.
    + unfold handleMouseEnter, EditData.isCellEditing. rewrite He. simpl.
      destruct (isSelecting (selection w)); [reflexivity|].
      destruct w; reflexivity.
    + unfold handleMouseEnter, EditData.isCellEditing. rewrite He. simpl.
      destruct (isSelecting (selection w)); exact He.
Qed.

Lemma guarded_update_fold path a c :
  fold_left (fun st p => if isSelecting st then updateSelection p st else st)
            path (dragging a c)
  = dragging a (List.last path c).
Proof.
  revert c. induction path as [|p path IH]; intros c; [reflexivity|].
  cbn [fold_left]. cbn [isSelecting dragging].
  rewrite updateSelection_dragging, IH, last_cons. reflexivity.
Qed.

(** X7.  With no edit session open, a drag with the mouse from [a] over
    any cells leaves the rows, the metadata and the edit state alone, and
    selects the single cell [a] when it ends on [a], and otherwise the
    range from [a] to the cell it ends on, with [a] active and the drag
    flags cleared. *)
Theorem mouse_drag_selects_range a path w :
  editingCell (edit w) = None ->
  mouse_drag a path w
  = set_selection (endSelection (dragging a (List.last path a))) w.
Proof.
  intros He. unfold mouse_drag.
  assert (handleMouseDown a no_modifier w = set_selection (dragging a a) w) as ->.
  { unfold handleMouseDown, EditData.isCellEditing. rewrite He. simpl.
    unfold on_selection. now rewrite startSelection_dragging. }
  rewrite mouse_enter_fold by exact He.
  cbn [selection set_selection]. rewrite guarded_update_fold.
  unfold handleMouseUp, EditData.isCellEditing. simpl. rewrite He. simpl.
  reflexivity.
Qed.

Lemma mouse_drag_selects_range_witness :
  getSelectedCells
    (selection (mouse_drag (mkPos 1 1) [mkPos 1 0; mkPos 0 0] Sample.world))
  = [mkPos 0 0; mkPos 0 1; mkPos 1 0; mkPos 1 1].
Proof.
  rewrite (mouse_drag_selects_range (mkPos 1 1) [mkPos 1 0; mkPos 0 0]
             Sample.world eq_refl).
  reflexivity.
Defined.

End Mouse.

(** ** Cell keys *)

Section CellKeys.

Import Formatting Keys.

Lemma pretty_N_go_colon_free x s :
  colon_free s = true -> colon_free (pretty_N_go x s) = true.
Proof.
  revert s. induction (N.lt_wf_0 x) as [x _ IH]; intros s Hs.
  assert (x = 0 \/ 0 < x)%N as [->|Hx] by lia.
  - now rewrite pretty_N_go_0.
  - rewrite pretty_N_go_step by exact Hx. apply IH.
    + now apply N.div_lt.
    + simpl. rewrite Hs. unfold pretty_N_char.
      repeat case_match; reflexivity.
Qed.

Lemma coord_to_string_colon_free z : colon_free (coord_to_string z) = true.
Proof.
  unfold coord_to_string, pretty, pretty_Z.
  assert (forall p, colon_free (pretty (Npos p)) = true) as Hpos.
  { intros p. unfold pretty, pretty_N. rewrite decide_False by discriminate.
    now apply pretty_N_go_colon_free. }
  destruct z as [|p|p]; [reflexivity | apply Hpos |].
  change (colon_free (String "-" (pretty (Npos p))) = true).
  simpl. apply Hpos.
Qed.

Lemma append_cancel_l s x y : s +:+ x = s +:+ y -> x = y.
Proof.
  induction s as [|c s IH]; simpl; intros H; [exact H|].
  injection H as H. auto.
Qed.

Lemma split_at_colon a a' b b' :
  colon_free a = true -> colon_free a' = true ->
  a +:+ String ":" b = a' +:+ String ":" b' -> a = a' /\ b = b'.
Proof.
  revert a'. induction a as [|c a IH]; intros [|c' a'] Ha Ha' H; simpl in *.
  - injection H as ->. auto.
  - injection H as <- _. discriminate Ha'.
  - injection H as -> _. discriminate Ha.
  - injection H as -> H.
    apply andb_true_iff in Ha as [_ Ha]. apply andb_true_iff in Ha' as [_ Ha'].
    destruct (IH a' Ha Ha' H) as [-> ->]. auto.
Qed.

Lemma generateCellKey_inj reportId r c r' c' :
  generateCellKey reportId r c = generateCellKey reportId r' c' ->
  r = r' /\ c = c'.
Proof.
  unfold generateCellKey. intros H.
  apply append_cancel_l in H. simpl in H. injection H as H.
  apply split_at_colon in H as [Hr Hc];
    try apply coord_to_string_colon_free.
  split; eapply (inj pretty); eassumption.
Qed.

(** X8.  Within a report two cells have the same key only if they are the
    same cell, negative coordinates included: an entry of the metadata map
    belongs to one cell. *)
Theorem generateCellKey_injective reportId (p q : CellPosition) :
  generateCellKey reportId (row p) (column p)
  = generateCellKey reportId (row q) (column q) <-> p = q.
Proof.
  split; [|now intros ->].
  intros H. apply generateCellKey_inj in H as [Hr Hc].
  destruct p, q; simpl in *; congruence.
Qed.

End CellKeys.

(** ** Formatting commands: what they leave alone *)

Section CommandFrame.

Import Formatting ReportData Frame.

Lemma same_kind_refl a : same_kind a a.
Proof. unfold same_kind; tauto. Qed.

Lemma same_kind_trans a b c : same_kind a b -> same_kind b c -> same_kind a c.
Proof.
  unfold same_kind. intros (-> & -> & H1) (-> & -> & H2). tauto.
Qed.

Lemma same_cells_refl m : same_cells m m.
Proof. intros k. destruct (m !! k); [apply same_kind_refl | exact I]. Qed.

Lemma same_cells_trans m1 m2 m3 :
  same_cells m1 m2 -> same_cells m2 m3 -> same_cells m1 m3.
Proof.
  intros H1 H2 k. specialize (H1 k). specialize (H2 k).
  destruct (m1 !! k), (m2 !! k), (m3 !! k); try tauto.
  eapply same_kind_trans; eassumption.
Qed.

Lemma same_cells_insert m0 m k cm0 f e :
  same_cells m0 m -> m0 !! k = Some cm0 ->
  same_kind cm0 (with_formatting e f) ->
  same_cells m0 (<[k := with_formatting e f]> m).
Proof.
  intros H Hk He k'. destruct (decide (k' = k)) as [->|Hne].
  - rewrite lookup_insert_eq, Hk. exact He.
  - rewrite lookup_insert_ne by congruence. apply H.
Qed.

Lemma same_kind_with_formatting cm f g :
  formatting cm = Some f -> same_kind cm (with_formatting cm g).
Proof.
  intros Hf. unfold same_kind. simpl. rewrite Hf.
  repeat split; intros; discriminate.
Qed.

Lemma same_cells_apply_update reportId m u :
  same_cells m (apply_update reportId m u).
Proof.
  unfold apply_update.
  destruct (m !! generateCellKey _ _ _) as [cm|] eqn:Hk;
    [|apply same_cells_refl].
  destruct (formatting cm) as [f|] eqn:Hf; [|apply same_cells_refl].
  apply same_cells_insert with (cm0 := cm);
    [apply same_cells_refl | exact Hk |].
  now apply same_kind_with_formatting with (f := f).
Qed.

Lemma same_cells_fold reportId us m :
  same_cells m (fold_left (apply_update reportId) us m).
Proof.
  revert m. induction us as [|u us IH]; intros m; [apply same_cells_refl|].
  simpl. eapply same_cells_trans; [apply same_cells_apply_update | apply IH].
Qed.

(** One settled single-cell request. *)
Lemma single_settle_spec d p outcome w :
  data w = d -> map_allocated w ->
  let w' := single_settle d p outcome w in
  metadata_of w' = (if succeeded outcome then apply_pending (metadata_of w) p
                    else metadata_of w) /\
  data w' = d /\ selection w' = selection w /\ edit w' = edit w /\
  map_allocated w'.
Proof.
  intros Hd Hm. unfold single_settle.
  destruct p as [[k v]|]; [|simpl; destruct (succeeded outcome); auto].
  destruct (succeeded outcome); [|auto].
  unfold metadata_of, map_allocated in *. simpl. subst d.
  rewrite heap_get_map_set_eq, length_heap_map_set by exact Hm. auto.
Qed.

(** A property of the map that every request keeps is kept by any number
    of settled requests, whatever the collaborator answers. *)
Lemma settle_all_invariant (P : MetadataMap -> Prop) d pending backend i w :
  (forall p m, In p pending -> P m -> P (apply_pending m p)) ->
  data w = d -> map_allocated w -> P (metadata_of w) ->
  let w' := settle_all d pending backend i w in
  P (metadata_of w') /\
  data w' = d /\ selection w' = selection w /\ edit w' = edit w /\
  map_allocated w'.
Proof.
  revert i w. induction pending as [|p pending IH]; intros i w HP Hd Hm H0;
    [simpl; auto|].
  cbn [settle_all].
  destruct (single_settle_spec d p (backend i) w Hd Hm)
    as (Hmeta & Hd' & Hs & He & Hm').
  destruct (IH (Datatypes.S i) (single_settle d p (backend i) w))
    as (H1 & H2 & H3 & H4 & H5); auto.
  - intros q m Hq. apply HP. now right.
  - rewrite Hmeta. destruct (succeeded (backend i)); [|exact H0].
    apply HP; [now left | exact H0].
  - rewrite H3, H4, Hs, He. auto.
Qed.

Lemma same_cells_apply_pending reportId w u m :
  same_cells (metadata_of w) m ->
  same_cells (metadata_of w) (apply_pending m (single_request reportId w u)).
Proof.
  intros H. unfold single_request.
  destruct (metadata_of w !! generateCellKey _ _ _) as [cm|] eqn:Hk;
    [|exact H].
  destruct (formatting cm) as [f|] eqn:Hf; [|exact H].
  simpl. apply same_cells_insert with (cm0 := cm); try assumption.
  now apply same_kind_with_formatting with (f := f).
Qed.

Lemma perform_same_grid reportId r backend w :
  map_allocated w -> same_grid w (perform reportId r backend w).
Proof.
  intros Hm. unfold same_grid. destruct r as [us|us]; cbn [perform].
  - destruct (succeeded (backend O)) eqn:Hok.
    + destruct (updateMultipleCellsFormatting_success reportId us _ w Hm Hok)
        as (_ & Hd & Hs & He & _).
      rewrite Hd, Hs, He. auto 10.
    + destruct (updateMultipleCellsFormatting_failure reportId us _ w Hm Hok)
        as (_ & ? & ? & ? & ? & ? & ?).
      auto 10.
  - destruct (settle_all_invariant (fun _ => True) (data w)
                (map (single_request reportId w) us) backend O w)
      as (_ & H2 & H3 & H4 & _); auto.
    rewrite H2, H3, H4. auto 10.
Qed.

(** X9.  Whatever cells and changes a formatting command asks for, by
    batch or cell by cell, and whatever the persistence collaborator
    answers to each call, the metadata map keeps its keys, every entry
    keeps its type and section and stays with or without formatting, and
    the rows, the columns, the selection and the edit session are
    untouched. *)
Theorem perform_keeps_cells reportId r backend w :
  map_allocated w ->
  let w' := perform reportId r backend w in
  same_cells (metadata_of w) (metadata_of w') /\ same_grid w w'.
Proof.
  intros Hm. unfold same_grid. destruct r as [us|us]; cbn [perform].
  - destruct (succeeded (backend O)) eqn:Hok.
    + destruct (updateMultipleCellsFormatting_success reportId us _ w Hm Hok)
        as (Hmeta & Hd & Hs & He & _).
      rewrite Hmeta, Hd, Hs, He. split; [apply same_cells_fold | auto 10].
    + destruct (updateMultipleCellsFormatting_failure reportId us _ w Hm Hok)
        as (Hmeta & ? & ? & ? & ? & ? & ?).
      rewrite Hmeta. split; [apply same_cells_refl | auto 10].
  - destruct (settle_all_invariant (same_cells (metadata_of w)) (data w)
                (map (single_request reportId w) us) backend O w)
      as (H1 & H2 & H3 & H4 & _); auto using same_cells_refl.
    + intros p m Hp. apply in_map_iff in Hp as [u [<- _]].
      apply same_cells_apply_pending.
    + rewrite H2, H3, H4. auto 10.
Qed.

Lemma perform_keeps_cells_witness :
  let w' := perform REPORT_ID
              (applyAlignmentToSelection
                 (Selection.selectRange (mkPos 0 0) (mkPos 1 1) Selection.initial)
                 AlignRight false)
              (fun i => match i with
                        | 1%nat => Sample.not_found
                        | 2%nat => Sample.rejected
                        | _ => Sample.ok
                        end)
              Sample.world in
  same_cells Sample.cells (metadata_of w') /\ same_grid Sample.world w'.
Proof.
  apply (perform_keeps_cells REPORT_ID _ _ Sample.world).
  unfold map_allocated. simpl. lia.
Defined.

(** ** Single writes and batches *)

Lemma apply_update_other reportId m u k :
  k <> generateCellKey reportId (row (cu_position u)) (column (cu_position u)) ->
  apply_update reportId m u !! k = m !! k.
Proof.
  intros Hne. unfold apply_update.
  destruct (m !! generateCellKey _ _ _) as [cm|]; [|reflexivity].
  destruct (formatting cm); [|reflexivity].
  now apply lookup_insert_ne.
Qed.

Lemma apply_update_pending reportId w u n :
  n !! generateCellKey reportId (row (cu_position u)) (column (cu_position u))
  = metadata_of w
      !! generateCellKey reportId (row (cu_position u)) (column (cu_position u)) ->
  apply_update reportId n u = apply_pending n (single_request reportId w u).
Proof.
  intros H. unfold apply_update, single_request. rewrite H.
  destruct (metadata_of w !! generateCellKey _ _ _) as [cm|]; [|reflexivity].
  destruct (formatting cm); reflexivity.
Qed.

Lemma batch_as_requests reportId w us n :
  NoDup (map cu_position us) ->
  (forall u, In u us ->
     n !! generateCellKey reportId (row (cu_position u)) (column (cu_position u))
     = metadata_of w
         !! generateCellKey reportId (row (cu_position u)) (column (cu_position u))) ->
  fold_left (apply_update reportId) us n
  = fold_left apply_pending (map (single_request reportId w) us) n.
Proof.
  revert n. induction us as [|u us IH]; intros n Hnd Hn; [reflexivity|].
  cbn [map fold_left].
  rewrite <- (apply_update_pending reportId w u n) by (apply Hn; now left).
  simpl in Hnd. apply NoDup_cons in Hnd as [Hu Hnd].
  apply IH; [exact Hnd|].
  intros v Hv. rewrite apply_update_other; [apply Hn; now right|].
  intros E. apply generateCellKey_inj in E as [Er Ec]. apply Hu.
  apply list_elem_of_In, in_map_iff. exists v. split; [|exact Hv].
  destruct (cu_position u), (cu_position v); simpl in *; congruence.
Qed.

(** X10.  When no cell is named twice and every write is answered with
    200, issuing the updates one call per cell (as the toolbar does)
    leaves the metadata map exactly as the single batch (as the keyboard
    does). *)
Theorem individual_writes_agree_with_batch reportId us backend w :
  map_allocated w -> NoDup (map cu_position us) ->
  (forall i, succeeded (backend i) = true) ->
  metadata_of (perform reportId (Individually us) backend w)
  = metadata_of (perform reportId (Batch us) backend w).
Proof.
  intros Hm Hnd Hok. cbn [perform].
  destruct (updateMultipleCellsFormatting_success reportId us _ w Hm (Hok O))
    as (-> & _).
  destruct (settle_all_success (data w) (map (single_request reportId w) us)
              backend O w Hok eq_refl Hm) as (-> & _).
  symmetry. now apply batch_as_requests.
Qed.

Lemma individual_writes_agree_with_batch_witness :
  let us := [mkUpdate (mkPos 0 0) (attribute_change Bold true);
             mkUpdate (mkPos 1 1) (alignment_update AlignCenter (mkPos 1 1)).(cu_formatting)] in
  metadata_of (perform REPORT_ID (Individually us) (fun _ => Sample.ok) Sample.world)
  = metadata_of (perform REPORT_ID (Batch us) (fun _ => Sample.ok) Sample.world).
Proof.
  apply (individual_writes_agree_with_batch REPORT_ID _ _ Sample.world).
  - unfold map_allocated. simpl. lia.
  - apply NoDup_ListNoDup. repeat constructor; simpl; intuition discriminate.
  - intros i. reflexivity.
Defined.

Lemma settle_all_committed d pending backend i w :
  data w = d -> map_allocated w ->
  metadata_of (settle_all d pending backend i w)
  = fold_left apply_pending (committed backend i pending) (metadata_of w).
Proof.
  revert i w. induction pending as [|p pending IH]; intros i w Hd Hm;
    [reflexivity|].
  cbn [settle_all committed].
  destruct (single_settle_spec d p (backend i) w Hd Hm)
    as (Hmeta & Hd' & _ & _ & Hm').
  rewrite (IH (Datatypes.S i) _ Hd' Hm'), Hmeta.
  destruct (succeeded (backend i)); reflexivity.
Qed.

Lemma committed_map {A B} (f : A -> B) backend i (l : list A) :
  committed backend i (map f l) = map f (committed backend i l).
Proof.
  revert i. induction l as [|x l IH]; intros i; [reflexivity|].
  simpl. rewrite IH. destruct (succeeded (backend i)); reflexivity.
Qed.

Lemma committed_In {A} backend i (l : list A) x :
  In x (committed backend i l) -> In x l.
Proof.
  revert i. induction l as [|y l IH]; intros i; simpl; [tauto|].
  destruct (succeeded (backend i)); simpl; intros H.
  - destruct H as [H|H]; [now left | right; eauto].
  - right; eauto.
Qed.

Lemma committed_NoDup backend i us :
  NoDup (map cu_position us) ->
  NoDup (map cu_position (committed backend i us)).
Proof.
  revert i. induction us as [|u us IH]; intros i H; [exact H|].
  simpl in *. apply NoDup_cons in H as [Hu Hnd].
  destruct (succeeded (backend i)); [|now apply IH].
  simpl. apply NoDup_cons. split; [|now apply IH].
  intros Hin. apply Hu.
  apply list_elem_of_In, in_map_iff in Hin as [v [Hv Hin]].
  apply list_elem_of_In, in_map_iff. exists v. split; [exact Hv|].
  now apply committed_In in Hin.
Qed.

(** X11.  Written cell by cell, a command is not all or nothing: when no
    cell is named twice, the metadata map ends as if exactly the updates
    whose call was answered with 200 had been applied, in order; the
    others leave no trace. *)
Theorem individual_writes_commit_successes reportId us backend w :
  map_allocated w -> NoDup (map cu_position us) ->
  metadata_of (perform reportId (Individually us) backend w)
  = fold_left (apply_update reportId) (committed backend O us) (metadata_of w).
Proof.
  intros Hm Hnd. cbn [perform].
  rewrite (settle_all_committed (data w) _ backend O w eq_refl Hm).
  rewrite committed_map. symmetry.
  apply batch_as_requests; [now apply committed_NoDup | reflexivity].
Qed.

Lemma individual_writes_commit_successes_witness :
  let us := [mkUpdate (mkPos 0 0) (attribute_change Bold false);
             mkUpdate (mkPos 0 1) (attribute_change Bold true);
             mkUpdate (mkPos 0 2) (attribute_change Italic true)] in
  let backend i := match i with 1%nat => Sample.rejected | _ => Sample.ok end in
  metadata_of (perform REPORT_ID (Individually us) backend Sample.world)
  = fold_left (apply_update REPORT_ID)
      [mkUpdate (mkPos 0 0) (attribute_change Bold false);
       mkUpdate (mkPos 0 2) (attribute_change Italic true)] Sample.cells.
Proof.
  intros us backend.
  refine (individual_writes_commit_successes REPORT_ID us backend
            Sample.world _ _).
  - unfold map_allocated. simpl. lia.
  - apply NoDup_ListNoDup. repeat constructor; simpl; intuition discriminate.
Defined.

(** X12.  A single-cell write and a batch of that one update leave the
    same metadata map, whatever the collaborator answers; a write that is
    not answered with 200 leaves the whole world as it was (the single
    write changes nothing before the answer). *)
Theorem updateCellFormatting_as_batch_of_one reportId u outcome w :
  map_allocated w ->
  metadata_of (updateCellFormatting reportId u outcome w)
  = metadata_of (updateMultipleCellsFormatting reportId [u] outcome w) /\
  (succeeded outcome = false ->
   updateCellFormatting reportId u outcome w = w).
Proof.
  intros Hm. split.
  - unfold updateCellFormatting.
    destruct (single_settle_spec (data w) (single_request reportId w u)
                outcome w eq_refl Hm) as (-> & _).
    destruct (succeeded outcome) eqn:Hok.
    + destruct (updateMultipleCellsFormatting_success reportId [u] _ w Hm Hok)
        as (-> & _).
      simpl. symmetry. now apply apply_update_pending.
    + destruct (updateMultipleCellsFormatting_failure reportId [u] _ w Hm Hok)
        as (-> & _).
      reflexivity.
  - intros Hok. unfold updateCellFormatting, single_settle. rewrite Hok.
    destruct (single_request reportId w u) as [[k v]|]; reflexivity.
Qed.

Lemma updateCellFormatting_as_batch_of_one_witness :
  let u := mkUpdate (mkPos 0 1) (attribute_change Italic true) in
  metadata_of (updateCellFormatting REPORT_ID u Sample.ok Sample.world)
  = metadata_of (updateMultipleCellsFormatting REPORT_ID [u] Sample.ok Sample.world)
  /\ updateCellFormatting REPORT_ID u Sample.not_found Sample.world = Sample.world.
Proof.
  assert (map_allocated Sample.world) as Hm
      by (unfold map_allocated; simpl; lia).
  split.
  - apply (updateCellFormatting_as_batch_of_one REPORT_ID _ Sample.ok _ Hm).
  - apply (updateCellFormatting_as_batch_of_one REPORT_ID _ Sample.not_found _ Hm).
    reflexivity.
Defined.

End CommandFrame.

(** ** The alignment command and the toolbar *)

Section Alignment.

Import Formatting ReportData Frame.

Lemma over_twice {A} (p old : option A) : over p (over p old) = over p old.
Proof. destruct p; reflexivity. Qed.

Lemma merge_formatting_idempotent f c :
  merge_formatting (merge_formatting f c) c = merge_formatting f c.
Proof.
  unfold merge_formatting. simpl. rewrite !over_twice.
  destruct (p_id c); reflexivity.
Qed.

Lemma changed_idempotent c cm : changed c (changed c cm) = changed c cm.
Proof.
  unfold changed. destruct (formatting cm) as [f|] eqn:Hf; simpl.
  - unfold with_formatting. simpl. now rewrite merge_formatting_idempotent.
  - now rewrite Hf.
Qed.

(** A pass over the cells that writes, for each, the entry [e] assigns to
    its key. *)
Lemma entry_pass (m0 : MetadataMap) (e : string -> option CellMetadata)
      (turn : MetadataMap -> CellPosition -> MetadataMap) :
  (forall k, e k = None -> m0 !! k = None) ->
  (forall n x,
      n !! key_of x = m0 !! key_of x \/ n !! key_of x = e (key_of x) ->
      turn n x = match e (key_of x) with
                 | Some v => <[key_of x := v]> n
                 | None => n
                 end) ->
  forall cells k,
    fold_left turn cells m0 !! k
    = if decide (k ∈ map key_of cells) then e k else m0 !! k.
Proof.
  intros He Hturn.
  induction cells as [|x cells IH] using rev_ind; intros k.
  - simpl. destruct (decide (k ∈ [])) as [Hin|]; [|reflexivity].
    now apply elem_of_nil in Hin.
  - rewrite map_app, fold_left_app. simpl.
    set (n := fold_left turn cells m0) in *.
    rewrite Hturn.
    2:{ rewrite (IH (key_of x)). destruct (decide _); auto. }
    assert (k ∈ map key_of cells ++ [key_of x]
            <-> k ∈ map key_of cells \/ k = key_of x) as Hmem.
    { rewrite elem_of_app, list_elem_of_singleton. reflexivity. }
    destruct (decide (k = key_of x)) as [->|Hne].
    + rewrite decide_True by (apply Hmem; auto).
      destruct (e (key_of x)) as [v|] eqn:Ee.
      * apply lookup_insert_eq.
      * rewrite IH. destruct (decide _); [exact Ee | now apply He].
    + assert ((match e (key_of x) with
               | Some v => <[key_of x := v]> n
               | None => n
               end) !! k = n !! k) as ->.
      { destruct (e (key_of x)); [|reflexivity].
        now apply lookup_insert_ne. }
      rewrite IH.
      destruct (decide (k ∈ map key_of cells)) as [Hin|Hin].
      * rewrite decide_True by (apply Hmem; auto). reflexivity.
      * rewrite decide_False; [reflexivity|].
        intros H. apply Hmem in H as [H|H]; contradiction.
Qed.

Lemma changed_none (m0 : MetadataMap) c k :
  changed c <$> m0 !! k = None -> m0 !! k = None.
Proof. destruct (m0 !! k); [discriminate | reflexivity]. Qed.

(** The batch loop with the same change for every cell. *)
Lemma uniform_batch_pass c (m0 : MetadataMap) cells k :
  fold_left (apply_update REPORT_ID) (map (fun x => mkUpdate x c) cells) m0 !! k
  = if decide (k ∈ map key_of cells) then changed c <$> m0 !! k else m0 !! k.
Proof.
  rewrite fold_left_map.
  apply (entry_pass m0 (fun k => changed c <$> m0 !! k)
           (fun n x => apply_update REPORT_ID n (mkUpdate x c)));
    [intros k'; apply changed_none|].
  intros n x Hn. unfold apply_update. cbn [cu_position cu_formatting].
  fold (key_of x). unfold changed in *.
  destruct (m0 !! key_of x) as [cm0|] eqn:H0; simpl in *.
  - destruct (formatting cm0) as [f|] eqn:Hf.
    + destruct Hn as [-> | ->]; [now rewrite Hf|].
      simpl. unfold with_formatting. simpl.
      now rewrite merge_formatting_idempotent.
    + assert (n !! key_of x = Some cm0) as Hn' by (destruct Hn; assumption).
      rewrite Hn', Hf. symmetry. now apply insert_id.
  - assert (n !! key_of x = None) as -> by (destruct Hn; assumption).
    reflexivity.
Qed.

(** The same change asked for cell by cell. *)
Lemma uniform_requests_pass c w cells k :
  fold_left apply_pending
            (map (single_request REPORT_ID w) (map (fun x => mkUpdate x c) cells))
            (metadata_of w) !! k
  = if decide (k ∈ map key_of cells)
    then changed c <$> metadata_of w !! k else metadata_of w !! k.
Proof.
  rewrite !fold_left_map.
  apply (entry_pass (metadata_of w) (fun k => changed c <$> metadata_of w !! k)
           (fun n x => apply_pending n (single_request REPORT_ID w (mkUpdate x c))));
    [intros k'; apply changed_none|].
  intros n x Hn. unfold single_request. cbn [cu_position cu_formatting].
  fold (key_of x). unfold changed in *.
  destruct (metadata_of w !! key_of x) as [cm0|] eqn:H0; simpl in *;
    [|reflexivity].
  destruct (formatting cm0) as [f|] eqn:Hf; [reflexivity|].
  simpl. assert (n !! key_of x = Some cm0) as Hn' by (destruct Hn; assumption).
  symmetry. now apply insert_id.
Qed.

Lemma alignment_command_success a have_batch backend w :
  map_allocated w -> (forall i, succeeded (backend i) = true) ->
  let w' := perform REPORT_ID
              (applyAlignmentToSelection (selection w) a have_batch) backend w in
  (forall k,
      metadata_of w' !! k =
      if decide (k ∈ map key_of (getSelectedCells (selection w)))
      then changed (alignment_change a) <$> metadata_of w !! k
      else metadata_of w !! k) /\
  selection w' = selection w /\ map_allocated w'.
Proof.
  intros Hm Hok w'. subst w'. unfold perform.
  destruct have_batch; cbn [applyAlignmentToSelection].
  - destruct (updateMultipleCellsFormatting_success REPORT_ID
                (map (alignment_update a) (getSelectedCells (selection w)))
                (backend O) w Hm (Hok O)) as (Hmeta & _ & Hsel & _ & Hm').
    split; [|split; assumption].
    intros k. rewrite Hmeta.
    apply (uniform_batch_pass (alignment_change a)).
  - destruct (settle_all_success (data w)
                (map (single_request REPORT_ID w)
                     (map (alignment_update a) (getSelectedCells (selection w))))
                backend O w Hok eq_refl Hm) as (Hmeta & _ & Hsel & _ & Hm').
    split; [|split; assumption].
    intros k. rewrite Hmeta.
    apply (uniform_requests_pass (alignment_change a)).
Qed.

(** X13.  When every write is answered with 200, the alignment command
    (by batch or cell by cell) gives every selected cell that has
    formatting the requested alignment and leaves its bold, italic and
    strikethrough as stored; entries of other cells are not changed; and
    issuing the same command again changes nothing. *)
Theorem alignment_command_sets_alignment a have_batch backend1 backend2 w :
  map_allocated w ->
  (forall i, succeeded (backend1 i) = true) ->
  (forall i, succeeded (backend2 i) = true) ->
  let command backend v :=
    perform REPORT_ID
      (applyAlignmentToSelection (selection v) a have_batch) backend v in
  let w1 := command backend1 w in
  (forall cell, In cell (getSelectedCells (selection w)) ->
     has_formatting (metadata_of w) cell ->
     (exists cm, metadata_of w1 !! key_of cell = Some cm /\
                 alignment_of cm = Some a) /\
     forall t, stored_attribute t (metadata_of w1) cell
               = stored_attribute t (metadata_of w) cell) /\
  (forall cell, ~ In cell (getSelectedCells (selection w)) ->
     metadata_of w1 !! key_of cell = metadata_of w !! key_of cell) /\
  metadata_of (command backend2 w1) = metadata_of w1.
Proof.
  intros Hm Hok1 Hok2 command w1.
  destruct (alignment_command_success a have_batch backend1 w Hm Hok1)
    as (H1 & Hsel1 & Hm1).
  fold (command backend1 w) in H1, Hsel1, Hm1. fold w1 in H1, Hsel1, Hm1.
  split; [|split].
  - intros cell Hin (cm & f & Hk & Hf). fold (key_of cell) in Hk.
    assert (metadata_of w1 !! key_of cell
            = Some (with_formatting cm (merge_formatting f (alignment_change a))))
      as Hk1.
    { rewrite H1, decide_True by now apply key_of_selected.
      rewrite Hk. simpl. unfold changed. now rewrite Hf. }
    split.
    + eexists. split; [exact Hk1 | reflexivity].
    + intros t. unfold stored_attribute. fold (key_of cell).
      rewrite Hk1, Hk, Hf. destruct t; reflexivity.
  - intros cell Hnot. rewrite H1, decide_False; [reflexivity|].
    intros Hin. apply Hnot.
    apply list_elem_of_In in Hin. apply in_map_iff in Hin as [x [Hx Hin]].
    apply generateCellKey_inj in Hx as [Hr Hc].
    destruct x, cell; simpl in *; subst; exact Hin.
  - destruct (alignment_command_success a have_batch backend2 w1 Hm1 Hok2)
      as (H2 & _).
    fold (command backend2 w1) in H2.
    apply map_eq. intros k. rewrite H2, Hsel1, !H1.
    destruct (decide _); [|reflexivity].
    destruct (metadata_of w !! k); simpl; [|reflexivity].
    now rewrite changed_idempotent.
Qed.

Lemma alignment_command_sets_alignment_witness :
  let w := set_selection
             (Selection.selectRange (mkPos 0 0) (mkPos 1 1) Selection.initial)
             Sample.world in
  let command v :=
    perform REPORT_ID (applyAlignmentToSelection (selection v) AlignRight true)
            (fun _ => Sample.ok) v in
  metadata_of (command (command w)) = metadata_of (command w).
Proof.
  intros w command.
  apply (alignment_command_sets_alignment AlignRight true
           (fun _ => Sample.ok) (fun _ => Sample.ok) w).
  - unfold map_allocated. simpl. lia.
  - intros i. reflexivity.
  - intros i. reflexivity.
Defined.

End Alignment.

Section ToolbarState.

Import Formatting ReportData Frame Toolbar.

Lemma shown_first t s (m : MetadataMap) first rest :
  getSelectedCells s = first :: rest ->
  shown t (getFormattingState s m) = currentValue t m first.
Proof.
  intros H. unfold getFormattingState, currentValue. rewrite H.
  destruct (m !! generateCellKey _ _ _) as [cm|]; [|destruct t; reflexivity].
  destruct (formatting cm); destruct t; reflexivity.
Qed.

(** X14.  The toolbar shows the state of the first selected cell.  When
    that cell has formatting and every write is answered with 200, a
    press on a formatting button flips what the toolbar shows for that
    attribute and leaves the other two as shown; a press on an alignment
    button makes the toolbar show that alignment. *)
Theorem toolbar_shows_first_cell t backend w first rest :
  map_allocated w ->
  (forall i, succeeded (backend i) = true) ->
  getSelectedCells (selection w) = first :: rest ->
  has_formatting (metadata_of w) first ->
  let before := getFormattingState (selection w) (metadata_of w) in
  let after_of v := getFormattingState (selection v) (metadata_of v) in
  shown t before = currentValue t (metadata_of w) first /\
  shown t (after_of (handleFormatting t backend w)) = negb (shown t before) /\
  (forall t', t' <> t ->
     shown t' (after_of (handleFormatting t backend w)) = shown t' before) /\
  (forall a, st_alignment (after_of (handleAlignment a backend w)) = Some a).
Proof.
  intros Hm Hok Hsel (cm & f & Hk & Hf) before after_of.
  fold (key_of first) in Hk.
  assert (In first (getSelectedCells (selection w))) as Hin
      by (rewrite Hsel; now left).
  split; [now apply shown_first with (rest := rest)|].
  destruct (toggle_command_success t false backend w Hm Hok)
    as (H1 & Hsel1 & _).
  change (toggle_command t false backend w)
    with (handleFormatting t backend w) in H1, Hsel1.
  assert (metadata_of (handleFormatting t backend w) !! key_of first
          = Some (with_formatting cm
                    (merge_formatting f
                       (attribute_change t
                          (negb match get_attribute t f with
                                | Some b => b
                                | None => false
                                end))))) as Hk1.
  { rewrite H1, decide_True by now apply key_of_selected.
    now apply flipped_entry_formatted. }
  assert (forall t', shown t' (after_of (handleFormatting t backend w))
                     = currentValue t' (metadata_of (handleFormatting t backend w))
                                    first) as Hafter.
  { intros t'. apply shown_first with (rest := rest). now rewrite Hsel1. }
  assert (forall t', shown t' before = currentValue t' (metadata_of w) first)
    as Hbefore by (intros t'; now apply shown_first with (rest := rest)).
  split; [|split].
  - rewrite Hafter, Hbefore, !currentValue_by_key, Hk1, Hk, Hf. simpl.
    now rewrite get_attribute_merge.
  - intros t' Hne.
    rewrite Hafter, Hbefore, !currentValue_by_key, Hk1, Hk, Hf. simpl.
    destruct t, t'; try reflexivity; now destruct Hne.
  - intros a.
    destruct (alignment_command_success a false backend w Hm Hok)
      as (H2 & Hsel2 & _).
    change (perform REPORT_ID
              (applyAlignmentToSelection (selection w) a false) backend w)
      with (handleAlignment a backend w) in H2, Hsel2.
    unfold after_of, getFormattingState. rewrite Hsel2, Hsel.
    fold (key_of first). rewrite H2, decide_True by now apply key_of_selected.
    rewrite Hk. simpl. unfold changed. rewrite Hf. reflexivity.
Qed.

Lemma toolbar_shows_first_cell_witness :
  let w := set_selection
             (Selection.selectRange (mkPos 0 0) (mkPos 1 1) Selection.initial)
             Sample.world in
  let after_of v := getFormattingState (selection v) (metadata_of v) in
  shown Bold (after_of (handleFormatting Bold (fun _ => Sample.ok) w))
  = negb (shown Bold (after_of w)).
Proof.
  intros w after_of.
  apply (toolbar_shows_first_cell Bold (fun _ => Sample.ok) w
           (mkPos 0 0) [mkPos 0 1; mkPos 1 0; mkPos 1 1]).
  - unfold map_allocated. simpl. lia.
  - intros i. reflexivity.
  - vm_compute. reflexivity.
  - eexists. eexists. split; vm_compute; reflexivity.
Defined.

End ToolbarState.

(** ** Edit session: what a save writes *)

Section SaveFrame.

Import EditData Rows.

Variable number_toString : Js.number -> string.

Lemma array_get_set_ne {A} (l : list (option A)) i j (x : A) :
  i <> j -> array_get (array_set l i x) j = array_get l j.
Proof.
  intros Hne. unfold array_get, array_set.
  destruct (i <? 0) eqn:Hi; [reflexivity|].
  destruct (j <? 0) eqn:Hj; [reflexivity|].
  apply Z.ltb_ge in Hi, Hj.
  assert (Z.to_nat i <> Z.to_nat j) as Hn by lia.
  destruct (Z.to_nat i <? length l)%nat eqn:Hlen.
  - now rewrite list_lookup_insert_ne.
  - apply Nat.ltb_ge in Hlen.
    destruct (decide (Z.to_nat j < length l)%nat) as [Hlt|Hge].
    + now rewrite lookup_app_l.
    + rewrite (lookup_ge_None_2 l (Z.to_nat j)) by lia.
      rewrite lookup_app_r by lia.
      destruct (decide (Z.to_nat j - length l < Z.to_nat i - length l)%nat)
        as [Hin|Hout].
      * rewrite lookup_app_l by (rewrite length_replicate; lia).
        rewrite lookup_replicate_2 by lia. reflexivity.
      * rewrite lookup_app_r by (rewrite length_replicate; lia).
        rewrite length_replicate.
        rewrite lookup_ge_None_2; [reflexivity|]. simpl. lia.
Qed.

Lemma array_set_same {A} (l : list (option A)) i (x : A) :
  array_get l i = Some x -> array_set l i x = l.
Proof.
  unfold array_get, array_set. destruct (i <? 0); [discriminate|].
  destruct (l !! Z.to_nat i) as [o|] eqn:Hl; [|discriminate].
  intros ->.
  assert (Z.to_nat i < length l)%nat as Hlt
      by (apply lookup_lt_is_Some; eauto).
  apply Nat.ltb_lt in Hlt. rewrite Hlt. now apply list_insert_id.
Qed.

(** The row [optimistic_rows] writes is the old row with one key set. *)
Lemma optimistic_rows_spec d cell id v :
  optimistic_rows d cell id v =
  array_set (rows d) (row cell)
    (<[prop_key id := v]>
       match array_get (rows d) (row cell) with Some r => r | None => ∅ end).
Proof.
  unfold optimistic_rows. destruct id as [k|]; [|reflexivity].
  destruct (String.eqb k "product") eqn:E; [|reflexivity].
  apply String.eqb_eq in E. subst k. reflexivity.
Qed.

Lemma value_at_optimistic d cell id v i k :
  i <> row cell \/ k <> prop_key id ->
  value_at (with_rows d (optimistic_rows d cell id v)) i k = value_at d i k.
Proof.
  intros Hne. unfold value_at. simpl. rewrite optimistic_rows_spec.
  destruct (decide (i = row cell)) as [->|Hi].
  - destruct (row cell <? 0) eqn:Hneg.
    + unfold array_set. now rewrite Hneg.
    + apply Z.ltb_ge in Hneg. rewrite array_get_set by exact Hneg.
      rewrite lookup_insert_ne by (destruct Hne; congruence).
      destruct (array_get (rows d) (row cell)); [reflexivity|].
      apply lookup_empty.
  - now rewrite array_get_set_ne by congruence.
Qed.

(** X15.  A save that is answered with 200 writes one value: every other
    column of the edited row and every other row reads as before (a row
    past the end of the array is created with that one value), and the
    sections, the column order, the column mapping, the metadata map and
    the selection are the ones from before. *)
Theorem saveEdit_writes_one_value outcome w cell :
  editingCell (edit w) = Some cell -> isEditValid (edit w) = true ->
  succeeded outcome = true ->
  let w' := fst (saveEdit number_toString outcome w) in
  let id := internalColumnId (getCellData number_toString (data w) cell) in
  (forall i k, i <> row cell \/ k <> prop_key id ->
     value_at (data w') i k = value_at (data w) i k) /\
  sections (data w') = sections (data w) /\
  columnOrder (data w') = columnOrder (data w) /\
  columnMapping (data w') = columnMapping (data w) /\
  cellMetadata (data w') = cellMetadata (data w) /\
  heap w' = heap w /\ selection w' = selection w.
Proof.
  intros He Hv Hok w' id. subst w'.
  rewrite (saveEdit_success number_toString outcome w cell He Hv Hok).
  cbn [fst data heap selection]. split; [|auto 10].
  intros i k Hne. now apply value_at_optimistic.
Qed.

Lemma with_rows_same d : with_rows d (rows d) = d.
Proof. destruct d; reflexivity. Qed.

(** X16.  A save that failed can be tried again: when the second attempt
    is answered with 200 the world is exactly the one a first attempt
    answered with 200 would have left, whatever the session (open or not,
    valid or not) and however the first attempt failed. *)
Theorem saveEdit_retry_after_failure failed ok w :
  succeeded failed = false -> succeeded ok = true ->
  fst (saveEdit number_toString ok (fst (saveEdit number_toString failed w)))
  = fst (saveEdit number_toString ok w).
Proof.
  intros Hf Hok.
  destruct (editingCell (edit w)) as [cell|] eqn:He.
  2:{ rewrite (saveEdit_idle number_toString failed w) by auto. reflexivity. }
  destruct (isEditValid (edit w)) eqn:Hv.
  2:{ rewrite (saveEdit_idle number_toString failed w) by auto. reflexivity. }
  rewrite (saveEdit_failure number_toString failed w cell He Hv Hf).
  cbn [fst].
  rewrite (saveEdit_success number_toString ok w cell He Hv Hok).
  match goal with
  | |- context [saveEdit _ ok (mkWorld ?h ?d ?s ?e)] =>
      rewrite (saveEdit_success number_toString ok (mkWorld h d s e) cell
                 eq_refl eq_refl Hok)
  end.
  cbn [fst data heap selection edit editValue].
  rewrite !with_rows_same. reflexivity.
Qed.

(** X17.  Opening a cell and saving it untouched leaves the data as it
    was whenever the cell holds a value whose printed form converts back
    to it, as a string in a text column does. *)
Theorem untouched_save_keeps_data outcome w cell v :
  0 <= row cell ->
  let cd := getCellData number_toString (data w) cell in
  value_at (data w) (row cell) (prop_key (internalColumnId cd)) = Some v ->
  convertValue (String_of number_toString (Some v)) (metadata cd) = v ->
  succeeded outcome = true ->
  data (fst (saveEdit number_toString outcome
               (startEdit number_toString cell w))) = data w.
Proof.
  intros Hrow cd Hval Hconv Hok.
  assert (rawValue cd = v) as Hraw.
  { subst cd. unfold getCellData. cbn [rawValue].
    unfold value_at in Hval. cbn [internalColumnId getCellData] in Hval.
    destruct (array_get (rows (data w)) (row cell)) as [r|]; [|discriminate].
    now rewrite Hval. }
  rewrite (saveEdit_success number_toString outcome
             (startEdit number_toString cell w) cell eq_refl eq_refl Hok).
  cbn [fst data startEdit set_edit edit editValue].
  fold cd. rewrite Hraw, Hconv, optimistic_rows_spec.
  unfold value_at in Hval.
  destruct (array_get (rows (data w)) (row cell)) as [r|] eqn:Hr;
    [|discriminate].
  rewrite insert_id by exact Hval.
  rewrite array_set_same by exact Hr. apply with_rows_same.
Qed.

Lemma blank_is_not_a_number v : blank v -> Js.isNaN (Js.parseFloat v) = true.
Proof.
  unfold blank. intros H. rewrite parseFloat_isNaN.
  apply trim_empty, trimStart_empty in H.
  unfold Js.begins_with_number. rewrite H. reflexivity.
Qed.

(** X18.  Validation and conversion agree on numeric cells: a value that
    passes validation is stored as a number exactly when it is not blank,
    and a blank value is stored as the string that was typed. *)
Theorem valid_numeric_value_conversion v md :
  is_numeric (md_type md) = true -> validateValue v md = true ->
  (blank v -> convertValue v md = VStr v) /\
  (~ blank v ->
   convertValue v md = VNum (Js.parseFloat v) /\
   Js.isNaN (Js.parseFloat v) = false).
Proof.
  intros Hn Hv. split.
  - intros Hb. unfold convertValue.
    rewrite (blank_is_not_a_number v Hb).
    destruct (md_type md); reflexivity.
  - intros Hb. unfold validateValue in Hv.
    destruct (String.eqb (Js.trim v) "") eqn:E.
    { apply String.eqb_eq in E. now destruct Hb. }
    unfold convertValue.
    destruct (md_type md); try discriminate Hn;
      apply negb_true_iff in Hv; rewrite Hv; auto.
Qed.

End SaveFrame.

Section SaveExamples.

Import EditData Rows.

Lemma saveEdit_writes_one_value_witness :
  let ts := Sample.print_whole in
  let w := updateEditValue ts "2500" (startEdit ts (mkPos 0 1) Sample.world) in
  value_at (data (fst (saveEdit ts Sample.ok w))) 1 "values_2020"
  = value_at (data w) 1 "values_2020".
Proof.
  intros ts w.
  apply (saveEdit_writes_one_value ts Sample.ok w (mkPos 0 1));
    try reflexivity.
  left. discriminate.
Defined.

Lemma saveEdit_retry_after_failure_witness :
  let ts := Sample.print_whole in
  let w := updateEditValue ts "2500" (startEdit ts (mkPos 0 1) Sample.world) in
  fst (saveEdit ts Sample.ok (fst (saveEdit ts Sample.rejected w)))
  = fst (saveEdit ts Sample.ok w).
Proof.
  intros ts w.
  apply (saveEdit_retry_after_failure ts Sample.rejected Sample.ok w);
    reflexivity.
Defined.

Lemma untouched_save_keeps_data_witness :
  data (fst (saveEdit Sample.print_whole Sample.ok
               (startEdit Sample.print_whole (mkPos 0 3) Sample.world)))
  = data Sample.world.
Proof.
  apply (untouched_save_keeps_data Sample.print_whole Sample.ok Sample.world (mkPos 0 3)
           (VStr "n/a"));
    [simpl; lia | vm_compute; reflexivity | vm_compute; reflexivity
     | reflexivity].
Defined.

Lemma valid_numeric_value_conversion_witness :
  let md := mkEditMetadata TCurrency true SecValues AlignRight false in
  convertValue "  " md = VStr "  " /\
  convertValue "25e2" md = VNum (Js.parseFloat "25e2").
Proof.
  intros md. split.
  - apply (valid_numeric_value_conversion "  " md); reflexivity.
  - apply (valid_numeric_value_conversion "25e2" md); try reflexivity.
    unfold blank. vm_compute. discriminate.
Defined.

End SaveExamples.

(** ** Keyboard router: navigation *)

Section RouterNavigation.

Import Selection Formatting ReportData Frame Rows EditData Keyboard Router.

Variable number_toString : Js.number -> string.
Variable reportId : string.
Variable have_batch : bool.
Variables totalRows totalColumns : Z.
Variable backend : nat -> Outcome.

#[local] Abbreviation route :=
  (Router.route number_toString reportId have_batch totalRows totalColumns
                backend).

Lemma shortcut_is_command e w w' :
  shortcut reportId have_batch backend e w = Some w' ->
  exists r, w' = perform reportId r backend w.
Proof.
  unfold shortcut. intros H.
  repeat match type of H with
         | (if ?b then _ else _) = _ => destruct b
         end;
    try discriminate; injection H as <-; eexists; reflexivity.
Qed.

Lemma shortcut_same_grid e w w' :
  map_allocated w -> shortcut reportId have_batch backend e w = Some w' ->
  same_grid w w'.
Proof.
  intros Hm H. apply shortcut_is_command in H as [r ->].
  now apply perform_same_grid.
Qed.

Lemma getCurrentCell_single s p :
  selectedCells s = Some (single_of p) -> getCurrentCell s = Some p.
Proof. intros H. unfold getCurrentCell. now rewrite H. Qed.

Lemma column_move_cases shift p w :
  selectedCells (selection w) = Some (single_of p) ->
  in_grid totalRows totalColumns p ->
  exists q,
    getCurrentCell (selection (column_move totalColumns shift p w)) = Some q /\
    in_grid totalRows totalColumns q /\
    Z.abs (row q - row p) + Z.abs (column q - column p) <= 1.
Proof.
  intros Hsel Hin. unfold column_move, in_grid in *.
  destruct shift.
  - destruct (0 <? column p) eqn:E.
    + apply Z.ltb_lt in E. eexists. split; [reflexivity|]. simpl. lia.
    + exists p. split; [now apply getCurrentCell_single | lia].
  - destruct (column p <? totalColumns - 1) eqn:E.
    + apply Z.ltb_lt in E. eexists. split; [reflexivity|]. simpl. lia.
    + exists p. split; [now apply getCurrentCell_single | lia].
Qed.

(** X19.  In navigation mode, with a single cell of the grid selected,
    whatever key is pressed the current cell stays inside the grid and
    moves by at most one cell; the only key that leaves no current cell is
    Escape. *)
Theorem navigation_stays_in_grid e w p :
  map_allocated w -> editingCell (edit w) = None ->
  selectedCells (selection w) = Some (single_of p) ->
  in_grid totalRows totalColumns p ->
  match getCurrentCell (selection (route e w)) with
  | Some q =>
      in_grid totalRows totalColumns q /\
      Z.abs (row q - row p) + Z.abs (column q - column p) <= 1
  | None => key e = "Escape"
  end.
Proof.
  intros Hm He Hsel Hin.
  pose proof (getCurrentCell_single _ _ Hsel) as Hcur.
  assert (forall w', selection w' = selection w ->
            match getCurrentCell (selection w') with
            | Some q =>
                in_grid totalRows totalColumns q /\
                Z.abs (row q - row p) + Z.abs (column q - column p) <= 1
            | None => key e = "Escape"
            end) as Hsame.
  { intros w' ->. rewrite Hcur. split; [exact Hin | lia]. }
  unfold Router.route, handleKeyDown. rewrite Hcur, He.
  destruct (shortcut reportId have_batch backend e w) as [w'|] eqn:Hs.
  { apply Hsame. apply (shortcut_same_grid e w w' Hm Hs). }
  unfold navigation.
  destruct (String.eqb (key e) "Escape") eqn:E1.
  { apply String.eqb_eq in E1. exact E1. }
  destruct (String.eqb (key e) "Tab") eqn:E2.
  { unfold navigateWithinRange. rewrite Hsel.
    assert (match activeCell (selection w) with
            | Some a =>
                match sel_type (single_of p), range (single_of p) with
                | TyRange, Some r =>
                    (true, with_active (selection w)
                             (Some (move (if shiftKey e then Previous else Next) r a)))
                | _, _ => (false, selection w)
                end
            | None => (false, selection w)
            end = (false, selection w)) as ->
        by (destruct (activeCell (selection w)); reflexivity).
    cbn [fst].
    destruct (column_move_cases (shiftKey e) p w Hsel Hin) as (q & -> & Hq).
    exact Hq. }
  destruct (String.eqb (key e) "Enter" || String.eqb (key e) "F2").
  { destruct (getActiveCell (selection w)); apply Hsame; reflexivity. }
  unfold in_grid in Hin.
  destruct (String.eqb (key e) "ArrowLeft").
  { destruct (0 <? column p) eqn:E; [|now apply Hsame].
    apply Z.ltb_lt in E. simpl. unfold in_grid. simpl. lia. }
  destruct (String.eqb (key e) "ArrowRight").
  { destruct (column p <? totalColumns - 1) eqn:E; [|now apply Hsame].
    apply Z.ltb_lt in E. simpl. unfold in_grid. simpl. lia. }
  destruct (String.eqb (key e) "ArrowUp").
  { destruct (0 <? row p) eqn:E; [|now apply Hsame].
    apply Z.ltb_lt in E. simpl. unfold in_grid. simpl. lia. }
  destruct (String.eqb (key e) "ArrowDown").
  { destruct (row p <? totalRows - 1) eqn:E; [|now apply Hsame].
    apply Z.ltb_lt in E. simpl. unfold in_grid. simpl. lia. }
  now apply Hsame.
Qed.

Lemma saveEdit_metadata outcome w :
  metadata_of (fst (saveEdit number_toString outcome w)) = metadata_of w /\
  selection (fst (saveEdit number_toString outcome w)) = selection w.
Proof.
  destruct (editingCell (edit w)) as [cell|] eqn:He.
  2:{ rewrite (saveEdit_idle number_toString outcome w) by auto. auto. }
  destruct (isEditValid (edit w)) eqn:Hv.
  2:{ rewrite (saveEdit_idle number_toString outcome w) by auto. auto. }
  destruct (succeeded outcome) eqn:Hok.
  - rewrite (saveEdit_success number_toString outcome w cell He Hv Hok). auto.
  - rewrite (saveEdit_failure number_toString outcome w cell He Hv Hok). auto.
Qed.

Lemma column_move_metadata shift c w :
  metadata_of (column_move totalColumns shift c w) = metadata_of w.
Proof.
  unfold column_move.
  destruct shift; match goal with |- context [if ?b then _ else _] =>
                                    destruct b end; reflexivity.
Qed.

Lemma column_move_rows shift c w :
  rows (data (column_move totalColumns shift c w)) = rows (data w) /\
  edit (column_move totalColumns shift c w) = edit w.
Proof.
  unfold column_move.
  destruct shift; match goal with |- context [if ?b then _ else _] =>
                                    destruct b end; auto.
Qed.

(** X20.  The two modes of the router keep to their own part of the
    state, whatever key is pressed and whatever the collaborator answers:
    while an edit session is open no key changes the metadata map (no
    formatting shortcut gets through), and while none is open no key
    changes the rows. *)
Theorem router_modes_are_separate e w :
  map_allocated w ->
  (editingCell (edit w) <> None ->
   metadata_of (route e w) = metadata_of w) /\
  (editingCell (edit w) = None ->
   rows (data (route e w)) = rows (data w)).
Proof.
  intros Hm. unfold Router.route, handleKeyDown.
  destruct (getCurrentCell (selection w)) as [c|]; [|split; reflexivity].
  split.
  - intros He. destruct (editingCell (edit w)) as [ec|]; [|now destruct He].
    unfold edit_mode.
    destruct (String.eqb (key e) "Enter").
    { destruct (isEditValid (edit w)); [|reflexivity].
      apply saveEdit_metadata. }
    destruct (String.eqb (key e) "Escape"); [reflexivity|].
    destruct (String.eqb (key e) "Tab"); [|reflexivity].
    destruct (isEditValid (edit w)); [|reflexivity].
    pose proof (saveEdit_metadata (backend O) w) as [Hmeta _].
    destruct (saveEdit number_toString (backend O) w) as [w' [u|t]];
      cbn [fst] in *; [|exact Hmeta].
    now rewrite column_move_metadata.
  - intros He. rewrite He.
    destruct (shortcut reportId have_batch backend e w) as [w'|] eqn:Hs.
    { apply (shortcut_same_grid e w w' Hm Hs). }
    unfold navigation.
    destruct (String.eqb (key e) "Escape"); [reflexivity|].
    destruct (String.eqb (key e) "Tab").
    { destruct (navigateWithinRange _ _) as [[|] s']; [reflexivity|].
      apply column_move_rows. }
    destruct (String.eqb (key e) "Enter" || String.eqb (key e) "F2").
    { destruct (getActiveCell (selection w)); reflexivity. }
    repeat match goal with
           | |- context [if ?b then _ else _] => destruct b
           end; reflexivity.
Qed.

(** X21.  In navigation mode a step with an arrow key or with Tab is
    undone by the step in the opposite direction, unless the first step
    was stopped by the edge of the grid: from a cell chosen by
    [selectCell] the two key presses give back the same world. *)
Theorem step_and_back e1 e2 s0 w p :
  editingCell (edit w) = None ->
  selection w = Selection.selectCell p s0 ->
  in_grid totalRows totalColumns p ->
  (e1 = press "ArrowRight" false /\ e2 = press "ArrowLeft" false /\
   column p < totalColumns - 1) \/
  (e1 = press "ArrowLeft" false /\ e2 = press "ArrowRight" false /\
   0 < column p) \/
  (e1 = press "ArrowDown" false /\ e2 = press "ArrowUp" false /\
   row p < totalRows - 1) \/
  (e1 = press "ArrowUp" false /\ e2 = press "ArrowDown" false /\
   0 < row p) \/
  (e1 = press "Tab" false /\ e2 = press "Tab" true /\
   column p < totalColumns - 1) \/
  (e1 = press "Tab" true /\ e2 = press "Tab" false /\ 0 < column p) ->
  route e2 (route e1 w) = w.
Proof.
  intros He Hsel [Hr Hc] Hcase.
  destruct w as [h d s ed]. simpl in He, Hsel. subst s.
  destruct p as [r c]. simpl in *.
  assert (forall a b : Z, a < b -> (a <? b) = true) as Hlt
      by (intros; now apply Z.ltb_lt).
  unfold Router.route, handleKeyDown.
  destruct Hcase as [(-> & -> & H) | [(-> & -> & H) | [(-> & -> & H) |
                     [(-> & -> & H) | [(-> & -> & H) | (-> & -> & H)]]]]];
    cbn; rewrite He; cbn; rewrite ?He; cbn;
    rewrite ?(Hlt _ _ H); cbn; rewrite ?He; cbn;
    repeat match goal with
           | |- context [?a <? ?b] => rewrite (Hlt a b) by lia; cbn
           end;
    rewrite ?He; cbn;
    repeat match goal with
           | |- context [?a <? ?b] => rewrite (Hlt a b) by lia; cbn
           end;
    unfold Keyboard.selectCell, set_selection, Selection.selectCell; cbn;
    repeat (f_equal; try lia).
Qed.

End RouterNavigation.

Section RouterExamples.

Import Selection Formatting ReportData Frame Rows EditData Keyboard Router.

Lemma navigation_stays_in_grid_witness :
  let w := set_selection (Selection.selectCell (mkPos 1 3) Selection.initial)
                         Sample.world in
  match getCurrentCell
          (selection (Router.route Sample.print_whole REPORT_ID true 2 4
                        (fun _ => Sample.ok) (press "ArrowRight" false) w)) with
  | Some q =>
      in_grid 2 4 q /\
      Z.abs (row q - 1) + Z.abs (column q - 3) <= 1
  | None => "ArrowRight" = "Escape"
  end.
Proof.
  intros w.
  apply (navigation_stays_in_grid Sample.print_whole REPORT_ID true 2 4
           (fun _ => Sample.ok) (press "ArrowRight" false) w (mkPos 1 3)).
  - unfold map_allocated. simpl. lia.
  - reflexivity.
  - reflexivity.
  - unfold in_grid. simpl. lia.
Defined.

Lemma router_modes_are_separate_witness :
  let w := EditData.startEdit Sample.print_whole (mkPos 0 1)
             (set_selection (Selection.selectCell (mkPos 0 1) Selection.initial)
                            Sample.world) in
  metadata_of
    (Router.route Sample.print_whole REPORT_ID true 2 4
                  (fun _ => Sample.ok) (mkKey "b" true false false) w)
  = metadata_of w.
Proof.
  intros w.
  apply (router_modes_are_separate Sample.print_whole REPORT_ID true 2 4
           (fun _ => Sample.ok) (mkKey "b" true false false) w).
  - unfold map_allocated. simpl. lia.
  - discriminate.
Defined.

Lemma step_and_back_witness :
  let w := set_selection (Selection.selectCell (mkPos 0 1) Selection.initial)
                         Sample.world in
  let go :=
    Router.route Sample.print_whole REPORT_ID true 2 4 (fun _ => Sample.ok) in
  go (press "Tab" true) (go (press "Tab" false) w) = w.
Proof.
  intros w go.
  apply (step_and_back Sample.print_whole REPORT_ID true 2 4
           (fun _ => Sample.ok) _ _ Selection.initial w (mkPos 0 1)).
  - reflexivity.
  - reflexivity.
  - unfold in_grid. simpl. lia.
  - right. right. right. right. left.
    split; [reflexivity|]. split; [reflexivity|]. simpl. lia.
Defined.

End RouterExamples.

(** ** Adapter: column identifiers and section types *)

Section AdapterColumns.

Import Adapter EditData.

Lemma word_char_lower c : is_word_char c = true -> Js.lower_char c = c.
Proof.
  destruct c as [[] [] [] [] [] [] [] []]; vm_compute;
    intros H; try reflexivity; discriminate H.
Qed.

Lemma word_char_not_space c : is_word_char c = true -> Js.is_space c = false.
Proof.
  destruct c as [[] [] [] [] [] [] [] []]; vm_compute;
    intros H; try reflexivity; discriminate H.
Qed.

Lemma word_chars_keep s : word_chars (keep_word_chars s) = true.
Proof.
  induction s as [|c s IH]; [reflexivity|]. simpl.
  destruct (is_word_char c) eqn:E; [|exact IH]. simpl. now rewrite E, IH.
Qed.

Lemma word_chars_take n s :
  word_chars s = true -> word_chars (take_chars n s) = true.
Proof.
  revert s. induction n as [|n IH]; intros [|c s] H; try reflexivity.
  simpl in *. apply andb_true_iff in H as [-> H]. now apply IH.
Qed.

Lemma length_take_chars n s : (String.length (take_chars n s) <= n)%nat.
Proof.
  revert s. induction n as [|n IH]; intros [|c s]; simpl; try lia.
  specialize (IH s). lia.
Qed.

Lemma take_chars_all n s :
  (String.length s <= n)%nat -> take_chars n s = s.
Proof.
  revert s. induction n as [|n IH]; intros [|c s] H; simpl in *;
    try reflexivity; try lia.
  f_equal. apply IH. lia.
Qed.

Lemma word_chars_fixed s :
  word_chars s = true ->
  Js.toLowerCase s = s /\ (forall b, underscore_runs b s = s) /\
  keep_word_chars s = s.
Proof.
  induction s as [|c s IH]; [now repeat split|].
  simpl. intros H. apply andb_true_iff in H as [Hc Hs].
  destruct (IH Hs) as (H1 & H2 & H3).
  rewrite (word_char_lower c Hc), (word_char_not_space c Hc), Hc, H1, H2, H3.
  repeat split.
Qed.

(** X22.  The prefix made of a section name is at most ten characters
    long and made of lower-case letters, digits and underscores only, so
    that it holds no white space; and making a prefix of a prefix changes
    nothing. *)
Theorem createColumnPrefix_is_identifier sectionName :
  (String.length (createColumnPrefix sectionName) <= 10)%nat /\
  word_chars (createColumnPrefix sectionName) = true /\
  createColumnPrefix (createColumnPrefix sectionName)
  = createColumnPrefix sectionName.
Proof.
  assert (word_chars (createColumnPrefix sectionName) = true) as Hw
      by (apply word_chars_take, word_chars_keep).
  pose proof (length_take_chars 10
                (keep_word_chars
                   (underscore_runs false (Js.toLowerCase sectionName)))) as Hl.
  fold (createColumnPrefix sectionName) in Hl.
  split; [exact Hl|]. split; [exact Hw|].
  destruct (word_chars_fixed _ Hw) as (H1 & H2 & H3).
  unfold createColumnPrefix at 1. rewrite H1, H2, H3.
  now apply take_chars_all.
Qed.

Lemma prefix_toLowerCase sub s :
  String.prefix sub s = true ->
  String.prefix (Js.toLowerCase sub) (Js.toLowerCase s) = true.
Proof.
  revert s. induction sub as [|c sub IH]; intros s H;
    [destruct s; reflexivity|].
  destruct s as [|c' s]; simpl in *; [discriminate|].
  destruct (ascii_dec c c') as [->|Hne]; [|discriminate].
  destruct (ascii_dec _ _) as [_|F]; [now apply IH | now destruct F].
Qed.

Lemma includes_toLowerCase s sub :
  Js.includes s sub = true ->
  Js.includes (Js.toLowerCase s) (Js.toLowerCase sub) = true.
Proof.
  induction s as [|c s IH]; cbn [Js.includes Js.toLowerCase]; intros H;
    apply orb_true_iff in H as [H|H]; try discriminate H.
  - apply prefix_toLowerCase in H. cbn [Js.toLowerCase] in H. now rewrite H.
  - apply prefix_toLowerCase in H. cbn [Js.toLowerCase] in H. now rewrite H.
  - rewrite (IH H). apply orb_true_r.
Qed.

Lemma inferSectionType_numeric sectionName :
  Js.includes sectionName "Growth" = true \/
  Js.includes sectionName "Value" = true ->
  inferSectionType sectionName = KGrowth \/
  inferSectionType sectionName = KPercentage \/
  inferSectionType sectionName = KCurrency.
Proof.
  unfold inferSectionType. intros [H|H]; apply includes_toLowerCase in H.
  - change (Js.toLowerCase "Growth") with "growth" in H. rewrite H. auto.
  - change (Js.toLowerCase "Value") with "value" in H. rewrite H.
    destruct (_ || _); [auto|]. destruct (_ || _); auto.
Qed.

Variable number_toString : Js.number -> string.

(** X23.  The edit session derives the type of a cell from the name of
    its section by its own rule; whenever that rule says the cell is
    numeric, the type the adapter records for a cell of a column of that
    section is numeric too, whatever the cell holds. *)
Theorem edit_numeric_is_recorded_numeric d position k s key name value :
  List.find
    (fun s' => existsb (fun col => String.eqb (col_id col) k) (sec_columns s'))
    (sections d) = Some s ->
  sec_name s <> "" ->
  is_numeric (md_type (getCellMetadata number_toString position (Some k) d))
  = true ->
  is_numeric
    (determineCellType k (Some (data_column (sec_name s) key name)) value)
  = true.
Proof.
  intros Hfind Hname. unfold getCellMetadata. cbn [md_type].
  rewrite Hfind.
  assert (String.eqb (sec_name s) "" = false) as ->
      by now apply String.eqb_neq.
  intros H.
  assert (Js.includes (sec_name s) "Growth" = true \/
          Js.includes (sec_name s) "Value" = true) as Hinc.
  { destruct (Js.includes (sec_name s) "Growth"); [now left|].
    destruct (Js.includes (sec_name s) "Value"); [now right|].
    discriminate H. }
  unfold determineCellType, data_column. cbn [col_kind].
  destruct (inferSectionType_numeric _ Hinc) as [-> | [-> | ->]]; reflexivity.
Qed.

End AdapterColumns.

Section AdapterExamples.

Import Adapter EditData.

Lemma edit_numeric_is_recorded_numeric_witness :
  is_numeric
    (determineCellType "values_2020"
       (Some (data_column "Values" "2020" "2020")) (VStr "n/a"))
  = true.
Proof.
  apply (edit_numeric_is_recorded_numeric Sample.print_whole Sample.report
           (mkPos 0 1) "values_2020"
           (mkSection "Values" [Sample.values_2020] KCurrency));
    [reflexivity | discriminate | reflexivity].
Defined.

End AdapterExamples.

(** ** Editing a cell from the keyboard *)

Section KeyboardEditing.

Import Selection Formatting ReportData EditData Keyboard Router.

Variable number_toString : Js.number -> string.
Variable reportId : string.
Variable have_batch : bool.
Variables totalRows totalColumns : Z.
Variable backend : nat -> Outcome.

#[local] Abbreviation route :=
  (Router.route number_toString reportId have_batch totalRows totalColumns
                backend).



End KeyboardEditing.

Section KeyboardEditingExample.

Import Selection Formatting ReportData EditData Keyboard Router.


End KeyboardEditingExample.
